(** * douyin-downloader: scheduling core

    A shallow embedding of the four cooperating pieces of the download
    engine and the properties claimed for them:

    - [RateLimiter]   : [core/rate_limiter.py], class [AdaptiveRateLimiter]
    - [Retry]         : [strategies/retry_strategy.py], class [RetryStrategy]
    - [Queue]         : [core/queue_manager.py], class [PersistentQueue]
    - [Orchestrator]  : [core/orchestrator.py], class [DownloadOrchestrator]

    Conventions.  Python [int] is [Z].  A Python [float] that holds a clock
    reading or a duration is the rational it denotes ([Q]); differences of
    clock readings are taken exactly.  The two products of an [int] with a
    [float] literal ([* 0.7], [* 1.2]) are computed as binary64 does, see
    [Binary64].  [str] is [string] (the UTF-8 bytes; [Base.lower] reads the
    code points off them).  Every call of a
    coroutine is taken as one atomic step; what the environment decides
    (clock readings, storage faults, what a download returns, fresh ids) is
    an explicit argument. *)

From Stdlib Require Import ZArith QArith Lqa String Ascii Bool Lia.
From stdpp Require Import gmap strings list sorting pretty.

Open Scope bool_scope.
Open Scope Z_scope.

(** ** Comparisons on rationals as booleans *)

Definition Qltb (x y : Q) : bool := negb (Qle_bool y x).

(** ** The binary64 product of an integer and a float literal

    [int(n * c)] for an [int] [n] and a literal [c]: [n] is converted to
    the nearest double (ties to even), multiplied by the double nearest to
    [c], the product is rounded the same way, and [int] truncates towards
    zero.  A double is here [m * 2^-e] with [m], [e] integers. *)

Module Binary64.

(** The nearest integer to [m >= 0] that has at most 53 significant bits,
    ties going to the even significand. *)
Definition round53 (m : Z) : Z :=
  let s := Z.log2 m - 52 in
  if s <=? 0 then m
  else
    let q := m / 2 ^ s in
    let r := m mod 2 ^ s in
    let half := 2 ^ (s - 1) in
    if (half <? r) || ((r =? half) && Z.odd q)
    then (q + 1) * 2 ^ s
    else q * 2 ^ s.

(** Doubles are below [2^1024]; what rounds to it or above is an overflow. *)
Definition huge : Z := 2 ^ 1024.

(** A positive literal [M * 2^-E]. *)
Record literal := Literal { significand : Z; scale : Z }.

(** 0.7 is 0x1.6666666666666p-1 and 1.2 is 0x1.3333333333333p+0. *)
Definition lit_0_7 : literal := Literal 6305039478318694 53.
Definition lit_1_2 : literal := Literal 5404319552844595 52.

(** [int(n * c)]; [None] is Python's [OverflowError] (the [int] does not
    fit a float, or the product is infinite). *)
Definition int_mul (n : Z) (c : literal) : option Z :=
  let x := round53 (Z.abs n) in
  if huge <=? x then None
  else
    let p := round53 (x * significand c) in
    if huge * 2 ^ scale c <=? p then None
    else Some (Z.sgn n * (p / 2 ^ scale c)).

End Binary64.

(** * The adaptive rate limiter ([core/rate_limiter.py]) *)

Module RateLimiter.

Inductive RateLimitStrategy := FIXED | ADAPTIVE | BURST.

Definition is_adaptive (m : RateLimitStrategy) : bool :=
  match m with ADAPTIVE => true | _ => false end.

Definition is_burst (m : RateLimitStrategy) : bool :=
  match m with BURST => true | _ => false end.

Record RateLimitConfig := Config {
  max_per_second : Z;
  max_per_minute : Z;
  max_per_hour : Z;
  burst_size : Z;
  strategy : RateLimitStrategy;
  cooldown_time : Z
}.

(** The dataclass defaults. *)
Definition default_config : RateLimitConfig := Config 2 30 1000 5 ADAPTIVE 60.

Record Stats := MkStats {
  total_requests : Z;
  blocked_requests : Z;
  rate_adjustments : Z;
  current_rate : Z;
  failure_rate : Q
}.

(** [requests] and [failures] are the two deques, oldest entry first. *)
Record AdaptiveRateLimiter := Limiter {
  config : RateLimitConfig;
  requests : list Q;
  failures : list Q;
  current_max_per_second : Z;
  current_max_per_minute : Z;
  current_max_per_hour : Z;
  stats : Stats;
  cooldown_until : Q
}.

(** [__init__] *)
Definition init (cfg : RateLimitConfig) : AdaptiveRateLimiter :=
  Limiter cfg [] []
    (max_per_second cfg) (max_per_minute cfg) (max_per_hour cfg)
    (MkStats 0 0 0 (max_per_second cfg) 0)
    0.

Definition set_requests (l : list Q) (s : AdaptiveRateLimiter) :=
  Limiter (config s) l (failures s) (current_max_per_second s)
    (current_max_per_minute s) (current_max_per_hour s) (stats s) (cooldown_until s).

Definition set_failures (l : list Q) (s : AdaptiveRateLimiter) :=
  Limiter (config s) (requests s) l (current_max_per_second s)
    (current_max_per_minute s) (current_max_per_hour s) (stats s) (cooldown_until s).

Definition set_per_second (n : Z) (s : AdaptiveRateLimiter) :=
  Limiter (config s) (requests s) (failures s) n
    (current_max_per_minute s) (current_max_per_hour s) (stats s) (cooldown_until s).

Definition set_per_minute (n : Z) (s : AdaptiveRateLimiter) :=
  Limiter (config s) (requests s) (failures s) (current_max_per_second s)
    n (current_max_per_hour s) (stats s) (cooldown_until s).

Definition set_per_hour (n : Z) (s : AdaptiveRateLimiter) :=
  Limiter (config s) (requests s) (failures s) (current_max_per_second s)
    (current_max_per_minute s) n (stats s) (cooldown_until s).

Definition set_stats (st : Stats) (s : AdaptiveRateLimiter) :=
  Limiter (config s) (requests s) (failures s) (current_max_per_second s)
    (current_max_per_minute s) (current_max_per_hour s) st (cooldown_until s).

Definition set_cooldown_until (t : Q) (s : AdaptiveRateLimiter) :=
  Limiter (config s) (requests s) (failures s) (current_max_per_second s)
    (current_max_per_minute s) (current_max_per_hour s) (stats s) t.

(** ** The environment of a call

    [clock] holds the values the coming calls of [time.time()] return, in
    order; [slept] the durations handed to [asyncio.sleep] so far, the
    latest last. *)
Record world := World {
  lim : AdaptiveRateLimiter;
  clock : list Q;
  slept : list Q
}.

Inductive exn := OverflowError | ValueError.

(** A call returns ([Ok]), raises ([Raised]), or has not come back within
    the clock readings supplied ([Suspended]). *)
Inductive result (A : Type) :=
| Ok (a : A) (w : world)
| Raised (e : exn) (w : world)
| Suspended (w : world).
Arguments Ok {A}. Arguments Raised {A}. Arguments Suspended {A}.

Definition M (A : Type) := world -> result A.

#[export] Instance M_ret : MRet M := fun A (a : A) w => Ok a w.

#[export] Instance M_bind : MBind M := fun A B (k : A -> M B) (m : M A) w =>
  match m w with
  | Ok a w' => k a w'
  | Raised e w' => Raised e w'
  | Suspended w' => Suspended w'
  end.

Definition ret {A} (a : A) : M A := mret a.

Definition raise {A} (e : exn) : M A := fun w => Raised e w.

Definition self : M AdaptiveRateLimiter := fun w => Ok (lim w) w.

Definition update (f : AdaptiveRateLimiter -> AdaptiveRateLimiter) : M unit :=
  fun w => Ok tt (World (f (lim w)) (clock w) (slept w)).

(** [time.time()] *)
Definition time_time : M Q :=
  fun w => match clock w with
           | [] => Suspended w
           | t :: rest => Ok t (World (lim w) rest (slept w))
           end.

(** How many clock readings the environment still holds. *)
Definition readings_left : M nat := fun w => Ok (length (clock w)) w.

(** [await asyncio.sleep(d)] *)
Definition sleep (d : Q) : M unit :=
  fun w => Ok tt (World (lim w) (clock w) (slept w ++ [d])).

(** ** Windows *)

(** [[r for r in l if now - r < h]] *)
Definition recent (h now : Q) (l : list Q) : list Q :=
  List.filter (fun r => Qltb (now - r) h) l.

Definition len (l : list Q) : Z := Z.of_nat (length l).

(** The float literal 0.1, exactly. *)
Definition tenth : Q := 3602879701896397 # 36028797018963968.

(** [min(l)]; the empty list is a [ValueError]. *)
Definition py_min (l : list Q) : M Q :=
  match l with
  | [] => raise ValueError
  | x :: l' => ret (fold_left (fun m y => if Qltb y m then y else m) l' x)
  end.

(** [_can_proceed] *)
Definition _can_proceed (s : AdaptiveRateLimiter) (now : Q) : bool :=
  if current_max_per_second s <=? len (recent 1 now (requests s)) then false
  else if current_max_per_minute s <=? len (recent 60 now (requests s)) then false
  else if current_max_per_hour s <=? len (recent 3600 now (requests s)) then false
  else if is_burst (strategy (config s))
          && (burst_size (config s) <=? len (recent tenth now (requests s)))
       then false
  else true.

(** [_calculate_wait_time] *)
Definition _calculate_wait_time (now : Q) : M Q :=
  s ← self;
  let recent_second := recent 1 now (requests s) in
  w1 ← (if current_max_per_second s <=? len recent_second
         then (oldest ← py_min recent_second; ret [1 - (now - oldest)]%Q)
         else ret []);
  let recent_minute := recent 60 now (requests s) in
  w2 ← (if current_max_per_minute s <=? len recent_minute
         then (oldest ← py_min recent_minute; ret [60 - (now - oldest)]%Q)
         else ret []);
  match w1 ++ w2 with
  | [] => ret tenth
  | wait_times => py_min wait_times
  end.

(** The two [while ... popleft()] loops of [_clean_old_records]. *)
Fixpoint drop_older (h now : Q) (l : list Q) : list Q :=
  match l with
  | [] => []
  | r :: l' => if Qltb h (now - r) then drop_older h now l' else l
  end.

Definition _clean_old_records (now : Q) : M unit :=
  update (fun s => set_requests (drop_older 3600 now (requests s)) s);;
  update (fun s => set_failures (drop_older 600 now (failures s)) s).

(** ** Moving the ceilings *)

(** [int(n * 0.7)] and [int(n * 1.2)], raising where Python does. *)
Definition times (n : Z) (c : Binary64.literal) : M Z :=
  match Binary64.int_mul n c with
  | Some v => ret v
  | None => raise OverflowError
  end.

Definition note_adjustment (old_rate : Z) : M unit :=
  s ← self;
  if old_rate =? current_max_per_second s then ret tt
  else
    update (set_stats
      (MkStats (total_requests (stats s)) (blocked_requests (stats s))
               (rate_adjustments (stats s) + 1) (current_max_per_second s)
               (failure_rate (stats s)))).

(** [_decrease_rate] *)
Definition _decrease_rate : M unit :=
  s ← self;
  let old_rate := current_max_per_second s in
  a ← times (current_max_per_second s) Binary64.lit_0_7;
  update (set_per_second (Z.max 1 a));;
  b ← times (current_max_per_minute s) Binary64.lit_0_7;
  update (set_per_minute (Z.max 10 b));;
  c ← times (current_max_per_hour s) Binary64.lit_0_7;
  update (set_per_hour (Z.max 100 c));;
  note_adjustment old_rate.

(** [_increase_rate] *)
Definition _increase_rate : M unit :=
  s ← self;
  let old_rate := current_max_per_second s in
  a ← times (current_max_per_second s) Binary64.lit_1_2;
  update (set_per_second (Z.min (max_per_second (config s)) a));;
  b ← times (current_max_per_minute s) Binary64.lit_1_2;
  update (set_per_minute (Z.min (max_per_minute (config s)) b));;
  c ← times (current_max_per_hour s) Binary64.lit_1_2;
  update (set_per_hour (Z.min (max_per_hour (config s)) c));;
  note_adjustment old_rate.

(** [_adjust_rate].  The quotient of the two lengths is compared with 0.3
    and 0.05 as a rational; the float quotient orders the same way for
    windows of fewer than 10^15 entries. *)
Definition _adjust_rate : M unit :=
  now ← time_time;
  s ← self;
  let recent_failures := recent 60 now (failures s) in
  let recent_requests := recent 60 now (requests s) in
  if 10 <? len recent_requests then
    let rate := (inject_Z (len recent_failures) / inject_Z (len recent_requests))%Q in
    update (set_stats
      (MkStats (total_requests (stats s)) (blocked_requests (stats s))
               (rate_adjustments (stats s)) (current_rate (stats s)) rate));;
    if Qltb (3 # 10) rate then _decrease_rate
    else if Qltb rate (1 # 20) && (20 <? len recent_requests) then _increase_rate
    else ret tt
  else ret tt.

(** [_handle_failure] *)
Definition _handle_failure : M unit :=
  now ← time_time;
  s ← self;
  if 5 <=? len (recent 10 now (failures s)) then
    update (set_cooldown_until (now + inject_Z (cooldown_time (config s)))%Q);;
    _decrease_rate
  else ret tt.

(** [record_failure] *)
Definition record_failure : M unit :=
  now ← time_time;
  update (fun s => set_failures (failures s ++ [now]) s);;
  s ← self;
  if is_adaptive (strategy (config s)) then _handle_failure else ret tt.

(** [set_cooldown] *)
Definition set_cooldown (seconds : Z) : M unit :=
  now ← time_time;
  update (set_cooldown_until (now + inject_Z seconds)%Q).

(** The [while not self._can_proceed(now)] loop of [acquire].  Each turn
    that sleeps reads the clock once, so [fuel] is set to one more than
    the readings at hand.  [Some now] leaves the loop with the reading it
    passed the check at; [None] is the [return False] inside the loop. *)
Fixpoint acquire_wait (fuel : nat) (now : Q) : M (option Q) :=
  match fuel with
  | O => fun w => Suspended w
  | S fuel' =>
      s ← self;
      if _can_proceed s now then ret (Some now)
      else
        wait_time ← _calculate_wait_time now;
        if Qltb 0 wait_time then
          sleep wait_time;;
          now' ← time_time;
          _clean_old_records now';;
          acquire_wait fuel' now'
        else
          update (fun s => set_stats
            (MkStats (total_requests (stats s)) (blocked_requests (stats s) + 1)
                     (rate_adjustments (stats s)) (current_rate (stats s))
                     (failure_rate (stats s))) s);;
          ret None
  end.

(** The permit is written down: [self.requests.append(now)] and the
    counter. *)
Definition record_permit (now : Q) : M unit :=
  update (fun s => set_requests (requests s ++ [now]) s);;
  update (fun s => set_stats
    (MkStats (total_requests (stats s) + 1) (blocked_requests (stats s))
             (rate_adjustments (stats s)) (current_rate (stats s))
             (failure_rate (stats s))) s).

(** [acquire] *)
Definition acquire : M bool :=
  now ← time_time;
  s ← self;
  (if Qltb now (cooldown_until s) then
     sleep (cooldown_until s - now)%Q;;
     update (set_cooldown_until 0)
   else ret tt);;
  _clean_old_records now;;
  fuel ← readings_left;
  go ← acquire_wait (S fuel) now;
  match go with
  | None => ret false
  | Some now =>
      record_permit now;;
      s ← self;
      (if is_adaptive (strategy (config s)) then _adjust_rate else ret tt);;
      ret true
  end.

(** ** Reading the limiter *)

(** The world a call leaves behind, however it ended. *)
Definition after {A} (r : result A) : world :=
  match r with Ok _ w | Raised _ w | Suspended w => w end.

(** The two moves of the ceilings, and a run of them. *)
Inductive adjustment := Shrink | Grow.

Definition adjust (a : adjustment) : M unit :=
  match a with Shrink => _decrease_rate | Grow => _increase_rate end.

Definition adjust_all (l : list adjustment) (w : world) : world :=
  fold_left (fun w a => after (adjust a w)) l w.

(** Every ceiling between its floor and the configured maximum. *)
Definition ceilings_in_range (s : AdaptiveRateLimiter) : Prop :=
  1 <= current_max_per_second s <= max_per_second (config s) /\
  10 <= current_max_per_minute s <= max_per_minute (config s) /\
  100 <= current_max_per_hour s <= max_per_hour (config s).

(** The limiter as calls of [acquire] alone leave it: no failure on
    record and every ceiling at its configured maximum. *)
Definition untouched (cfg : RateLimitConfig) (w : world) : Prop :=
  config (lim w) = cfg /\ failures (lim w) = [] /\
  current_max_per_second (lim w) = max_per_second cfg /\
  current_max_per_minute (lim w) = max_per_minute cfg /\
  current_max_per_hour (lim w) = max_per_hour cfg.

(** The world after [n] calls of [acquire] one after the other, however
    each of them ended. *)
Definition after_acquires (n : nat) (w : world) : world :=
  Nat.iter n (fun w => after (acquire w)) w.

(** What a helper leaves untouched. *)
Definition same_ceilings (w w' : world) : Prop :=
  config (lim w') = config (lim w) /\
  current_max_per_second (lim w') = current_max_per_second (lim w) /\
  current_max_per_minute (lim w') = current_max_per_minute (lim w) /\
  current_max_per_hour (lim w') = current_max_per_hour (lim w).

(** [w'] has slept what [w] had, and then some positive durations. *)
Definition slept_on (w w' : world) : Prop :=
  exists more, slept w' = slept w ++ more /\ Forall (fun d => (0 < d)%Q) more.

(** [m] only ever takes readings off the front of the clock. *)
Definition reads_on {A} (m : M A) : Prop :=
  forall w, clock (after (m w)) `suffix_of` clock w.

(** ** Scenarios *)

(** Two readings of the clock every half second, from [k / 2] on. *)
Fixpoint every_half_second (n : nat) (k : Z) : list Q :=
  match n with
  | O => []
  | S n' => (k # 2) :: (k # 2) :: every_half_second n' (k + 1)
  end.

(** The default limiter after four failures at second 100, with the
    clock of eleven calls of [acquire] half a second apart ahead. *)
Definition four_failures : world :=
  Nat.iter 4 (fun w => after (record_failure w))
    (World (init default_config)
       ([100; 100; 100; 100; 100; 100; 100; 100] ++ every_half_second 11 200)%Q []).

(** ... and after the first ten of these calls. *)
Definition ten_permits : world := Nat.iter 10 (fun w => after (acquire w)) four_failures.

(** A limiter in fixed mode after five failures in the same second. *)
Definition fixed_config : RateLimitConfig := Config 2 30 1000 5 FIXED 60.

Definition five_failures_fixed : world :=
  Nat.iter 5 (fun w => after (record_failure w))
    (World (init fixed_config) [100; 100; 100; 100; 100; 101]%Q []).

(** A per-minute maximum below the floor of ten. *)
Definition low_minute_config : RateLimitConfig := Config 2 5 1000 5 ADAPTIVE 60.

(** A fresh default limiter about to serve one [acquire]. *)
Definition first_call : world := World (init default_config) [100; 100]%Q [].

(** A fresh default limiter with the clock of three calls of [acquire]
    within one second ahead. *)
Definition three_calls : world :=
  World (init default_config) [100; 100; 100; 100; 100; 101; 101]%Q [].


(** ** The rest of the interface *)

(** [reset_stats] *)
Definition reset_stats : M unit :=
  update (fun s => set_stats (MkStats 0 0 0 (current_max_per_second s) 0) s).

(** [__aenter__] and [__aexit__]: [raised] tells whether the body of the
    [async with] block left with an exception. *)
Definition __aenter__ : M unit := acquire;; ret tt.

Definition __aexit__ (raised : bool) : M unit :=
  if raised then record_failure else ret tt.

(** What a user of the limiter may call, and a sequence of such calls,
    each made when the one before has returned. *)
Inductive call :=
| Acquire
| Report_failure
| Cool_down (seconds : Z)
| Clear_stats
| Within_block (raised : bool).

Definition perform (c : call) : M unit :=
  match c with
  | Acquire => acquire;; ret tt
  | Report_failure => record_failure
  | Cool_down seconds => set_cooldown seconds
  | Clear_stats => reset_stats
  | Within_block raised => __aenter__;; __aexit__ raised
  end.

Fixpoint perform_all (l : list call) : M unit :=
  match l with
  | [] => ret tt
  | c :: l' => perform c;; perform_all l'
  end.

(** The reported rate is the per-second ceiling. *)
Definition rate_reported (s : AdaptiveRateLimiter) : Prop :=
  current_rate (stats s) = current_max_per_second s.

(** The two request counters and the cooldown are as they were. *)
Definition counters_kept (w w' : world) : Prop :=
  total_requests (stats (lim w')) = total_requests (stats (lim w)) /\
  blocked_requests (stats (lim w')) = blocked_requests (stats (lim w)) /\
  cooldown_until (lim w') = cooldown_until (lim w).

(** ** Further scenarios *)

(** A configuration that allows nothing per second. *)
Definition zero_per_second : RateLimitConfig := Config 0 30 1000 5 ADAPTIVE 60.

(** A burst limiter with room for two permits in a tenth of a second. *)
Definition burst_config : RateLimitConfig := Config 10 30 1000 2 BURST 60.

(** The default limiter with its per-second ceiling cut to one. *)
Definition cut_to_one : world :=
  after (_decrease_rate (World (init default_config) [] [])).

End RateLimiter.

(** * Work units and results ([strategies/base.py]) *)

Module Base.

Inductive TaskType := VIDEO | IMAGE | MUSIC | USER | MIX | LIVE.

Inductive TaskStatus := PENDING | PROCESSING | COMPLETED | FAILED | RETRYING.

(** The [.value] of the two enumerations. *)
Definition TaskType_value (t : TaskType) : string :=
  match t with
  | VIDEO => "video" | IMAGE => "image" | MUSIC => "music"
  | USER => "user" | MIX => "mix" | LIVE => "live"
  end.

Definition TaskStatus_value (s : TaskStatus) : string :=
  match s with
  | PENDING => "pending" | PROCESSING => "processing" | COMPLETED => "completed"
  | FAILED => "failed" | RETRYING => "retrying"
  end.

(** [TaskType(text)]; [None] is the [ValueError] for an unknown value. *)
Definition TaskType_of_value (v : string) : option TaskType :=
  List.find (fun t => String.eqb (TaskType_value t) v) [VIDEO; IMAGE; MUSIC; USER; MIX; LIVE].

(** [metadata] maps names to values; a value is kept as its text. *)
Abbreviation Metadata := (gmap string string).

Record DownloadTask := Task {
  task_id : string;
  url : string;
  task_type : TaskType;
  priority : Z;
  retry_count : Z;
  max_retries : Z;
  status : TaskStatus;
  metadata : Metadata;
  created_at : Q;
  updated_at : Q;
  error_message : option string
}.

Definition set_retry_count (n : Z) (t : DownloadTask) : DownloadTask :=
  Task (task_id t) (url t) (task_type t) (priority t) n (max_retries t) (status t)
       (metadata t) (created_at t) (updated_at t) (error_message t).

Definition set_status (s : TaskStatus) (t : DownloadTask) : DownloadTask :=
  Task (task_id t) (url t) (task_type t) (priority t) (retry_count t) (max_retries t) s
       (metadata t) (created_at t) (updated_at t) (error_message t).

Definition set_updated_at (now : Q) (t : DownloadTask) : DownloadTask :=
  Task (task_id t) (url t) (task_type t) (priority t) (retry_count t) (max_retries t)
       (status t) (metadata t) (created_at t) now (error_message t).

(** [DownloadTask.increment_retry], [now] being what [time.time()] gives:
    the task as changed, and whether it may be tried again. *)
Definition increment_retry (now : Q) (t : DownloadTask) : DownloadTask * bool :=
  let t' := set_updated_at now (set_retry_count (retry_count t + 1) t) in
  (t', retry_count t' <? max_retries t').

Record DownloadResult := Result {
  success : bool;
  result_task_id : string;
  file_paths : list string;
  result_error_message : option string;
  result_metadata : Metadata;
  duration : Q;
  result_retry_count : Z
}.

(** [DownloadResult(success=False, task_id=.., error_message=..,
    retry_count=..)], the other fields at their defaults. *)
Definition failure (id : string) (msg : string) (retries : Z) : DownloadResult :=
  Result false id [] (Some msg) ∅ 0 retries.

(** Higher priority first, and of two tasks of one priority the one
    created earlier. *)
Definition task_before (a b : DownloadTask) : Prop :=
  priority b < priority a \/ (priority a = priority b /\ (created_at a <= created_at b)%Q).

(** ** Strings *)

(** *** [str.lower()]

    A [str] is held as its UTF-8 bytes, so [lower] reads the code points
    off the bytes, lowers them as CPython does and writes them back.  The
    three tables are those of the Unicode database of CPython 3.11
    (Unicode 14.0): the simple lower-case mappings above U+007F as
    [(first, last, step, shift)], every [step]-th code point from [first]
    to [last] going to itself plus [shift]; the code points with the
    property Case_Ignorable and those with the property Cased, as
    [(first, last)]. *)

Definition lower_table : list (Z * Z * Z * Z) :=
  [(192, 214, 1, 32); (216, 222, 1, 32); (256, 302, 2, 1); (306, 310, 2, 1);
   (313, 327, 2, 1); (330, 374, 2, 1); (376, 376, 1, (-121)); (377, 381, 2, 1);
   (385, 385, 1, 210); (386, 388, 2, 1); (390, 390, 1, 206); (391, 391, 1, 1);
   (393, 394, 1, 205); (395, 395, 1, 1); (398, 398, 1, 79); (399, 399, 1, 202);
   (400, 400, 1, 203); (401, 401, 1, 1); (403, 403, 1, 205); (404, 404, 1, 207);
   (406, 406, 1, 211); (407, 407, 1, 209); (408, 408, 1, 1); (412, 412, 1, 211);
   (413, 413, 1, 213); (415, 415, 1, 214); (416, 420, 2, 1); (422, 422, 1, 218);
   (423, 423, 1, 1); (425, 425, 1, 218); (428, 428, 1, 1); (430, 430, 1, 218);
   (431, 431, 1, 1); (433, 434, 1, 217); (435, 437, 2, 1); (439, 439, 1, 219);
   (440, 440, 1, 1); (444, 444, 1, 1); (452, 452, 1, 2); (453, 453, 1, 1); (455, 455, 1, 2);
   (456, 456, 1, 1); (458, 458, 1, 2); (459, 475, 2, 1); (478, 494, 2, 1); (497, 497, 1, 2);
   (498, 500, 2, 1); (502, 502, 1, (-97)); (503, 503, 1, (-56)); (504, 542, 2, 1);
   (544, 544, 1, (-130)); (546, 562, 2, 1); (570, 570, 1, 10795); (571, 571, 1, 1);
   (573, 573, 1, (-163)); (574, 574, 1, 10792); (577, 577, 1, 1); (579, 579, 1, (-195));
   (580, 580, 1, 69); (581, 581, 1, 71); (582, 590, 2, 1); (880, 882, 2, 1);
   (886, 886, 1, 1); (895, 895, 1, 116); (902, 902, 1, 38); (904, 906, 1, 37);
   (908, 908, 1, 64); (910, 911, 1, 63); (913, 929, 1, 32); (932, 939, 1, 32);
   (975, 975, 1, 8); (984, 1006, 2, 1); (1012, 1012, 1, (-60)); (1015, 1015, 1, 1);
   (1017, 1017, 1, (-7)); (1018, 1018, 1, 1); (1021, 1023, 1, (-130)); (1024, 1039, 1, 80);
   (1040, 1071, 1, 32); (1120, 1152, 2, 1); (1162, 1214, 2, 1); (1216, 1216, 1, 15);
   (1217, 1229, 2, 1); (1232, 1326, 2, 1); (1329, 1366, 1, 48); (4256, 4293, 1, 7264);
   (4295, 4295, 1, 7264); (4301, 4301, 1, 7264); (5024, 5103, 1, 38864); (5104, 5109, 1, 8);
   (7312, 7354, 1, (-3008)); (7357, 7359, 1, (-3008)); (7680, 7828, 2, 1);
   (7838, 7838, 1, (-7615)); (7840, 7934, 2, 1); (7944, 7951, 1, (-8));
   (7960, 7965, 1, (-8)); (7976, 7983, 1, (-8)); (7992, 7999, 1, (-8));
   (8008, 8013, 1, (-8)); (8025, 8031, 2, (-8)); (8040, 8047, 1, (-8));
   (8072, 8079, 1, (-8)); (8088, 8095, 1, (-8)); (8104, 8111, 1, (-8));
   (8120, 8121, 1, (-8)); (8122, 8123, 1, (-74)); (8124, 8124, 1, (-9));
   (8136, 8139, 1, (-86)); (8140, 8140, 1, (-9)); (8152, 8153, 1, (-8));
   (8154, 8155, 1, (-100)); (8168, 8169, 1, (-8)); (8170, 8171, 1, (-112));
   (8172, 8172, 1, (-7)); (8184, 8185, 1, (-128)); (8186, 8187, 1, (-126));
   (8188, 8188, 1, (-9)); (8486, 8486, 1, (-7517)); (8490, 8490, 1, (-8383));
   (8491, 8491, 1, (-8262)); (8498, 8498, 1, 28); (8544, 8559, 1, 16); (8579, 8579, 1, 1);
   (9398, 9423, 1, 26); (11264, 11311, 1, 48); (11360, 11360, 1, 1);
   (11362, 11362, 1, (-10743)); (11363, 11363, 1, (-3814)); (11364, 11364, 1, (-10727));
   (11367, 11371, 2, 1); (11373, 11373, 1, (-10780)); (11374, 11374, 1, (-10749));
   (11375, 11375, 1, (-10783)); (11376, 11376, 1, (-10782)); (11378, 11378, 1, 1);
   (11381, 11381, 1, 1); (11390, 11391, 1, (-10815)); (11392, 11490, 2, 1);
   (11499, 11501, 2, 1); (11506, 11506, 1, 1); (42560, 42604, 2, 1); (42624, 42650, 2, 1);
   (42786, 42798, 2, 1); (42802, 42862, 2, 1); (42873, 42875, 2, 1);
   (42877, 42877, 1, (-35332)); (42878, 42886, 2, 1); (42891, 42891, 1, 1);
   (42893, 42893, 1, (-42280)); (42896, 42898, 2, 1); (42902, 42920, 2, 1);
   (42922, 42922, 1, (-42308)); (42923, 42923, 1, (-42319)); (42924, 42924, 1, (-42315));
   (42925, 42925, 1, (-42305)); (42926, 42926, 1, (-42308)); (42928, 42928, 1, (-42258));
   (42929, 42929, 1, (-42282)); (42930, 42930, 1, (-42261)); (42931, 42931, 1, 928);
   (42932, 42946, 2, 1); (42948, 42948, 1, (-48)); (42949, 42949, 1, (-42307));
   (42950, 42950, 1, (-35384)); (42951, 42953, 2, 1); (42960, 42960, 1, 1);
   (42966, 42968, 2, 1); (42997, 42997, 1, 1); (65313, 65338, 1, 32); (66560, 66599, 1, 40);
   (66736, 66771, 1, 40); (66928, 66938, 1, 39); (66940, 66954, 1, 39);
   (66956, 66962, 1, 39); (66964, 66965, 1, 39); (68736, 68786, 1, 64);
   (71840, 71871, 1, 32); (93760, 93791, 1, 32); (125184, 125217, 1, 34)].

Definition case_ignorable_table : list (Z * Z) :=
  [(39, 39); (46, 46); (58, 58); (94, 94); (96, 96); (168, 168); (173, 173); (175, 175);
   (180, 180); (183, 184); (688, 879); (884, 885); (890, 890); (900, 901); (903, 903);
   (1155, 1161); (1369, 1369); (1375, 1375); (1425, 1469); (1471, 1471); (1473, 1474);
   (1476, 1477); (1479, 1479); (1524, 1524); (1536, 1541); (1552, 1562); (1564, 1564);
   (1600, 1600); (1611, 1631); (1648, 1648); (1750, 1757); (1759, 1768); (1770, 1773);
   (1807, 1807); (1809, 1809); (1840, 1866); (1958, 1968); (2027, 2037); (2042, 2042);
   (2045, 2045); (2070, 2093); (2137, 2139); (2184, 2184); (2192, 2193); (2200, 2207);
   (2249, 2306); (2362, 2362); (2364, 2364); (2369, 2376); (2381, 2381); (2385, 2391);
   (2402, 2403); (2417, 2417); (2433, 2433); (2492, 2492); (2497, 2500); (2509, 2509);
   (2530, 2531); (2558, 2558); (2561, 2562); (2620, 2620); (2625, 2626); (2631, 2632);
   (2635, 2637); (2641, 2641); (2672, 2673); (2677, 2677); (2689, 2690); (2748, 2748);
   (2753, 2757); (2759, 2760); (2765, 2765); (2786, 2787); (2810, 2815); (2817, 2817);
   (2876, 2876); (2879, 2879); (2881, 2884); (2893, 2893); (2901, 2902); (2914, 2915);
   (2946, 2946); (3008, 3008); (3021, 3021); (3072, 3072); (3076, 3076); (3132, 3132);
   (3134, 3136); (3142, 3144); (3146, 3149); (3157, 3158); (3170, 3171); (3201, 3201);
   (3260, 3260); (3263, 3263); (3270, 3270); (3276, 3277); (3298, 3299); (3328, 3329);
   (3387, 3388); (3393, 3396); (3405, 3405); (3426, 3427); (3457, 3457); (3530, 3530);
   (3538, 3540); (3542, 3542); (3633, 3633); (3636, 3642); (3654, 3662); (3761, 3761);
   (3764, 3772); (3782, 3782); (3784, 3789); (3864, 3865); (3893, 3893); (3895, 3895);
   (3897, 3897); (3953, 3966); (3968, 3972); (3974, 3975); (3981, 3991); (3993, 4028);
   (4038, 4038); (4141, 4144); (4146, 4151); (4153, 4154); (4157, 4158); (4184, 4185);
   (4190, 4192); (4209, 4212); (4226, 4226); (4229, 4230); (4237, 4237); (4253, 4253);
   (4348, 4348); (4957, 4959); (5906, 5908); (5938, 5939); (5970, 5971); (6002, 6003);
   (6068, 6069); (6071, 6077); (6086, 6086); (6089, 6099); (6103, 6103); (6109, 6109);
   (6155, 6159); (6211, 6211); (6277, 6278); (6313, 6313); (6432, 6434); (6439, 6440);
   (6450, 6450); (6457, 6459); (6679, 6680); (6683, 6683); (6742, 6742); (6744, 6750);
   (6752, 6752); (6754, 6754); (6757, 6764); (6771, 6780); (6783, 6783); (6823, 6823);
   (6832, 6862); (6912, 6915); (6964, 6964); (6966, 6970); (6972, 6972); (6978, 6978);
   (7019, 7027); (7040, 7041); (7074, 7077); (7080, 7081); (7083, 7085); (7142, 7142);
   (7144, 7145); (7149, 7149); (7151, 7153); (7212, 7219); (7222, 7223); (7288, 7293);
   (7376, 7378); (7380, 7392); (7394, 7400); (7405, 7405); (7412, 7412); (7416, 7417);
   (7468, 7530); (7544, 7544); (7579, 7679); (8125, 8125); (8127, 8129); (8141, 8143);
   (8157, 8159); (8173, 8175); (8189, 8190); (8203, 8207); (8216, 8217); (8228, 8228);
   (8231, 8231); (8234, 8238); (8288, 8292); (8294, 8303); (8305, 8305); (8319, 8319);
   (8336, 8348); (8400, 8432); (11388, 11389); (11503, 11505); (11631, 11631);
   (11647, 11647); (11744, 11775); (11823, 11823); (12293, 12293); (12330, 12333);
   (12337, 12341); (12347, 12347); (12441, 12446); (12540, 12542); (40981, 40981);
   (42232, 42237); (42508, 42508); (42607, 42610); (42612, 42621); (42623, 42623);
   (42652, 42655); (42736, 42737); (42752, 42785); (42864, 42864); (42888, 42890);
   (42994, 42996); (43000, 43001); (43010, 43010); (43014, 43014); (43019, 43019);
   (43045, 43046); (43052, 43052); (43204, 43205); (43232, 43249); (43263, 43263);
   (43302, 43309); (43335, 43345); (43392, 43394); (43443, 43443); (43446, 43449);
   (43452, 43453); (43471, 43471); (43493, 43494); (43561, 43566); (43569, 43570);
   (43573, 43574); (43587, 43587); (43596, 43596); (43632, 43632); (43644, 43644);
   (43696, 43696); (43698, 43700); (43703, 43704); (43710, 43711); (43713, 43713);
   (43741, 43741); (43756, 43757); (43763, 43764); (43766, 43766); (43867, 43871);
   (43881, 43883); (44005, 44005); (44008, 44008); (44013, 44013); (64286, 64286);
   (64434, 64450); (65024, 65039); (65043, 65043); (65056, 65071); (65106, 65106);
   (65109, 65109); (65279, 65279); (65287, 65287); (65294, 65294); (65306, 65306);
   (65342, 65342); (65344, 65344); (65392, 65392); (65438, 65439); (65507, 65507);
   (65529, 65531); (66045, 66045); (66272, 66272); (66422, 66426); (67456, 67461);
   (67463, 67504); (67506, 67514); (68097, 68099); (68101, 68102); (68108, 68111);
   (68152, 68154); (68159, 68159); (68325, 68326); (68900, 68903); (69291, 69292);
   (69446, 69456); (69506, 69509); (69633, 69633); (69688, 69702); (69744, 69744);
   (69747, 69748); (69759, 69761); (69811, 69814); (69817, 69818); (69821, 69821);
   (69826, 69826); (69837, 69837); (69888, 69890); (69927, 69931); (69933, 69940);
   (70003, 70003); (70016, 70017); (70070, 70078); (70089, 70092); (70095, 70095);
   (70191, 70193); (70196, 70196); (70198, 70199); (70206, 70206); (70367, 70367);
   (70371, 70378); (70400, 70401); (70459, 70460); (70464, 70464); (70502, 70508);
   (70512, 70516); (70712, 70719); (70722, 70724); (70726, 70726); (70750, 70750);
   (70835, 70840); (70842, 70842); (70847, 70848); (70850, 70851); (71090, 71093);
   (71100, 71101); (71103, 71104); (71132, 71133); (71219, 71226); (71229, 71229);
   (71231, 71232); (71339, 71339); (71341, 71341); (71344, 71349); (71351, 71351);
   (71453, 71455); (71458, 71461); (71463, 71467); (71727, 71735); (71737, 71738);
   (71995, 71996); (71998, 71998); (72003, 72003); (72148, 72151); (72154, 72155);
   (72160, 72160); (72193, 72202); (72243, 72248); (72251, 72254); (72263, 72263);
   (72273, 72278); (72281, 72283); (72330, 72342); (72344, 72345); (72752, 72758);
   (72760, 72765); (72767, 72767); (72850, 72871); (72874, 72880); (72882, 72883);
   (72885, 72886); (73009, 73014); (73018, 73018); (73020, 73021); (73023, 73029);
   (73031, 73031); (73104, 73105); (73109, 73109); (73111, 73111); (73459, 73460);
   (78896, 78904); (92912, 92916); (92976, 92982); (92992, 92995); (94031, 94031);
   (94095, 94111); (94176, 94177); (94179, 94180); (110576, 110579); (110581, 110587);
   (110589, 110590); (113821, 113822); (113824, 113827); (118528, 118573); (118576, 118598);
   (119143, 119145); (119155, 119170); (119173, 119179); (119210, 119213); (119362, 119364);
   (121344, 121398); (121403, 121452); (121461, 121461); (121476, 121476); (121499, 121503);
   (121505, 121519); (122880, 122886); (122888, 122904); (122907, 122913); (122915, 122916);
   (122918, 122922); (123184, 123197); (123566, 123566); (123628, 123631); (125136, 125142);
   (125252, 125259); (127995, 127999); (917505, 917505); (917536, 917631);
   (917760, 917999)].

Definition cased_table : list (Z * Z) :=
  [(65, 90); (97, 122); (170, 170); (181, 181); (186, 186); (192, 214); (216, 246);
   (248, 442); (444, 447); (452, 659); (661, 696); (704, 705); (736, 740); (837, 837);
   (880, 883); (886, 887); (890, 893); (895, 895); (902, 902); (904, 906); (908, 908);
   (910, 929); (931, 1013); (1015, 1153); (1162, 1327); (1329, 1366); (1376, 1416);
   (4256, 4293); (4295, 4295); (4301, 4301); (4304, 4346); (4349, 4351); (5024, 5109);
   (5112, 5117); (7296, 7304); (7312, 7354); (7357, 7359); (7424, 7615); (7680, 7957);
   (7960, 7965); (7968, 8005); (8008, 8013); (8016, 8023); (8025, 8025); (8027, 8027);
   (8029, 8029); (8031, 8061); (8064, 8116); (8118, 8124); (8126, 8126); (8130, 8132);
   (8134, 8140); (8144, 8147); (8150, 8155); (8160, 8172); (8178, 8180); (8182, 8188);
   (8305, 8305); (8319, 8319); (8336, 8348); (8450, 8450); (8455, 8455); (8458, 8467);
   (8469, 8469); (8473, 8477); (8484, 8484); (8486, 8486); (8488, 8488); (8490, 8493);
   (8495, 8500); (8505, 8505); (8508, 8511); (8517, 8521); (8526, 8526); (8544, 8575);
   (8579, 8580); (9398, 9449); (11264, 11492); (11499, 11502); (11506, 11507);
   (11520, 11557); (11559, 11559); (11565, 11565); (42560, 42605); (42624, 42653);
   (42786, 42887); (42891, 42894); (42896, 42954); (42960, 42961); (42963, 42963);
   (42965, 42969); (42997, 42998); (43000, 43002); (43824, 43866); (43868, 43880);
   (43888, 43967); (64256, 64262); (64275, 64279); (65313, 65338); (65345, 65370);
   (66560, 66639); (66736, 66771); (66776, 66811); (66928, 66938); (66940, 66954);
   (66956, 66962); (66964, 66965); (66967, 66977); (66979, 66993); (66995, 67001);
   (67003, 67004); (67456, 67456); (67459, 67461); (67463, 67504); (67506, 67514);
   (68736, 68786); (68800, 68850); (71840, 71903); (93760, 93823); (119808, 119892);
   (119894, 119964); (119966, 119967); (119970, 119970); (119973, 119974); (119977, 119980);
   (119982, 119993); (119995, 119995); (119997, 120003); (120005, 120069); (120071, 120074);
   (120077, 120084); (120086, 120092); (120094, 120121); (120123, 120126); (120128, 120132);
   (120134, 120134); (120138, 120144); (120146, 120485); (120488, 120512); (120514, 120538);
   (120540, 120570); (120572, 120596); (120598, 120628); (120630, 120654); (120656, 120686);
   (120688, 120712); (120714, 120744); (120746, 120770); (120772, 120779); (122624, 122633);
   (122635, 122654); (125184, 125251); (127280, 127305); (127312, 127337);
   (127344, 127369)].

Definition in_table (c : Z) (table : list (Z * Z)) : bool :=
  existsb (fun '(first, last) => (first <=? c) && (c <=? last)) table.

(** [_PyUnicode_ToLowerFull]: U+0130 is the one code point whose
    lower-case form is two code points long. *)
Definition to_lower_full (c : Z) : list Z :=
  if c <? 128 then [if (65 <=? c) && (c <=? 90) then c + 32 else c]
  else if c =? 304 then [105; 775]
  else
    match List.find (fun '(first, last, step, _) =>
                       (first <=? c) && (c <=? last) && ((c - first) mod step =? 0))
                    lower_table with
    | Some (_, _, _, shift) => [c + shift]
    | None => [c]
    end.

(** What the bytes of a text decode to: a code point, or a byte that
    belongs to no well-formed sequence (the encoding of a [str] has
    none) and is carried along as it is. *)
Inductive item := Point (c : Z) | Stray (b : ascii).

Definition byte (b : ascii) : Z := Z.of_N (N_of_ascii b).

Definition chr (n : Z) : ascii := ascii_of_N (Z.to_N n).

Definition is_continuation (n : Z) : bool := (128 <=? n) && (n <? 192).

(** The number of continuation bytes a lead byte announces; zero for a
    byte that leads no sequence. *)
Definition announced (n : Z) : nat :=
  if (194 <=? n) && (n <? 224) then 1
  else if (224 <=? n) && (n <? 240) then 2
  else if (240 <=? n) && (n <? 245) then 3
  else 0.

(** The code point of a complete sequence; [None] for an overlong form,
    a surrogate or a value beyond U+10FFFF. *)
Definition sequence_value (bytes : list Z) : option Z :=
  match bytes with
  | [a; b] => Some ((a - 192) * 64 + (b - 128))
  | [a; b; c] =>
      let v := (a - 224) * 4096 + (b - 128) * 64 + (c - 128) in
      if (2048 <=? v) && negb ((55296 <=? v) && (v <=? 57343)) then Some v else None
  | [a; b; c; d] =>
      let v := (a - 240) * 262144 + (b - 128) * 4096 + (c - 128) * 64 + (d - 128) in
      if (65536 <=? v) && (v <=? 1114111) then Some v else None
  | _ => None
  end.

(** The decoder, [pending] being the bytes read of a sequence that is
    not yet complete, the lead byte first. *)
Fixpoint decode_with (pending : list ascii) (s : string) : list item :=
  match s with
  | EmptyString => Stray <$> pending
  | String b rest =>
      match pending with
      | lead :: _ =>
          if is_continuation (byte b) then
            let sequence := pending ++ [b] in
            if (length sequence =? S (announced (byte lead)))%nat then
              match sequence_value (byte <$> sequence) with
              | Some c => Point c :: decode_with [] rest
              | None => (Stray <$> sequence) ++ decode_with [] rest
              end
            else decode_with sequence rest
          else
            (Stray <$> pending) ++
            (if byte b <? 128 then Point (byte b) :: decode_with [] rest
             else match announced (byte b) with
                  | O => Stray b :: decode_with [] rest
                  | S _ => decode_with [b] rest
                  end)
      | [] =>
          if byte b <? 128 then Point (byte b) :: decode_with [] rest
          else match announced (byte b) with
               | O => Stray b :: decode_with [] rest
               | S _ => decode_with [b] rest
               end
      end
  end.

Definition decode (s : string) : list item := decode_with [] s.

Definition encode_point (c : Z) : list ascii :=
  if c <? 128 then [chr c]
  else if c <? 2048 then [chr (192 + c / 64); chr (128 + c mod 64)]
  else if c <? 65536 then
    [chr (224 + c / 4096); chr (128 + (c / 64) mod 64); chr (128 + c mod 64)]
  else
    [chr (240 + c / 262144); chr (128 + (c / 4096) mod 64);
     chr (128 + (c / 64) mod 64); chr (128 + c mod 64)].

Definition encode_item (i : item) : list ascii :=
  match i with Point c => encode_point c | Stray b => [b] end.

Fixpoint encode (l : list item) : string :=
  match l with
  | [] => EmptyString
  | i :: l' => string_of_list_ascii (encode_item i) +:+ encode l'
  end.

Definition case_ignorable (i : item) : bool :=
  match i with Point c => in_table c case_ignorable_table | Stray _ => false end.

Definition cased (i : item) : bool :=
  match i with Point c => in_table c cased_table | Stray _ => false end.

Fixpoint skip_ignorable (l : list item) : list item :=
  match l with
  | [] => []
  | i :: l' => if case_ignorable i then skip_ignorable l' else l
  end.

(** [handle_capital_sigma]: a capital sigma is final when a cased letter
    comes before it and none after it, the case-ignorable code points in
    between not counting.  [before] holds what comes before, the nearest
    first. *)
Definition final_sigma (before after : list item) : bool :=
  match skip_ignorable before with
  | [] => false
  | i :: _ =>
      cased i &&
      match skip_ignorable after with
      | [] => true
      | j :: _ => negb (cased j)
      end
  end.

(** [lower_ucs4] *)
Definition lower_item (before : list item) (i : item) (after : list item) : list item :=
  match i with
  | Point c =>
      if c =? 931 then [Point (if final_sigma before after then 962 else 963)]
      else Point <$> to_lower_full c
  | Stray b => [Stray b]
  end.

Fixpoint lower_items (before l : list item) : list item :=
  match l with
  | [] => []
  | i :: after => lower_item before i after ++ lower_items (i :: before) after
  end.

(** [str.lower()] *)
Definition lower (s : string) : string := encode (lower_items [] (decode s)).




(** [needle in hay] *)
Fixpoint contains (needle hay : string) : bool :=
  String.prefix needle hay ||
  match hay with
  | EmptyString => false
  | String _ hay' => contains needle hay'
  end.

(** The float literal 0.1, exactly. *)
Definition tenth_second : Q := 3602879701896397 # 36028797018963968.

(** [str(x)] inside an f-string, for an optional text. *)
Definition show_optional (o : option string) : string :=
  match o with Some s => s | None => "None" end.

(** ** What lies outside the scheduler

    One call of a wrapped strategy's [download]: what it does to the task
    it was handed, and the result it returns or the text of the exception
    it raises. *)
Record download_event := Download {
  mutate : DownloadTask -> DownloadTask;
  outcome : DownloadResult + string
}.

(** The script of the environment: clock readings, the durations slept so
    far, the ids [uuid.uuid4()] will hand out, the values
    [random.uniform] will draw and what the coming downloads do, each in
    the order of use. *)
Record env := Env {
  clock : list Q;
  slept : list Q;
  uuids : list string;
  draws : list Q;
  downloads : list download_event
}.

Definition time_time (e : env) : option (Q * env) :=
  match clock e with
  | [] => None
  | t :: rest => Some (t, Env rest (slept e) (uuids e) (draws e) (downloads e))
  end.

Definition sleep (d : Q) (e : env) : env :=
  Env (clock e) (slept e ++ [d]) (uuids e) (draws e) (downloads e).

Definition uuid4 (e : env) : option (string * env) :=
  match uuids e with
  | [] => None
  | u :: rest => Some (u, Env (clock e) (slept e) rest (draws e) (downloads e))
  end.

Definition random_draw (e : env) : option (Q * env) :=
  match draws e with
  | [] => None
  | u :: rest => Some (u, Env (clock e) (slept e) (uuids e) rest (downloads e))
  end.

Definition next_download (e : env) : option (download_event * env) :=
  match downloads e with
  | [] => None
  | d :: rest => Some (d, Env (clock e) (slept e) (uuids e) (draws e) rest)
  end.

End Base.

(** * The retry decorator ([strategies/retry_strategy.py]) *)

Module Retry.
Import Base.

Record RetryStats := MkRetryStats {
  total_retries : Z;
  successful_retries : Z;
  failed_retries : Z
}.

(** The wrapped strategy is the environment's script of downloads. *)
Record RetryStrategy := MkRetry {
  retry_max_retries : Z;
  retry_delays : list Q;
  exponential_backoff : bool;
  retry_stats : RetryStats
}.

(** [RetryStrategy(strategy)] with the defaults of [__init__]. *)
Definition default_retry : RetryStrategy :=
  MkRetry 3 [1; 2; 5; 10; 30]%Q true (MkRetryStats 0 0 0).

Definition set_retry_stats (st : RetryStats) (r : RetryStrategy) : RetryStrategy :=
  MkRetry (retry_max_retries r) (retry_delays r) (exponential_backoff r) st.

Definition retryable_errors : list string :=
  ["timeout"; "connection"; "network"; "429"; "503"; "502"; "504";
   "空响应"; "返回空"; "empty response"; "temporary"].

Definition non_retryable_errors : list string :=
  ["404"; "403"; "401"; "invalid"; "not found"; "deleted"; "已删除"; "不存在"].

(** [_should_retry] *)
Definition _should_retry (self : RetryStrategy) (result : DownloadResult) (attempt : Z) : bool :=
  if retry_max_retries self - 1 <=? attempt then false
  else
    match result_error_message result with
    | None => true
    | Some EmptyString => true
    | Some msg =>
        let error_lower := lower msg in
        if existsb (fun error => contains error error_lower) retryable_errors then true
        else if existsb (fun error => contains error error_lower) non_retryable_errors then false
        else true
    end.

(** [_calculate_delay]: the base delay, and on top of it the jitter that
    [random.uniform(0, 0.3 * delay)] draws. *)
Definition base_delay (self : RetryStrategy) (attempt : Z) : Q :=
  if exponential_backoff self then inject_Z (Z.min (2 ^ attempt) 30)
  else if attempt <? Z.of_nat (length (retry_delays self))
       then nth (Z.to_nat attempt) (retry_delays self) 0%Q
       else List.last (retry_delays self) 0%Q.

Definition _calculate_delay (self : RetryStrategy) (attempt : Z) (e : env) : option (Q * env) :=
  '(jitter, e) ← random_draw e;
  Some ((base_delay self attempt + jitter)%Q, e).

(** How the [for attempt in range(self.max_retries)] loop is left. *)
Inductive loop_exit :=
| Returned (r : DownloadResult)
| Fell_through (last_error : option string).

Definition count_retry (self : RetryStrategy) : RetryStrategy :=
  set_retry_stats
    (MkRetryStats (total_retries (retry_stats self) + 1)
                  (successful_retries (retry_stats self))
                  (failed_retries (retry_stats self))) self.

Definition count_recovery (self : RetryStrategy) : RetryStrategy :=
  set_retry_stats
    (MkRetryStats (total_retries (retry_stats self))
                  (successful_retries (retry_stats self) + 1)
                  (failed_retries (retry_stats self))) self.

Definition count_failure (self : RetryStrategy) : RetryStrategy :=
  set_retry_stats
    (MkRetryStats (total_retries (retry_stats self))
                  (successful_retries (retry_stats self))
                  (failed_retries (retry_stats self) + 1)) self.

(** The loop of [download], [left] turns to go, the next one numbered
    [attempt]. *)
Fixpoint attempts (left : nat) (attempt : Z) (last_error : option string)
    (self : RetryStrategy) (task : DownloadTask) (e : env)
    : option (loop_exit * RetryStrategy * DownloadTask * env) :=
  match left with
  | O => Some (Fell_through last_error, self, task, e)
  | S left' =>
      let task := if 0 <? attempt then set_status RETRYING task else task in
      '(call, e) ← next_download e;
      let task := mutate call task in
      match outcome call with
      | inl result =>
          if success result then
            Some (Returned result,
                  (if 0 <? attempt then count_recovery self else self), task, e)
          else if negb (_should_retry self result attempt) then
            Some (Returned result, self, task, e)
          else
            '(delay, e) ← _calculate_delay self attempt e;
            let e := sleep delay e in
            let task := set_retry_count (retry_count task + 1) task in
            attempts left' (attempt + 1) (result_error_message result)
                     (count_retry self) task e
      | inr raised =>
          if attempt <? retry_max_retries self - 1 then
            '(delay, e) ← _calculate_delay self attempt e;
            let e := sleep delay e in
            let task := set_retry_count (retry_count task + 1) task in
            attempts left' (attempt + 1) (Some raised) (count_retry self) task e
          else
            Some (Fell_through (Some raised), count_failure self, task, e)
      end
  end.

(** [download]: the strategy and the task as the call leaves them, the
    result, and the rest of the script. *)
Definition download (self : RetryStrategy) (task : DownloadTask) (e : env)
    : option (DownloadResult * RetryStrategy * DownloadTask * env) :=
  '(exit, self, task, e) ← attempts (Z.to_nat (retry_max_retries self)) 0 None self task e;
  match exit with
  | Returned result => Some (result, self, task, e)
  | Fell_through last_error =>
      let task := set_status FAILED task in
      let self := count_failure self in
      Some (failure (task_id task)
              ("重试 " +:+ pretty (retry_max_retries self) +:+ " 次后仍然失败: "
                 +:+ show_optional last_error)
              (retry_count task),
            self, task, e)
  end.

(** ** Scenarios *)

Definition sample_task : DownloadTask :=
  Task "unit-1" "https://www.douyin.com/video/1" VIDEO 0 0 3 PENDING ∅ 100 100 None.






(** A message whose last letter is the Kelvin sign U+212A. *)
Definition kelvin_message : string := "404 networK".

(** ** The rest of the class *)

(** [reset_stats] *)
Definition reset_stats (self : RetryStrategy) : RetryStrategy :=
  set_retry_stats (MkRetryStats 0 0 0) self.

(** A download that leaves the retry counter of the task alone, as those
    of [EnhancedAPIStrategy] do. *)
Definition keeps_retry_count (d : download_event) : Prop :=
  forall t, retry_count (mutate d t) = retry_count t.

(** An attempt that did not end the loop with a success. *)
Definition unsuccessful (d : download_event) : Prop :=
  match outcome d with
  | inl result => success result = false
  | inr _ => True
  end.

(** The text of the failure that [download] makes up after its loop. *)
Definition exhausted_message (self : RetryStrategy) (last_error : option string) : string :=
  "重试 " +:+ pretty (retry_max_retries self) +:+ " 次后仍然失败: "
    +:+ show_optional last_error.

(** What one run of the loop uses up and counts. *)
Definition trace (left : nat) (self : RetryStrategy) (task : DownloadTask) (e : env)
    (self' : RetryStrategy) (task' : DownloadTask) (e' : env) : Prop :=
  exists used delays jitters,
    downloads e = used ++ downloads e' /\
    slept e' = slept e ++ delays /\
    draws e = jitters ++ draws e' /\
    length jitters = length delays /\
    (length used <= left)%nat /\
    (left <> O -> length used = S (length delays)) /\
    total_retries (retry_stats self') =
      total_retries (retry_stats self) + Z.of_nat (length delays) /\
    retry_max_retries self' = retry_max_retries self /\
    retry_delays self' = retry_delays self /\
    exponential_backoff self' = exponential_backoff self /\
    clock e' = clock e /\ uuids e' = uuids e /\
    (Forall keeps_retry_count used ->
       retry_count task' = retry_count task + Z.of_nat (length delays)).

(** How the loop that started at [attempt] was left, told by the last call
    [call] it made after the calls [earlier]. *)
Definition settled (attempt : Z) (self : RetryStrategy) (earlier : list download_event)
    (call : download_event) (exit : loop_exit) (self' : RetryStrategy) : Prop :=
  match outcome call with
  | inl r =>
      exit = Returned r /\
      failed_retries (retry_stats self') = failed_retries (retry_stats self) /\
      successful_retries (retry_stats self') =
        successful_retries (retry_stats self) +
        (if success r && (0 <? attempt + Z.of_nat (length earlier)) then 1 else 0)
  | inr text =>
      exit = Fell_through (Some text) /\
      attempt + Z.of_nat (length earlier) = retry_max_retries self - 1 /\
      failed_retries (retry_stats self') = failed_retries (retry_stats self) + 1 /\
      successful_retries (retry_stats self') = successful_retries (retry_stats self)
  end.

(** ** The decorator [with_retry]

    The decorated coroutine is the script of what its coming calls do:
    return a value or raise an exception, given by its text.  The wrapper
    returns a value ([inl]), raises the last exception ([inr (Some _)]), or
    executes [raise None], a [TypeError] ([inr None]).  [slept] collects
    the durations handed to [asyncio.sleep]. *)
Definition default_delays : list Q := [1; 2; 5; 10; 30]%Q.

(** [delays = retry_delays or [1, 2, 5, 10, 30]] and the delay before the
    retry that follows attempt [attempt]. *)
Definition with_retry_delay (retry_delays : option (list Q)) (exponential_backoff : bool)
    (attempt : Z) : Q :=
  let delays :=
    match retry_delays with
    | None | Some [] => default_delays
    | Some l => l
    end in
  if exponential_backoff then inject_Z (Z.min (2 ^ attempt) 30)
  else if attempt <? Z.of_nat (length delays)
       then nth (Z.to_nat attempt) delays 0%Q
       else List.last delays 0%Q.

(** The [for attempt in range(max_retries)] loop of the wrapper, [left]
    turns to go. *)
Fixpoint with_retry_loop {A} (max_retries : Z) (retry_delays : option (list Q))
    (exponential_backoff : bool) (left : nat) (attempt : Z) (last_exception : option string)
    (script : list (A + string)) (slept : list Q)
    : option ((A + option string) * list (A + string) * list Q) :=
  match left with
  | O => Some (inr last_exception, script, slept)
  | S left' =>
      match script with
      | [] => None
      | inl a :: script => Some (inl a, script, slept)
      | inr e :: script =>
          let slept :=
            if attempt <? max_retries - 1
            then slept ++ [with_retry_delay retry_delays exponential_backoff attempt]
            else slept in
          with_retry_loop max_retries retry_delays exponential_backoff left' (attempt + 1)
                          (Some e) script slept
      end
  end.

(** One call of the decorated function. *)
Definition with_retry {A} (max_retries : Z) (retry_delays : option (list Q))
    (exponential_backoff : bool) (script : list (A + string)) (slept : list Q)
    : option ((A + option string) * list (A + string) * list Q) :=
  with_retry_loop max_retries retry_delays exponential_backoff (Z.to_nat max_retries) 0 None
                  script slept.

(** The delays slept before attempts [1 .. n] of a call that started at
    attempt [from]. *)
Fixpoint delays_from (retry_delays : option (list Q)) (exponential_backoff : bool)
    (from : Z) (n : nat) : list Q :=
  match n with
  | O => []
  | S n' => with_retry_delay retry_delays exponential_backoff from
            :: delays_from retry_delays exponential_backoff (from + 1) n'
  end.

(** ** Further scenarios *)

Definition raises (text : string) : download_event := Download (fun t => t) (inr text).

(** Three downloads that raise, and the draws for two delays. *)
Definition three_raises : env :=
  Env [] [] [] [0; 0]%Q [raises "boom"; raises "boom"; raises "reset by peer"].

End Retry.

(** * The durable queue ([core/queue_manager.py]) *)

Module Queue.
Import Base.

(** One row of the table [tasks], the primary key [task_id] apart: the
    table is the map from that key to the rest of the row. *)
Record row := Row {
  col_url : string;
  col_task_type : string;
  col_priority : Z;
  col_status : string;
  col_retry_count : Z;
  col_max_retries : Z;
  col_metadata : option string;
  col_created_at : Q;
  col_updated_at : Q;
  col_completed_at : option Q;
  col_error_message : option string;
  col_result : option string
}.

Abbreviation table := (gmap string row).

(** [db] is the table as the connection [self.conn] sees it: what the
    file holds and, on top of it, what has been written since the last
    commit that went through.  [committed] is the table in the file, the
    one a later start finds.  [self.queue] is the [asyncio.Queue], head
    first; [max_size] its [maxsize]. *)
Record PersistentQueue := MkQueue {
  db : table;
  committed : table;
  queue : list DownloadTask;
  max_size : Z
}.

(** What the storage does with a statement and the [commit()] after it:
    both go through, the statement raises, or the statement goes through
    and the commit raises, the transaction staying open as it does when
    the database is locked.  The code never rolls back, so a write whose
    commit was refused stays in the open transaction of the connection
    and goes to the file with the next commit that goes through. *)
Inductive storage := Works | Statement_refused | Commit_refused.

(** [asyncio.Queue.full()]: a [maxsize] of zero or less never fills. *)
Definition full (max_size : Z) (queue : list DownloadTask) : bool :=
  (0 <? max_size) && (max_size <=? Z.of_nat (length queue)).

Definition set_status_column (status : string) (now : Q) (r : row) : row :=
  Row (col_url r) (col_task_type r) (col_priority r) status (col_retry_count r)
      (col_max_retries r) (col_metadata r) (col_created_at r) now
      (col_completed_at r) (col_error_message r) (col_result r).

(** [ORDER BY priority DESC, created_at ASC] *)
Definition row_leb (a b : string * row) : bool :=
  (col_priority a.2 >? col_priority b.2) ||
  ((col_priority a.2 =? col_priority b.2) && Qle_bool (col_created_at a.2) (col_created_at b.2)).

Definition row_order (a b : string * row) : Prop := Is_true (row_leb a b).

#[export] Instance row_order_dec : RelDecision row_order := fun a b => Is_true_dec _.

(** [WHERE status IN ('pending', 'retrying')] *)
Definition unfinished (r : string * row) : bool :=
  String.eqb (col_status r.2) (TaskStatus_value PENDING) ||
  String.eqb (col_status r.2) (TaskStatus_value RETRYING).

Section Json.

(** [json.dumps] and [json.loads]; [None] is a text that does not parse. *)
Variable json_dumps : Metadata -> string.
Variable json_loads : string -> option Metadata.

(** [_row_to_task]; [None] when the stored type is no [TaskType].  The
    task's [updated_at] is not read from the row: it is [now], a fresh
    reading of the clock. *)
Definition _row_to_task (now : Q) (r : string * row) : option DownloadTask :=
  let metadata :=
    match col_metadata r.2 with
    | None | Some EmptyString => ∅
    | Some text => default ∅ (json_loads text)
    end in
  match TaskType_of_value (col_task_type r.2) with
  | None => None
  | Some type =>
      Some (Task r.1 (col_url r.2) type (col_priority r.2) (col_retry_count r.2)
                 (col_max_retries r.2) PENDING metadata (col_created_at r.2) now None)
  end.

(** The [UPDATE] that opens [_restore_tasks]. *)
Definition reset_processing (now : Q) (t : table) : table :=
  (fun r => if String.eqb (col_status r) (TaskStatus_value PROCESSING)
            then set_status_column (TaskStatus_value PENDING) now r
            else r) <$> t.

(** Its [SELECT]. *)
Definition select_unfinished (t : table) : list (string * row) :=
  merge_sort row_order (filter (fun r => Is_true (unfinished r)) (map_to_list t)).

(** The [for row in cursor.fetchall()] loop: the channel and the count
    of restored tasks.  [tick k] is the clock reading taken for the
    [k]-th row. *)
Fixpoint load (max_size : Z) (tick : nat -> Q) (k : nat) (rows : list (string * row))
    (queue : list DownloadTask) (restored_count : Z) : list DownloadTask * Z :=
  match rows with
  | [] => (queue, restored_count)
  | r :: rest =>
      match _row_to_task (tick k) r with
      | None => load max_size tick (S k) rest queue restored_count
      | Some task =>
          if full max_size queue then (queue, restored_count)
          else load max_size tick (S k) rest (queue ++ [task]) (restored_count + 1)
      end
  end.

(** [_restore_tasks], [now] being the time written by the [UPDATE]; the
    [commit()] that ends it goes through. *)
Definition _restore_tasks (now : Q) (tick : nat -> Q) (q : PersistentQueue)
    : PersistentQueue * Z :=
  let t := reset_processing now (db q) in
  let '(queue, restored_count) := load (max_size q) tick 0 (select_unfinished t) (queue q) 0 in
  (MkQueue t t queue (max_size q), restored_count).

(** [__init__] on the table found in the file. *)
Definition init (stored : table) (max_size : Z) (now : Q) (tick : nat -> Q)
    : PersistentQueue :=
  (_restore_tasks now tick (MkQueue stored stored [] max_size)).1.

(** The row [add_task] writes: the columns it names, the rest [NULL]. *)
Definition row_of_task (task : DownloadTask) : row :=
  Row (url task) (TaskType_value (task_type task)) (priority task)
      (TaskStatus_value (status task)) (retry_count task) (max_retries task)
      (Some (json_dumps (metadata task))) (created_at task) (updated_at task)
      None None None.

(** How a call of [add_task] stands: it returned [True], it returned
    [False], or it is held in [queue.put] by a full channel. *)
Inductive add_outcome :=
| Add_true (q : PersistentQueue)
| Add_false (q : PersistentQueue)
| Add_waiting (q : PersistentQueue).

(** [add_task]: the [INSERT OR REPLACE], its [commit()], then
    [queue.put]; an exception of the first two is caught and answered
    with [False]. *)
Definition add_task (fault : storage) (task : DownloadTask) (q : PersistentQueue)
    : add_outcome :=
  match fault with
  | Statement_refused => Add_false q
  | Commit_refused =>
      Add_false (MkQueue (<[task_id task := row_of_task task]> (db q)) (committed q)
                         (queue q) (max_size q))
  | Works =>
      let written := <[task_id task := row_of_task task]> (db q) in
      if full (max_size q) (queue q)
      then Add_waiting (MkQueue written written (queue q) (max_size q))
      else Add_true (MkQueue written written (queue q ++ [task]) (max_size q))
  end.

(** [update_task_status]: the columns set, [now] and [done] being the two
    readings of [time.time()]. *)
Definition update_row (status : TaskStatus) (error_message : option string)
    (result : option Metadata) (now done : Q) (r : row) : row :=
  Row (col_url r) (col_task_type r) (col_priority r) (TaskStatus_value status)
      (col_retry_count r) (col_max_retries r) (col_metadata r) (col_created_at r) now
      (match status with COMPLETED => Some done | _ => col_completed_at r end)
      (match error_message with
       | None | Some EmptyString => col_error_message r
       | Some text => Some text
       end)
      (match result with
       | None => col_result r
       | Some d => if decide (d = ∅) then col_result r else Some (json_dumps d)
       end).

(** How [update_task_status] ends: it returns, or the [UPDATE] or its
    [commit()] raises, which nothing in the method catches. *)
Inductive update_outcome :=
| Updated (q : PersistentQueue)
| Update_raised (q : PersistentQueue).

(** [update_task_status].  An [UPDATE] whose [WHERE task_id = ?] finds no
    row changes nothing and raises nothing. *)
Definition update_task_status (fault : storage) (id : string) (status : TaskStatus)
    (error_message : option string) (result : option Metadata) (now done : Q)
    (q : PersistentQueue) : update_outcome :=
  let written := alter (update_row status error_message result now done) id (db q) in
  match fault with
  | Statement_refused => Update_raised q
  | Commit_refused => Update_raised (MkQueue written (committed q) (queue q) (max_size q))
  | Works => Updated (MkQueue written written (queue q) (max_size q))
  end.

(** How [get_task] ends. *)
Inductive get_outcome :=
| Got (task : DownloadTask) (q : PersistentQueue)
| No_task (q : PersistentQueue)
| Get_raised (q : PersistentQueue).

(** [get_task].  On an empty channel the wait times out.  What
    [asyncio.wait_for] does with a timeout of zero or less depends on the
    interpreter: from Python 3.12 on the awaited [get] runs first and
    takes what the channel holds ([prompt]), before that the call gives
    up at once. *)
Definition get_task (prompt : bool) (fault : storage) (timeout now : Q)
    (q : PersistentQueue) : get_outcome :=
  if Qle_bool timeout 0 && negb prompt then No_task q
  else
    match queue q with
    | [] => No_task q
    | task :: rest =>
        let q := MkQueue (db q) (committed q) rest (max_size q) in
        match update_task_status fault (task_id task) PROCESSING None None now now q with
        | Updated q => Got task q
        | Update_raised q => Get_raised q
        end
    end.

(** [requeue_task] *)
Definition requeue_task (fault : storage) (now : Q) (task : DownloadTask)
    (q : PersistentQueue) : DownloadTask * add_outcome :=
  let task := set_updated_at now (set_status RETRYING
                (set_retry_count (retry_count task + 1) task)) in
  (task, add_task fault task q).

(** ** Reading the recovery

    The tasks the rows convert to, in the order of the rows, a row that
    does not convert left out. *)
Fixpoint convert (tick : nat -> Q) (k : nat) (rows : list (string * row)) : list DownloadTask :=
  match rows with
  | [] => []
  | r :: rest =>
      match _row_to_task (tick k) r with
      | Some task => task :: convert tick (S k) rest
      | None => convert tick (S k) rest
      end
  end.

End Json.

(** What fits a channel of capacity [max_size]. *)
Definition within_capacity (max_size : Z) (l : list DownloadTask) : list DownloadTask :=
  if 0 <? max_size then take (Z.to_nat max_size) l else l.

(** How many rows of the table hold the given status. *)
Definition count_status (status : TaskStatus) (t : table) : nat :=
  length (filter (fun r => col_status r.2 = TaskStatus_value status) (map_to_list t)).

(** The rows recovery is about, and what its [UPDATE] makes of a row. *)
Definition recoverable (r : row) : Prop :=
  col_status r = TaskStatus_value PROCESSING \/
  col_status r = TaskStatus_value PENDING \/
  col_status r = TaskStatus_value RETRYING.

Definition reset_row (now : Q) (r : row) : row :=
  if String.eqb (col_status r) (TaskStatus_value PROCESSING)
  then set_status_column (TaskStatus_value PENDING) now r
  else r.

(** What a task restored from a row carries over. *)
Definition restored_from (t : DownloadTask) (r : string * row) : Prop :=
  task_id t = r.1 /\ priority t = col_priority r.2 /\
  created_at t = col_created_at r.2 /\ status t = PENDING /\
  url t = col_url r.2 /\ retry_count t = col_retry_count r.2 /\
  max_retries t = col_max_retries r.2.

(** Every stored type is the value of a [TaskType], as [add_task] writes
    it. *)
Definition well_typed (t : table) : Prop :=
  map_Forall (fun _ r => is_Some (TaskType_of_value (col_task_type r))) t.

(** ** Scenarios *)

(** A stand-in for [json]: every dictionary is written as the empty one. *)
Definition plain_dumps (_ : Metadata) : string := "{}".
Definition plain_loads (_ : string) : option Metadata := Some ∅.

(** A table left by an interrupted run: one row in flight, one waiting. *)
Definition interrupted_store : table :=
  <["a" := Row "https://www.douyin.com/video/1" "video" 0 "processing" 0 3 None 10 11
              None None None]>
  (<["b" := Row "https://www.douyin.com/video/2" "video" 2 "pending" 0 3 None 12 12
               None None None]> ∅).

Definition queue_of (a : add_outcome) : PersistentQueue :=
  match a with Add_true q | Add_false q | Add_waiting q => q end.

Definition routine : DownloadTask :=
  Task "low" "https://www.douyin.com/video/1" VIDEO 0 0 3 PENDING ∅ 1 1 None.

Definition urgent : DownloadTask :=
  Task "high" "https://www.douyin.com/video/2" VIDEO 5 0 3 PENDING ∅ 2 2 None.

(** An empty queue, then [routine] enqueued, then [urgent]. *)
Definition routine_then_urgent : PersistentQueue :=
  queue_of (add_task plain_dumps Works urgent
    (queue_of (add_task plain_dumps Works routine
      (init plain_loads ∅ 10000 0 (fun _ => 0%Q))))).

(** An empty queue on which the commit of [urgent] is refused, and then
    [routine] enqueued with the storage in order. *)
Definition refused_then_routine : PersistentQueue :=
  queue_of (add_task plain_dumps Works routine
    (queue_of (add_task plain_dumps Commit_refused urgent
      (init plain_loads ∅ 10000 0 (fun _ => 0%Q))))).

(** ** Housekeeping *)

(** [WHERE status IN ('completed', 'failed') AND updated_at < cutoff] *)
Definition old_and_done (cutoff : Q) (r : row) : bool :=
  (String.eqb (col_status r) (TaskStatus_value COMPLETED) ||
   String.eqb (col_status r) (TaskStatus_value FAILED)) &&
  Qltb (col_updated_at r) cutoff.

(** [cleanup_old_tasks], [now] being what [time.time()] gives; the
    [DELETE] and its [commit()] go through. *)
Definition cleanup_old_tasks (now : Q) (days : Z) (q : PersistentQueue) : PersistentQueue :=
  let cutoff := (now - inject_Z (days * 86400))%Q in
  let kept := filter (fun kr => Is_true (negb (old_and_done cutoff kr.2))) (db q) in
  MkQueue kept kept (queue q) (max_size q).

(** ** Sequences of calls *)

Section Calls.
Variable json_dumps : Metadata -> string.

(** [add_task] for each task of a list in turn, the storage in order. *)
Definition add_tasks (tasks : list DownloadTask) (q : PersistentQueue) : PersistentQueue :=
  fold_left (fun q task => queue_of (add_task json_dumps Works task q)) tasks q.

(** Calls of [get_task] one after the other, until one hands out no
    task or [n] of them have: the tasks handed out and the queue left. *)
Fixpoint get_tasks (n : nat) (prompt : bool) (timeout now : Q) (q : PersistentQueue)
    : list DownloadTask * PersistentQueue :=
  match n with
  | O => ([], q)
  | S n' =>
      match get_task json_dumps prompt Works timeout now q with
      | Got task q' =>
          let '(tasks, q'') := get_tasks n' prompt timeout now q' in (task :: tasks, q'')
      | No_task q' | Get_raised q' => ([], q')
      end
  end.

End Calls.

(** A task that is not over: waiting, in flight or up for a retry. *)
Definition open_status (s : TaskStatus) : bool :=
  match s with PENDING | PROCESSING | RETRYING => true | COMPLETED | FAILED => false end.

(** ** Further scenarios *)

(** A unit still in the channel whose row, marked failed long ago, the
    cleanup of second 1000000 has deleted. *)
Definition swept_unit : PersistentQueue :=
  cleanup_old_tasks 1000000 7
    (match update_task_status plain_dumps Works "low" FAILED (Some "HTTP 404") None 5 5
             (queue_of (add_task plain_dumps Works routine
                (init plain_loads ∅ 10000 0 (fun _ => 0%Q)))) with
     | Updated q | Update_raised q => q
     end).

(** A table with a finished row of long ago, one of today, and one
    waiting. *)
Definition mixed_store : table :=
  <["old" := Row "https://www.douyin.com/video/1" "video" 0 "completed" 0 3 None 10 20
                 (Some 20%Q) None None]>
  (<["new" := Row "https://www.douyin.com/video/2" "video" 0 "failed" 3 3 None 900000 900010
                  None (Some "HTTP 404") None]>
   (<["b" := Row "https://www.douyin.com/video/3" "video" 2 "pending" 0 3 None 12 12
                 None None None]> ∅)).

End Queue.

(** * The orchestrator ([core/orchestrator.py]) *)

Module Orchestrator.
Import Base.

Record OrchestratorConfig := MkConfig {
  max_concurrent : Z;
  enable_retry : bool;
  enable_rate_limit : bool;
  rate_limit_config : RateLimiter.RateLimitConfig;
  priority_queue : bool;
  save_progress : bool
}.

Definition default_config : OrchestratorConfig :=
  MkConfig 5 true true RateLimiter.default_config true true.

(** A member of the strategy chain: a strategy whose downloads the
    environment plays, bare or wrapped in a [RetryStrategy]. *)
Record strategy := Strategy {
  inner_name : string;
  get_priority : Z;
  can_handle : DownloadTask -> bool;
  wrapper : option Retry.RetryStrategy
}.

Definition name (s : strategy) : string :=
  match wrapper s with
  | Some _ => "Retry(" +:+ inner_name s +:+ ")"
  | None => inner_name s
  end.

(** [EnhancedAPIStrategy]: priority 100, handles every task. *)
Definition api_strategy : strategy :=
  Strategy "Enhanced API Strategy" 100 (fun _ => true) None.

Record Stats := MkStats {
  total_tasks : Z;
  completed_count : Z;
  failed_count : Z;
  retried_count : Z
}.

Record DownloadOrchestrator := Orch {
  config : OrchestratorConfig;
  strategies : list strategy;
  rate_limiter : option RateLimiter.AdaptiveRateLimiter;
  pending_queue : list DownloadTask;
  priority_tasks : list DownloadTask;
  active_tasks : gmap string DownloadTask;
  completed_tasks : list DownloadTask;
  failed_tasks : list DownloadTask;
  stats : Stats
}.

(** [list.sort(key=key, reverse=True)]: descending, and stable: of two
    entries with the same key the one that stood first stays first. *)
Fixpoint insert_desc {A} (key : A -> Z) (x : A) (l : list A) : list A :=
  match l with
  | [] => [x]
  | y :: l' => if key x <? key y then y :: insert_desc key x l' else x :: l
  end.

Definition sort_desc {A} (key : A -> Z) (l : list A) : list A :=
  fold_right (insert_desc key) [] l.

(** [register_strategy] *)
Definition register_strategy (s : strategy) (o : DownloadOrchestrator) : DownloadOrchestrator :=
  Orch (config o) (sort_desc get_priority (strategies o ++ [s])) (rate_limiter o)
       (pending_queue o) (priority_tasks o) (active_tasks o) (completed_tasks o)
       (failed_tasks o) (stats o).

(** [__init__] with [_init_default_strategies]. *)
Definition init (cfg : OrchestratorConfig) : DownloadOrchestrator :=
  register_strategy
    (if enable_retry cfg
     then Strategy (inner_name api_strategy) (get_priority api_strategy)
                   (can_handle api_strategy) (Some Retry.default_retry)
     else api_strategy)
    (Orch cfg []
          (if enable_rate_limit cfg then Some (RateLimiter.init (rate_limit_config cfg)) else None)
          [] [] ∅ [] [] (MkStats 0 0 0 0)).

(** [_detect_task_type] *)
Definition _detect_task_type (url : string) : TaskType :=
  let url_lower := lower url in
  if contains "/user/" url_lower then USER
  else if contains "/video/" url_lower || contains "/note/" url_lower then VIDEO
  else if contains "/music/" url_lower then MUSIC
  else if contains "/mix/" url_lower || contains "/collection/" url_lower then MIX
  else if contains "live.douyin.com" url_lower then LIVE
  else VIDEO.

Definition set_queues (pending priority : list DownloadTask) (o : DownloadOrchestrator) :=
  Orch (config o) (strategies o) (rate_limiter o) pending priority (active_tasks o)
       (completed_tasks o) (failed_tasks o) (stats o).

Definition count_task (o : DownloadOrchestrator) :=
  Orch (config o) (strategies o) (rate_limiter o) (pending_queue o) (priority_tasks o)
       (active_tasks o) (completed_tasks o) (failed_tasks o)
       (MkStats (total_tasks (stats o) + 1) (completed_count (stats o))
                (failed_count (stats o)) (retried_count (stats o))).

(** [add_task]: the id handed back and the orchestrator after it. *)
Definition add_task (url : string) (type : option TaskType) (prio : Z)
    (o : DownloadOrchestrator) (e : env) : option (string * DownloadOrchestrator * env) :=
  let type := match type with Some t => t | None => _detect_task_type url end in
  '(id, e) ← uuid4 e;
  '(created, e) ← time_time e;
  '(updated, e) ← time_time e;
  let task := Task id url type prio 0 3 PENDING ∅ created updated None in
  let o :=
    if priority_queue (config o) && (0 <? prio)
    then set_queues (pending_queue o) (sort_desc priority (priority_tasks o ++ [task])) o
    else set_queues (pending_queue o ++ [task]) (priority_tasks o) o in
  Some (id, count_task o, e).

(** [_get_next_task]; the wait on the empty FIFO channel times out. *)
Definition _get_next_task (o : DownloadOrchestrator)
    : option DownloadTask * DownloadOrchestrator :=
  match priority_tasks o with
  | task :: rest => (Some task, set_queues (pending_queue o) rest o)
  | [] =>
      match pending_queue o with
      | task :: rest => (Some task, set_queues rest [] o)
      | [] => (None, o)
      end
  end.

(** The [for strategy in self.strategies] loop of [_execute_task]: [None]
    for the result when no strategy succeeded. *)
Fixpoint try_strategies (todo : list strategy) (last_error : option string)
    (task : DownloadTask) (e : env)
    : option (option DownloadResult * list strategy * option string * DownloadTask * env) :=
  match todo with
  | [] => Some (None, [], last_error, task, e)
  | s :: rest =>
      if negb (can_handle s task) then
        '(r, rest, last_error, task, e) ← try_strategies rest last_error task e;
        Some (r, s :: rest, last_error, task, e)
      else
        match wrapper s with
        | Some retry =>
            '(result, retry, task, e) ← Retry.download retry task e;
            let s := Strategy (inner_name s) (get_priority s) (can_handle s) (Some retry) in
            if success result then Some (Some result, s :: rest, last_error, task, e)
            else
              '(r, rest, last_error, task, e) ←
                 try_strategies rest (result_error_message result) task e;
              Some (r, s :: rest, last_error, task, e)
        | None =>
            '(call, e) ← next_download e;
            let task := mutate call task in
            match outcome call with
            | inl result =>
                if success result then Some (Some result, s :: rest, last_error, task, e)
                else
                  '(r, rest, last_error, task, e) ←
                     try_strategies rest (result_error_message result) task e;
                  Some (r, s :: rest, last_error, task, e)
            | inr raised =>
                '(r, rest, last_error, task, e) ← try_strategies rest (Some raised) task e;
                Some (r, s :: rest, last_error, task, e)
            end
        end
  end.

(** [_execute_task] *)
Definition _execute_task (task : DownloadTask) (o : DownloadOrchestrator) (e : env)
    : option (DownloadResult * DownloadTask * DownloadOrchestrator * env) :=
  '(r, chain, last_error, task, e) ← try_strategies (strategies o) None task e;
  let o := Orch (config o) chain (rate_limiter o) (pending_queue o) (priority_tasks o)
                (active_tasks o) (completed_tasks o) (failed_tasks o) (stats o) in
  match r with
  | Some result => Some (result, task, o, e)
  | None =>
      Some (failure (task_id task) ("所有策略都失败: " +:+ show_optional last_error)
                    (retry_count task),
            task, o, e)
  end.

Definition set_active (a : gmap string DownloadTask) (o : DownloadOrchestrator) :=
  Orch (config o) (strategies o) (rate_limiter o) (pending_queue o) (priority_tasks o)
       a (completed_tasks o) (failed_tasks o) (stats o).

Definition set_rate_limiter (l : RateLimiter.AdaptiveRateLimiter) (o : DownloadOrchestrator) :=
  Orch (config o) (strategies o) (Some l) (pending_queue o) (priority_tasks o)
       (active_tasks o) (completed_tasks o) (failed_tasks o) (stats o).

(** The branches that follow [result = await self._execute_task(task)]. *)
Definition settle (result : DownloadResult) (task : DownloadTask)
    (o : DownloadOrchestrator) (e : env) : option (DownloadOrchestrator * env) :=
  let o := set_active (delete (task_id task) (active_tasks o)) o in
  if success result then
    Some (Orch (config o) (strategies o) (rate_limiter o) (pending_queue o)
               (priority_tasks o) (active_tasks o) (completed_tasks o ++ [task])
               (failed_tasks o)
               (MkStats (total_tasks (stats o)) (completed_count (stats o) + 1)
                        (failed_count (stats o)) (retried_count (stats o))), e)
  else
    '(now, e) ← time_time e;
    let '(task, again) := increment_retry now task in
    if again then
      Some (Orch (config o) (strategies o) (rate_limiter o) (pending_queue o ++ [task])
                 (priority_tasks o) (active_tasks o) (completed_tasks o) (failed_tasks o)
                 (MkStats (total_tasks (stats o)) (completed_count (stats o))
                          (failed_count (stats o)) (retried_count (stats o) + 1)), e)
    else
      Some (Orch (config o) (strategies o) (rate_limiter o) (pending_queue o)
                 (priority_tasks o) (active_tasks o) (completed_tasks o)
                 (failed_tasks o ++ [task])
                 (MkStats (total_tasks (stats o)) (completed_count (stats o))
                          (failed_count (stats o) + 1) (retried_count (stats o))), e).

(** The permit: [await self.rate_limiter.acquire()] on the orchestrator's
    clock.  The inner [None] is an exception out of [acquire]. *)
Definition permit (o : DownloadOrchestrator) (e : env)
    : option (option unit * DownloadOrchestrator * env) :=
  match rate_limiter o with
  | None => Some (Some tt, o, e)
  | Some l =>
      match RateLimiter.acquire (RateLimiter.World l (clock e) (slept e)) with
      | RateLimiter.Ok _ w =>
          Some (Some tt, set_rate_limiter (RateLimiter.lim w) o,
                Env (RateLimiter.clock w) (RateLimiter.slept w) (uuids e) (draws e) (downloads e))
      | RateLimiter.Raised _ w =>
          Some (None, set_rate_limiter (RateLimiter.lim w) o,
                Env (RateLimiter.clock w) (RateLimiter.slept w) (uuids e) (draws e) (downloads e))
      | RateLimiter.Suspended _ => None
      end
  end.

(** One turn of the [while self.running] loop of [_worker]. *)
Definition worker_turn (o : DownloadOrchestrator) (e : env)
    : option (DownloadOrchestrator * env) :=
  match _get_next_task o with
  | (None, o) => Some (o, sleep tenth_second e)
  | (Some task, o) =>
      let o := set_active (<[task_id task := task]> (active_tasks o)) o in
      '(granted, o, e) ← permit o e;
      match granted with
      | None => Some (o, sleep 1 e)
      | Some _ =>
          '(result, task, o, e) ← _execute_task task o e;
          settle result task o e
      end
  end.

(** [get_task_status] *)
Definition get_task_status (id : string) (o : DownloadOrchestrator) : option TaskStatus :=
  match active_tasks o !! id with
  | Some task => Some (status task)
  | None =>
      if existsb (fun task => String.eqb (task_id task) id) (completed_tasks o)
      then Some COMPLETED
      else if existsb (fun task => String.eqb (task_id task) id) (failed_tasks o)
      then Some FAILED
      else if existsb (fun task => String.eqb (task_id task) id) (priority_tasks o)
      then Some PENDING
      else None
  end.

(** ** Runs of the orchestrator

    One step: a submission, a turn of a worker, a bare request for the
    next task, or a reading of the clock by someone else. *)
Inductive step : DownloadOrchestrator * env -> DownloadOrchestrator * env -> Prop :=
| step_submit url type prio o e id o' e' :
    add_task url type prio o e = Some (id, o', e') -> step (o, e) (o', e')
| step_worker o e o' e' :
    worker_turn o e = Some (o', e') -> step (o, e) (o', e')
| step_next o e :
    step (o, e) ((_get_next_task o).2, e)
| step_elapse o e t e' :
    time_time e = Some (t, e') -> step (o, e) (o, e').

(** The clock never runs backwards. *)
Definition monotone (e : env) : Prop := StronglySorted Qle (clock e).

(** Keys from high to low. *)
Definition descending {A} (key : A -> Z) (l : list A) : Prop :=
  StronglySorted (fun a b => key b <= key a) l.

(** The invariant of the priority list along a run: in order, all of
    positive priority, and none created after a reading still to come. *)
Definition lane_ordered (s : DownloadOrchestrator * env) : Prop :=
  StronglySorted task_before (priority_tasks s.1) /\
  Forall (fun t => 0 < priority t) (priority_tasks s.1) /\
  Forall (fun t => Forall (Qle (created_at t)) (clock s.2)) (priority_tasks s.1) /\
  monotone s.2.

(** ** Scenarios *)

Definition fails_with (msg : string) : download_event :=
  Download (fun t => t) (inl (failure "" msg 0)).

(** One unit for the default orchestrator: its first download is answered
    with a 404, the three of its second pass time out. *)
Definition unlucky_unit : env :=
  Env [100; 100; 101; 101; 102; 103; 103; 110]%Q [] ["unit-1"] [0; 0]%Q
      [fails_with "HTTP 404"; fails_with "timeout"; fails_with "timeout";
       fails_with "timeout"].

(** The unit is submitted and a worker takes two turns. *)
Definition two_passes : option (DownloadOrchestrator * env) :=
  '(_, o, e) ← add_task "https://www.douyin.com/video/1" None 0 (init default_config)
                 unlucky_unit;
  '(o, e) ← worker_turn o e;
  worker_turn o e.

(** An environment with a clock, an id and nothing else. *)
Definition quiet : env := Env [100; 100; 101; 102]%Q [] ["unit-1"] [] [].

(** Ids and clock readings for four submissions. *)
Definition four_ids : env :=
  Env [100; 100; 101; 101; 102; 102; 103; 103; 104]%Q []
      ["unit-1"; "unit-2"; "unit-3"; "unit-4"] [] [].

(** Four units submitted to the default orchestrator with priorities 5,
    0, 7 and 5. *)
Definition mixed_submissions : option (DownloadOrchestrator * env) :=
  '(_, o, e) ← add_task "https://www.douyin.com/video/1" None 5 (init default_config)
                 four_ids;
  '(_, o, e) ← add_task "https://www.douyin.com/video/2" None 0 o e;
  '(_, o, e) ← add_task "https://www.douyin.com/video/3" None 7 o e;
  '(_, o, e) ← add_task "https://www.douyin.com/video/4" None 5 o e;
  Some (o, e).

(** ** Batches *)

(** The loop of [add_batch]: [total] is [len(urls)] and [i] the index of
    the first url still to be added. *)
Fixpoint add_batch_from (total : Z) (i : nat) (urls : list string) (type : option TaskType)
    (o : DownloadOrchestrator) (e : env)
    : option (list string * DownloadOrchestrator * env) :=
  match urls with
  | [] => Some ([], o, e)
  | url :: rest =>
      let prio := total - Z.of_nat i in
      '(id, o, e) ← add_task url type prio o e;
      '(ids, o, e) ← add_batch_from total (S i) rest type o e;
      Some (id :: ids, o, e)
  end.

(** [add_batch] *)
Definition add_batch (urls : list string) (type : option TaskType)
    (o : DownloadOrchestrator) (e : env)
    : option (list string * DownloadOrchestrator * env) :=
  add_batch_from (Z.of_nat (length urls)) 0 urls type o e.

(** ** Reading a run *)

(** The counters of finished units are the lengths of the two lists, and
    what waits or is finished is no more than what was submitted. *)
Definition ledger_balanced (o : DownloadOrchestrator) : Prop :=
  completed_count (stats o) = Z.of_nat (length (completed_tasks o)) /\
  failed_count (stats o) = Z.of_nat (length (failed_tasks o)) /\
  Z.of_nat (length (pending_queue o) + length (priority_tasks o) +
            length (completed_tasks o) + length (failed_tasks o)) <= total_tasks (stats o).

(** A download that leaves the retry counter and its ceiling alone, as
    those of [EnhancedAPIStrategy] do. *)
Definition keeps_counters (d : download_event) : Prop :=
  forall t, retry_count (mutate d t) = retry_count t /\ max_retries (mutate d t) = max_retries t.

(** What a strategy may add to the retry counter of a task in one call
    of its [download]: a [RetryStrategy] one for each attempt but the
    last, a bare strategy nothing.  And the whole chain. *)
Definition retry_budget (st : strategy) : Z :=
  match wrapper st with
  | Some retry => Z.max 0 (Retry.retry_max_retries retry - 1)
  | None => 0
  end.

Definition chain_budget (chain : list strategy) : Z :=
  fold_right (fun st total => retry_budget st + total) 0 chain.

(** The retry counter below the ceiling for what waits, at the ceiling
    or past it by no more than [budget] for what has failed, and less
    than [budget] past it for what is completed; [budget] is what the
    chain may add; the downloads to come leave the counters alone. *)
Definition near_ceiling (budget : Z) (s : DownloadOrchestrator * env) : Prop :=
  Forall (fun t => retry_count t < max_retries t) (pending_queue s.1) /\
  Forall (fun t => retry_count t < max_retries t) (priority_tasks s.1) /\
  Forall (fun t => retry_count t < max_retries t + budget) (completed_tasks s.1) /\
  Forall (fun t => max_retries t <= retry_count t <= max_retries t + budget)
         (failed_tasks s.1) /\
  chain_budget (strategies s.1) = budget /\
  Forall keeps_counters (downloads s.2).

(** The budget of the chain that [__init__] builds. *)
Definition initial_budget (cfg : OrchestratorConfig) : Z :=
  if enable_retry cfg then 2 else 0.

(** ** Further scenarios *)

(** An orchestrator whose limiter allows nothing per second. *)
Definition zero_rate_config : OrchestratorConfig :=
  MkConfig 5 true true RateLimiter.zero_per_second true true.

(** An orchestrator without the retry decorator. *)
Definition plain_config : OrchestratorConfig :=
  MkConfig 5 false true RateLimiter.default_config true true.

(** Ids and clock readings for two submissions. *)
Definition two_ids : env :=
  Env [100; 100; 101; 101; 102; 103]%Q [] ["unit-1"; "unit-2"] [] [].

(** Three downloads that fail, and the clock of one submission and three
    turns of a worker two seconds apart. *)
Definition three_failures : env :=
  Env [100; 100; 101; 101; 101; 103; 103; 103; 105; 105; 105]%Q [] ["unit-1"] []
      [fails_with "HTTP 500"; fails_with "HTTP 500"; fails_with "HTTP 500"].

(** The orchestrator without the retry decorator takes the unit and a
    worker three turns. *)
Definition plain_run : option (DownloadOrchestrator * env) :=
  '(_, o, e) ← add_task "https://www.douyin.com/video/1" None 0 (init plain_config)
                 three_failures;
  '(o, e) ← worker_turn o e;
  '(o, e) ← worker_turn o e;
  worker_turn o e.

(** Two 404s and three timeouts, and the clock and the draws of one
    submission and three turns of a worker. *)
Definition five_failures : env :=
  Env [100; 100; 101; 101; 101; 103; 103; 103; 105; 105; 105]%Q [] ["unit-1"] [0; 0]%Q
      [fails_with "HTTP 404"; fails_with "HTTP 404"; fails_with "timeout";
       fails_with "timeout"; fails_with "timeout"].

(** The default orchestrator takes the unit and a worker three turns. *)
Definition default_run : option (DownloadOrchestrator * env) :=
  '(_, o, e) ← add_task "https://www.douyin.com/video/1" None 0 (init default_config)
                 five_failures;
  '(o, e) ← worker_turn o e;
  '(o, e) ← worker_turn o e;
  worker_turn o e.

End Orchestrator.

(** * The fixed-rate limiter ([core/rate_limiter.py], class [SimpleRateLimiter])

    The limiter as [__init__] leaves it has [last_request_time] zero and
    for [min_interval] the float quotient [1.0 / requests_per_second]. *)

Module SimpleLimiter.
Import Base.

Record SimpleRateLimiter := Simple {
  requests_per_second : Q;
  min_interval : Q;
  last_request_time : Q
}.

(** [acquire] *)
Definition acquire (s : SimpleRateLimiter) (e : env) : option (SimpleRateLimiter * env) :=
  '(now, e) ← time_time e;
  let time_since_last := (now - last_request_time s)%Q in
  let e :=
    if Qltb time_since_last (min_interval s)
    then sleep (min_interval s - time_since_last)%Q e
    else e in
  '(t, e) ← time_time e;
  Some (Simple (requests_per_second s) (min_interval s) t, e).

(** One request a second, the last one at second 100. *)
Definition once_a_second : SimpleRateLimiter := Simple 1 1 100.

End SimpleLimiter.

(** * Facts *)

Lemma Qltb_lt x y : Qltb x y = true <-> (x < y)%Q.
Proof.
  unfold Qltb. rewrite negb_true_iff, <- not_true_iff_false, Qle_bool_iff.
  split; [apply Qnot_le_lt | apply Qlt_not_le].
Qed.

Lemma Qltb_ge x y : Qltb x y = false <-> (y <= x)%Q.
Proof.
  unfold Qltb. rewrite negb_false_iff, Qle_bool_iff. reflexivity.
Qed.

(** ** The binary64 products *)

Module Binary64_facts.
Import Binary64.

(** Rounding to 53 bits moves a number by at most one part in [2^53]. *)
Lemma round53_close m :
  0 <= m ->
  (2 ^ 53 - 1) * m <= 2 ^ 53 * round53 m <= (2 ^ 53 + 1) * m.
Proof.
  intros Hm. unfold round53.
  destruct (Z.leb_spec (Z.log2 m - 52) 0) as [Hs | Hs]; [lia |].
  assert (Hpos : 0 < m).
  { destruct (Z.eq_dec m 0) as [-> | ]; [cbn in Hs; lia | lia]. }
  set (s := Z.log2 m - 52) in *.
  destruct (Z.log2_spec m Hpos) as [Hlo _].
  replace (Z.log2 m) with (52 + s) in Hlo by (unfold s; lia).
  rewrite Z.pow_add_r in Hlo by lia.
  assert (Hhalf : 2 ^ s = 2 * 2 ^ (s - 1)).
  { replace s with (1 + (s - 1)) at 1 by lia. rewrite Z.pow_add_r by lia. reflexivity. }
  assert (Hp : 0 < 2 ^ (s - 1)) by (apply Z.pow_pos_nonneg; lia).
  pose proof (Z.div_mod m (2 ^ s) ltac:(lia)) as Hdm.
  pose proof (Z.mod_pos_bound m (2 ^ s) ltac:(lia)) as Hr.
  set (q := m / 2 ^ s) in *. set (r := m mod 2 ^ s) in *.
  set (h := 2 ^ (s - 1)) in *. set (P := 2 ^ s) in *.
  assert (HqP : P * q = m - r) by lia.
  set (B := 2 ^ 52) in *. assert (HB : 2 ^ 53 = 2 * B) by reflexivity.
  rewrite HB.
  assert (Hh52 : 2 * (B * h) <= m) by lia.
  destruct ((h <? r) || ((r =? h) && Z.odd q)) eqn:Hup.
  - assert (h <= r).
    { apply orb_true_iff in Hup as [H | H]; [apply Z.ltb_lt in H; lia |].
      apply andb_true_iff in H as [H _]. apply Z.eqb_eq in H. lia. }
    replace ((q + 1) * P) with (m - r + P) by lia. nia.
  - apply orb_false_iff in Hup as [H _]. apply Z.ltb_ge in H.
    replace (q * P) with (m - r) by lia. nia.
Qed.

Lemma round53_nonneg m : 0 <= m -> 0 <= round53 m.
Proof. intros H. pose proof (round53_close m H). lia. Qed.


(** The product of a non-negative integer with a significand, both
    roundings taken. *)
Lemma scaled_upper x M :
  0 <= x -> 0 <= M ->
  2 ^ 106 * round53 (round53 x * M) <= (2 ^ 53 + 1) * (2 ^ 53 + 1) * (x * M).
Proof.
  intros Hx HM.
  pose proof (round53_close x Hx) as [_ H1].
  pose proof (round53_nonneg x Hx) as H0.
  pose proof (round53_close (round53 x * M) ltac:(nia)) as [_ H2].
  change (2 ^ 106) with (2 ^ 53 * 2 ^ 53).
  set (K := 2 ^ 53) in *. set (a := round53 x) in *. set (p := round53 (a * M)) in *.
  assert (K * (K * p) <= K * ((K + 1) * (a * M))) by (apply Z.mul_le_mono_nonneg_l; lia).
  assert ((K * a) * ((K + 1) * M) <= ((K + 1) * x) * ((K + 1) * M))
    by (apply Z.mul_le_mono_nonneg_r; lia).
  lia.
Qed.

Lemma scaled_lower x M :
  0 <= x -> 0 <= M ->
  (2 ^ 53 - 1) * (2 ^ 53 - 1) * (x * M) <= 2 ^ 106 * round53 (round53 x * M).
Proof.
  intros Hx HM.
  pose proof (round53_close x Hx) as [H1 _].
  pose proof (round53_nonneg x Hx) as H0.
  pose proof (round53_close (round53 x * M) ltac:(nia)) as [H2 _].
  change (2 ^ 106) with (2 ^ 53 * 2 ^ 53).
  set (K := 2 ^ 53) in *. set (a := round53 x) in *. set (p := round53 (a * M)) in *.
  assert (K * ((K - 1) * (a * M)) <= K * (K * p)) by (apply Z.mul_le_mono_nonneg_l; lia).
  assert (((K - 1) * x) * ((K - 1) * M) <= (K * a) * ((K - 1) * M))
    by (apply Z.mul_le_mono_nonneg_r; lia).
  lia.
Qed.

Lemma int_mul_value n c v :
  int_mul n c = Some v ->
  v = Z.sgn n * (round53 (round53 (Z.abs n) * significand c) / 2 ^ scale c).
Proof. unfold int_mul. repeat case_match; congruence. Qed.

Lemma shrink_magnitude n :
  0 <= n -> 0 <= round53 (round53 n * 6305039478318694) / 2 ^ 53 <= n.
Proof.
  intros Hn.
  pose proof (scaled_upper n 6305039478318694 Hn ltac:(lia)) as Hu.
  pose proof (round53_nonneg (round53 n * 6305039478318694)
                ltac:(pose proof (round53_nonneg n Hn); lia)) as Hp.
  set (p := round53 (round53 n * 6305039478318694)) in *.
  split; [apply Z.div_pos; lia |].
  apply Z.div_le_upper_bound; [lia |].
  change (2 ^ 106) with (2 ^ 53 * 2 ^ 53) in Hu. lia.
Qed.

(** [int(n * 0.7)] lies between zero and [n]. *)
Lemma int_mul_0_7_between n v :
  int_mul n lit_0_7 = Some v ->
  (0 <= n -> 0 <= v <= n) /\ (n <= 0 -> n <= v <= 0).
Proof.
  intros H. apply int_mul_value in H. cbn [significand scale lit_0_7] in H.
  pose proof (shrink_magnitude (Z.abs n) (Z.abs_nonneg n)) as Hb.
  destruct (Z.sgn_spec n) as [[? Hs] | [[? Hs] | [? Hs]]]; rewrite Hs in H; lia.
Qed.

Lemma grow_magnitude n :
  0 <= n -> n <= round53 (round53 n * 5404319552844595) / 2 ^ 52.
Proof.
  intros Hn.
  pose proof (scaled_lower n 5404319552844595 Hn ltac:(lia)) as Hl.
  apply Z.div_le_lower_bound; [lia |].
  set (p := round53 (round53 n * 5404319552844595)) in *.
  change (2 ^ 106) with (2 ^ 53 * 2 ^ 53) in Hl. lia.
Qed.

(** [int(n * 1.2)] lies beyond [n]. *)
Lemma int_mul_1_2_beyond n v :
  int_mul n lit_1_2 = Some v ->
  (0 <= n -> n <= v) /\ (n <= 0 -> v <= n).
Proof.
  intros H. apply int_mul_value in H. cbn [significand scale lit_1_2] in H.
  pose proof (grow_magnitude (Z.abs n) (Z.abs_nonneg n)) as Hb.
  destruct (Z.sgn_spec n) as [[? Hs] | [[? Hs] | [? Hs]]]; rewrite Hs in H; lia.
Qed.


Example ninety_times_0_7 : int_mul 90 lit_0_7 = Some 62.
Proof. reflexivity. Qed.

End Binary64_facts.

(** ** The rate limiter *)

Module Limiter_facts.
Import Binary64 Binary64_facts RateLimiter.

Ltac unfold_m :=
  unfold ret, raise, self, update, sleep, readings_left in *;
  unfold mbind, mret, M_bind, M_ret in *.

Ltac simpl_world :=
  cbn [lim clock slept config requests failures stats cooldown_until
       current_max_per_second current_max_per_minute current_max_per_hour
       set_requests set_failures set_per_second set_per_minute set_per_hour
       set_stats set_cooldown_until after is_adaptive] in *.

(** *** Steps of the monad *)

Lemma bind_Ok {A B} (m : M A) (k : A -> M B) w b w' :
  (m ≫= k) w = Ok b w' -> exists a w1, m w = Ok a w1 /\ k a w1 = Ok b w'.
Proof.
  unfold mbind, M_bind. destruct (m w) as [a w1 | |]; [eauto | discriminate ..].
Qed.

Lemma after_bind {A B} (m : M A) (k : A -> M B) w :
  after ((m ≫= k) w) =
  match m w with Ok a w1 => after (k a w1) | Raised _ w1 | Suspended w1 => w1 end.
Proof. unfold mbind, M_bind. destruct (m w); reflexivity. Qed.

Lemma note_adjustment_Ok old w :
  exists st, note_adjustment old w = Ok tt (World (set_stats st (lim w)) (clock w) (slept w)).
Proof.
  unfold note_adjustment. unfold_m. destruct (old =? _); cbn.
  - exists (stats (lim w)). destruct w as [[] ? ?]; reflexivity.
  - eexists; reflexivity.
Qed.

Lemma note_adjustment_after old w :
  exists st, after (note_adjustment old w) = World (set_stats st (lim w)) (clock w) (slept w).
Proof. destruct (note_adjustment_Ok old w) as [st ->]. exists st. reflexivity. Qed.

Lemma py_min_Ok l t w w' : py_min l w = Ok t w' -> w' = w.
Proof.
  destruct l; unfold py_min, ret, raise, mret, M_ret; intros H;
    [discriminate | injection H as _ <-; reflexivity].
Qed.

Lemma calculate_wait_time_Ok now t w w' :
  _calculate_wait_time now w = Ok t w' -> w' = w.
Proof.
  unfold _calculate_wait_time. intros H.
  apply bind_Ok in H as (s & w1 & Hs & H). injection Hs as <- <-.
  apply bind_Ok in H as (l1 & w1 & H1 & H).
  assert (w1 = w) as ->.
  { destruct (_ <=? _) in H1.
    - apply bind_Ok in H1 as (o & w2 & Ho & H1). apply py_min_Ok in Ho as ->.
      injection H1 as _ <-. reflexivity.
    - injection H1 as _ <-. reflexivity. }
  apply bind_Ok in H as (l2 & w1 & H2 & H).
  assert (w1 = w) as ->.
  { destruct (_ <=? _) in H2.
    - apply bind_Ok in H2 as (o & w2 & Ho & H2). apply py_min_Ok in Ho as ->.
      injection H2 as _ <-. reflexivity.
    - injection H2 as _ <-. reflexivity. }
  destruct (l1 ++ l2); [injection H as _ <-; reflexivity | apply py_min_Ok in H; exact H].
Qed.

Lemma calculate_wait_time_after now w : after (_calculate_wait_time now w) = w.
Proof.
  unfold _calculate_wait_time, py_min. unfold_m.
  destruct (_ <=? _); [destruct (recent 1 now _) |]; cbn; try reflexivity;
    (destruct (_ <=? _); [destruct (recent 60 now _) |]; cbn; reflexivity).
Qed.

(** *** The ceilings stay in range (C8) *)

Lemma decrease_rate_in_range w :
  ceilings_in_range (lim w) -> ceilings_in_range (lim (after (_decrease_rate w))).
Proof.
  intros (Hs & Hm & Hh). unfold _decrease_rate, times. unfold_m.
  destruct (int_mul (current_max_per_second (lim w)) lit_0_7) as [a |] eqn:Ea; cbn;
    [| repeat split; lia].
  destruct (int_mul (current_max_per_minute (lim w)) lit_0_7) as [b |] eqn:Eb; cbn.
  2:{ apply int_mul_0_7_between in Ea. repeat split; cbn; lia. }
  destruct (int_mul (current_max_per_hour (lim w)) lit_0_7) as [c |] eqn:Ec; cbn.
  2:{ apply int_mul_0_7_between in Ea, Eb. repeat split; cbn; lia. }
  apply int_mul_0_7_between in Ea, Eb, Ec.
  match goal with |- context [note_adjustment ?o ?w'] =>
    destruct (note_adjustment_after o w') as [st ->] end.
  repeat split; cbn; lia.
Qed.

Lemma increase_rate_in_range w :
  ceilings_in_range (lim w) -> ceilings_in_range (lim (after (_increase_rate w))).
Proof.
  intros (Hs & Hm & Hh). unfold _increase_rate, times. unfold_m.
  destruct (int_mul (current_max_per_second (lim w)) lit_1_2) as [a |] eqn:Ea; cbn;
    [| repeat split; lia].
  destruct (int_mul (current_max_per_minute (lim w)) lit_1_2) as [b |] eqn:Eb; cbn.
  2:{ apply int_mul_1_2_beyond in Ea. repeat split; cbn; lia. }
  destruct (int_mul (current_max_per_hour (lim w)) lit_1_2) as [c |] eqn:Ec; cbn.
  2:{ apply int_mul_1_2_beyond in Ea, Eb. repeat split; cbn; lia. }
  apply int_mul_1_2_beyond in Ea, Eb, Ec.
  match goal with |- context [note_adjustment ?o ?w'] =>
    destruct (note_adjustment_after o w') as [st ->] end.
  repeat split; cbn; lia.
Qed.

(** A growth that returns leaves no ceiling above the configuration,
    wherever it started. *)
Lemma increase_rate_capped w w' :
  _increase_rate w = Ok tt w' ->
  current_max_per_second (lim w') <= max_per_second (config (lim w)) /\
  current_max_per_minute (lim w') <= max_per_minute (config (lim w)) /\
  current_max_per_hour (lim w') <= max_per_hour (config (lim w)).
Proof.
  unfold _increase_rate, times. unfold_m.
  destruct (int_mul (current_max_per_second (lim w)) lit_1_2) as [a |]; cbn; [| discriminate].
  destruct (int_mul (current_max_per_minute (lim w)) lit_1_2) as [b |]; cbn; [| discriminate].
  destruct (int_mul (current_max_per_hour (lim w)) lit_1_2) as [c |]; cbn; [| discriminate].
  match goal with |- context [note_adjustment ?o ?w0] =>
    destruct (note_adjustment_Ok o w0) as [st ->] end.
  intros [= <-]. cbn. lia.
Qed.

Lemma adjust_all_in_range l : forall w,
  ceilings_in_range (lim w) -> ceilings_in_range (lim (adjust_all l w)).
Proof.
  induction l as [| a l IH]; intros w H; [exact H |].
  cbn. apply IH.
  destruct a; [apply decrease_rate_in_range | apply increase_rate_in_range]; exact H.
Qed.

(** C8 (amended).  With each configured maximum at or above its floor
    (1 per second, 10 per minute, 100 per hour), every run of shrink and
    grow adjustments from the initial limiter leaves each ceiling between
    its floor and the configured maximum, a run cut short by an overflow
    included. *)
Theorem ceilings_stay_in_range cfg l ticks :
  1 <= max_per_second cfg -> 10 <= max_per_minute cfg -> 100 <= max_per_hour cfg ->
  ceilings_in_range (lim (adjust_all l (World (init cfg) ticks []))).
Proof.
  intros H1 H2 H3. apply adjust_all_in_range. repeat split; cbn; lia.
Qed.

Lemma ceilings_stay_in_range_witness :
  1 <= max_per_second default_config /\ 10 <= max_per_minute default_config /\
  100 <= max_per_hour default_config /\
  ceilings_in_range
    (lim (adjust_all [Shrink; Grow; Shrink] (World (init default_config) [] []))).
Proof.
  split; [cbn; lia |]. split; [cbn; lia |]. split; [cbn; lia |].
  apply (ceilings_stay_in_range default_config [Shrink; Grow; Shrink] []); cbn; lia.
Defined.

(** C8 as stated fails: with a per-minute maximum of 5 the first shrink
    puts the ceiling at 10, above the configured maximum. *)
Lemma shrink_lifts_low_ceiling :
  let s := lim (adjust_all [Shrink] (World (init low_minute_config) [] [])) in
  current_max_per_minute s = 10 /\ max_per_minute (config s) = 5 /\
  ~ ceilings_in_range s.
Proof.
  cbv zeta. split; [reflexivity |]. split; [reflexivity |].
  intros (_ & [_ H] & _). vm_compute in H. apply H. reflexivity.
Qed.

(** *** What a permit is checked against (C1) *)

Lemma same_ceilings_refl w : same_ceilings w w.
Proof. repeat split. Qed.

Lemma acquire_wait_Ok fuel : forall now w t w',
  acquire_wait fuel now w = Ok (Some t) w' ->
  _can_proceed (lim w') t = true /\ same_ceilings w w'.
Proof.
  induction fuel as [| fuel IH]; intros now w t w' H; [discriminate |].
  cbn [acquire_wait] in H.
  apply bind_Ok in H as (s & w1 & Hs & H). injection Hs as <- <-.
  destruct (_can_proceed (lim w) now) eqn:Hgo.
  - injection H as <- <-. split; [exact Hgo | apply same_ceilings_refl].
  - apply bind_Ok in H as (wt & w1 & Hw & H). apply calculate_wait_time_Ok in Hw as ->.
    destruct (Qltb 0 wt).
    + apply bind_Ok in H as ([] & w1 & Hsl & H). injection Hsl as <-.
      apply bind_Ok in H as (now' & w2 & Ht & H).
      unfold time_time in Ht. cbn in Ht. destruct (clock w) as [| t0 rest]; [discriminate |].
      injection Ht as <- <-.
      apply bind_Ok in H as ([] & w3 & Hc & H).
      unfold _clean_old_records in Hc. cbn in Hc. injection Hc as <-.
      apply IH in H as [Hp Hsame]. split; [exact Hp |].
      destruct Hsame as (? & ? & ? & ?). repeat split; assumption.
    + apply bind_Ok in H as ([] & w1 & _ & H). discriminate.
Qed.

Lemma recent_snoc h now l t :
  recent h now (l ++ [t]) = recent h now l ++ (if Qltb (now - t) h then [t] else []).
Proof. unfold recent. rewrite List.filter_app. reflexivity. Qed.

Lemma len_recent_snoc h t l :
  (0 < h)%Q -> len (recent h t (l ++ [t])) = len (recent h t l) + 1.
Proof.
  intros Hh. rewrite recent_snoc.
  replace (Qltb (t - t) h) with true by (symmetry; apply Qltb_lt; lra).
  unfold len. rewrite length_app. cbn. lia.
Qed.

Lemma decrease_rate_requests w :
  requests (lim (after (_decrease_rate w))) = requests (lim w).
Proof.
  unfold _decrease_rate, times. unfold_m.
  repeat (destruct (int_mul _ _); cbn; [| reflexivity]).
  match goal with |- context [note_adjustment ?o ?w'] =>
    destruct (note_adjustment_after o w') as [st ->] end. reflexivity.
Qed.

Lemma increase_rate_requests w :
  requests (lim (after (_increase_rate w))) = requests (lim w).
Proof.
  unfold _increase_rate, times. unfold_m.
  repeat (destruct (int_mul _ _); cbn; [| reflexivity]).
  match goal with |- context [note_adjustment ?o ?w'] =>
    destruct (note_adjustment_after o w') as [st ->] end. reflexivity.
Qed.

Lemma adjust_rate_requests w :
  requests (lim (after (_adjust_rate w))) = requests (lim w).
Proof.
  unfold _adjust_rate, time_time. unfold_m. destruct (clock w) as [| t rest]; [reflexivity |].
  cbn. destruct (10 <? _); [| reflexivity]. cbn.
  destruct (Qltb (3 # 10) _); [rewrite decrease_rate_requests; reflexivity |].
  destruct (_ && _); [rewrite increase_rate_requests; reflexivity | reflexivity].
Qed.

Lemma can_proceed_counts s t :
  _can_proceed s t = true ->
  len (recent 1 t (requests s)) < current_max_per_second s /\
  len (recent 60 t (requests s)) < current_max_per_minute s /\
  len (recent 3600 t (requests s)) < current_max_per_hour s.
Proof.
  unfold _can_proceed. intros H.
  destruct (Z.leb_spec (current_max_per_second s) (len (recent 1 t (requests s))));
    [discriminate |].
  destruct (Z.leb_spec (current_max_per_minute s) (len (recent 60 t (requests s))));
    [discriminate |].
  destruct (Z.leb_spec (current_max_per_hour s) (len (recent 3600 t (requests s))));
    [discriminate |].
  auto.
Qed.

(** When [acquire()] grants a permit, from any state and under any
    clock, the timestamp [now] it records is the last of
    [requests], and for each horizon (1, 60 and 3600 seconds) the recorded
    timestamps within that horizon of [now], the new one included, are no
    more than the ceiling the call found on entry and checked against.  In
    fixed and burst mode these are still the ceilings when the call
    returns; in adaptive mode the reassessment that follows the grant may
    have moved them. *)
Theorem permit_within_checked_ceilings (w w' : world) :
  acquire w = Ok true w' ->
  exists now earlier,
    requests (lim w') = earlier ++ [now] /\
    len (recent 1 now (requests (lim w'))) <= current_max_per_second (lim w) /\
    len (recent 60 now (requests (lim w'))) <= current_max_per_minute (lim w) /\
    len (recent 3600 now (requests (lim w'))) <= current_max_per_hour (lim w) /\
    (strategy (config (lim w)) <> ADAPTIVE ->
       current_max_per_second (lim w') = current_max_per_second (lim w) /\
       current_max_per_minute (lim w') = current_max_per_minute (lim w) /\
       current_max_per_hour (lim w') = current_max_per_hour (lim w)).
Proof.
  unfold acquire. intros H.
  apply bind_Ok in H as (t0 & w1 & Ht & H).
  unfold time_time in Ht. destruct (clock w) as [| t rest] eqn:Hclk; [discriminate |].
  injection Ht as <- <-.
  apply bind_Ok in H as (s & w1 & Hs & H). injection Hs as <- <-. cbn [lim] in H.
  apply bind_Ok in H as ([] & w1 & Hcool & H).
  assert (Hw1 : same_ceilings w w1).
  { destruct (Qltb t (cooldown_until (lim w))); cbn in Hcool; injection Hcool as <-;
      repeat split. }
  apply bind_Ok in H as ([] & w2 & Hclean & H).
  unfold _clean_old_records in Hclean. cbn in Hclean. injection Hclean as <-.
  apply bind_Ok in H as (fuel & w2 & Hf & H). injection Hf as <- <-.
  apply bind_Ok in H as (go & w3 & Hwait & H).
  destruct go as [now |]; [| discriminate].
  apply acquire_wait_Ok in Hwait as [Hgo Hw3].
  apply bind_Ok in H as ([] & w4 & Hrec & H).
  unfold record_permit in Hrec. cbn in Hrec. injection Hrec as <-.
  apply bind_Ok in H as (s & w4 & Hs & H). injection Hs as <- <-.
  apply bind_Ok in H as ([] & w5 & Hadj & H). injection H as <-.
  cbn [lim config set_stats set_requests] in Hadj.
  apply can_proceed_counts in Hgo as (G1 & G2 & G3).
  destruct Hw1 as (C0 & C1 & C2 & C3). destruct Hw3 as (D0 & D1 & D2 & D3).
  cbn in D0, D1, D2, D3.
  assert (Hreq : requests (lim w5) = requests (lim w3) ++ [now]).
  { destruct (is_adaptive _) in Hadj.
    - match type of Hadj with _adjust_rate ?w0 = _ =>
        pose proof (adjust_rate_requests w0) as Hr end.
      rewrite Hadj in Hr. exact Hr.
    - injection Hadj as <-. reflexivity. }
  exists now, (requests (lim w3)). rewrite Hreq.
  rewrite !len_recent_snoc by lra.
  split; [reflexivity |]. do 3 (split; [lia |]). intros Hna.
  destruct (strategy (config (lim w3))) eqn:Hst;
    try (exfalso; apply Hna; congruence); cbn in Hadj; injection Hadj as <-; cbn;
    repeat split; congruence.
Qed.

Lemma permit_within_checked_ceilings_witness :
  acquire first_call = Ok true (after (acquire first_call)) /\
  exists now earlier,
    requests (lim (after (acquire first_call))) = earlier ++ [now] /\
    len (recent 1 now (requests (lim (after (acquire first_call)))))
      <= current_max_per_second (lim first_call) /\
    len (recent 60 now (requests (lim (after (acquire first_call)))))
      <= current_max_per_minute (lim first_call) /\
    len (recent 3600 now (requests (lim (after (acquire first_call)))))
      <= current_max_per_hour (lim first_call) /\
    (strategy (config (lim first_call)) <> ADAPTIVE ->
       current_max_per_second (lim (after (acquire first_call)))
         = current_max_per_second (lim first_call) /\
       current_max_per_minute (lim (after (acquire first_call)))
         = current_max_per_minute (lim first_call) /\
       current_max_per_hour (lim (after (acquire first_call)))
         = current_max_per_hour (lim first_call)).
Proof.
  split; [vm_compute; reflexivity |].
  apply (permit_within_checked_ceilings first_call (after (acquire first_call))).
  vm_compute. reflexivity.
Defined.

(** With failures reported in between, which C1 does not speak of, the
    bound does not hold against the ceiling at return: in adaptive mode
    with the default configuration, after four failures, the eleventh of a row of permits half a second
    apart is granted with two timestamps in its last second, and the
    reassessment that follows the grant has by then cut the per-second
    ceiling to one. *)
Lemma grant_above_shrunk_ceiling :
  match acquire ten_permits with
  | Ok true w' =>
      last (requests (lim w')) = Some (210 # 2) /\
      len (recent 1 (210 # 2) (requests (lim w'))) = 2 /\
      current_max_per_second (lim w') = 1 /\
      current_max_per_second (lim w') < len (recent 1 (210 # 2) (requests (lim w')))
  | _ => False
  end.
Proof. vm_compute. auto. Qed.

(** *** Calls of [acquire] alone (C1) *)

Lemma untouched_bind {A B} cfg (m : M A) (k : A -> M B) w :
  untouched cfg (after (m w)) ->
  (forall a w1, m w = Ok a w1 -> untouched cfg w1 -> untouched cfg (after (k a w1))) ->
  untouched cfg (after ((m ≫= k) w)).
Proof.
  intros Hm Hk. rewrite after_bind.
  destruct (m w) as [a w1 | e w1 | w1]; cbn [after] in Hm; [| exact Hm ..].
  apply Hk; [reflexivity | exact Hm].
Qed.

Lemma untouched_time cfg w : untouched cfg w -> untouched cfg (after (time_time w)).
Proof. intros H. unfold time_time. destruct (clock w); exact H. Qed.

Lemma untouched_clean cfg now w :
  untouched cfg w -> untouched cfg (after (_clean_old_records now w)).
Proof.
  intros (H0 & H1 & H2 & H3 & H4). unfold _clean_old_records. unfold_m. cbn.
  rewrite H1. repeat split; assumption.
Qed.

Lemma untouched_acquire_wait cfg fuel : forall now w,
  untouched cfg w -> untouched cfg (after (acquire_wait fuel now w)).
Proof.
  induction fuel as [| fuel IH]; intros now w H; [exact H |].
  cbn [acquire_wait]. rewrite after_bind. cbn [self].
  destruct (_can_proceed (lim w) now); [exact H |].
  rewrite after_bind. pose proof (calculate_wait_time_after now w) as Hc.
  destruct (_calculate_wait_time now w) as [wt w1 | e w1 | w1]; cbn in Hc; subst w1;
    try exact H.
  destruct (Qltb 0 wt); [| exact H].
  rewrite after_bind. cbn [sleep]. rewrite after_bind. unfold time_time. cbn [clock lim slept].
  destruct (clock w) as [| t rest]; [exact H |].
  apply untouched_bind.
  - apply untouched_clean. exact H.
  - intros [] w1 _ H1. apply IH, H1.
Qed.

Lemma untouched_increase cfg w :
  untouched cfg w ->
  0 <= max_per_second cfg -> 0 <= max_per_minute cfg -> 0 <= max_per_hour cfg ->
  untouched cfg (after (_increase_rate w)).
Proof.
  intros (H0 & H1 & H2 & H3 & H4) Hs Hm Hh. unfold _increase_rate, times. unfold_m.
  rewrite H0, H2, H3, H4.
  destruct (int_mul (max_per_second cfg) lit_1_2) as [a |] eqn:Ea; cbn;
    [| repeat split; assumption].
  apply int_mul_1_2_beyond in Ea as [Ea _]. specialize (Ea Hs).
  destruct (int_mul (max_per_minute cfg) lit_1_2) as [b |] eqn:Eb; cbn;
    [| repeat split; cbn; try assumption; lia].
  apply int_mul_1_2_beyond in Eb as [Eb _]. specialize (Eb Hm).
  destruct (int_mul (max_per_hour cfg) lit_1_2) as [c |] eqn:Ec; cbn;
    [| repeat split; cbn; try assumption; lia].
  apply int_mul_1_2_beyond in Ec as [Ec _]. specialize (Ec Hh).
  match goal with |- context [note_adjustment ?o ?w'] =>
    destruct (note_adjustment_after o w') as [st ->] end.
  repeat split; cbn; try assumption; lia.
Qed.

(** With no failure on record the reassessment can only try to grow, and
    ceilings at their maximum have nowhere to grow to. *)
Lemma untouched_adjust cfg w :
  untouched cfg w ->
  0 <= max_per_second cfg -> 0 <= max_per_minute cfg -> 0 <= max_per_hour cfg ->
  untouched cfg (after (_adjust_rate w)).
Proof.
  intros H Hs Hm Hh. unfold _adjust_rate.
  apply untouched_bind; [apply untouched_time, H | intros now w1 _ H1].
  apply untouched_bind; [exact H1 | intros s w2 Hself H2]. injection Hself as <- <-.
  destruct (10 <? _); [| exact H2].
  apply untouched_bind; [exact H2 | intros [] w3 Hupd H3].
  destruct H1 as (_ & Hf & _). rewrite Hf.
  replace (Qltb (3 # 10) _) with false.
  - destruct (_ && _); [apply untouched_increase; assumption | exact H3].
  - symmetry. apply Qltb_ge. unfold recent, len, Qle, Qdiv, Qmult. cbn. lia.
Qed.

Lemma untouched_acquire cfg w : untouched cfg w -> untouched cfg (after (acquire w)).
Proof.
  intros H. unfold acquire.
  apply untouched_bind; [apply untouched_time, H | intros t w1 _ H1].
  apply untouched_bind; [exact H1 | intros s w2 Hself H2]. injection Hself as <- <-.
  apply untouched_bind.
  { destruct (Qltb _ _); [| exact H2]. exact H2. }
  intros [] w3 _ H3.
  apply untouched_bind; [apply untouched_clean, H3 | intros [] w4 _ H4].
  apply untouched_bind; [exact H4 | intros fuel w5 _ H5].
  apply untouched_bind; [apply untouched_acquire_wait, H5 | intros go w6 Hwait H6].
  destruct go as [now |]; [| exact H6].
  apply acquire_wait_Ok, proj1, can_proceed_counts in Hwait as (G1 & G2 & G3).
  destruct H6 as (C0 & Cf & C1 & C2 & C3).
  assert (Hlen : forall l, 0 <= len l) by (intros l; unfold len; lia).
  pose proof (Hlen (recent 1 now (requests (lim w6)))) as L1.
  pose proof (Hlen (recent 60 now (requests (lim w6)))) as L2.
  pose proof (Hlen (recent 3600 now (requests (lim w6)))) as L3.
  apply untouched_bind; [repeat split; assumption | intros [] w7 _ H7].
  apply untouched_bind; [exact H7 | intros s w8 Hself H8]. injection Hself as <- <-.
  apply untouched_bind; [| intros [] w9 _ H9; exact H9].
  destruct (is_adaptive _); [apply untouched_adjust; [exact H8 | lia ..] | exact H8].
Qed.

Lemma untouched_after_acquires cfg readings n :
  untouched cfg (after_acquires n (World (init cfg) readings [])).
Proof.
  induction n as [| n IH]; [repeat split |].
  unfold after_acquires. cbn [Nat.iter]. apply untouched_acquire, IH.
Qed.

(** A window that trails a later instant holds no more of the recorded
    timestamps. *)
Lemma recent_later h now t l :
  (now <= t)%Q -> len (recent h t l) <= len (recent h now l).
Proof.
  intros Hle. unfold len, recent. induction l as [| r l IH]; [reflexivity |].
  cbn [List.filter]. destruct (Qltb (t - r) h) eqn:Ht.
  - apply Qltb_lt in Ht. replace (Qltb (now - r) h) with true; [cbn [length]; lia |].
    symmetry. apply Qltb_lt. lra.
  - destruct (Qltb (now - r) h); cbn [length]; lia.
Qed.

(** C1.  Take any configuration, any clock, and any number of calls of
    [acquire()] made one after the other on a new limiter.  When the next
    call grants a permit, the timestamp [now] it records is the last of
    [requests], and for each horizon (1, 60 and 3600 seconds) the recorded
    timestamps within that horizon, the new one included, are no more
    than the horizon's ceiling as it stands when the call returns; this
    for the window that trails [now] and for the window that trails any
    later instant. *)
Theorem acquire_only_within_ceilings cfg readings n w' :
  acquire (after_acquires n (World (init cfg) readings [])) = Ok true w' ->
  exists now earlier,
    requests (lim w') = earlier ++ [now] /\
    forall t, (now <= t)%Q ->
      len (recent 1 t (requests (lim w'))) <= current_max_per_second (lim w') /\
      len (recent 60 t (requests (lim w'))) <= current_max_per_minute (lim w') /\
      len (recent 3600 t (requests (lim w'))) <= current_max_per_hour (lim w').
Proof.
  intros H.
  pose proof (untouched_after_acquires cfg readings n) as Hin.
  pose proof (untouched_acquire cfg _ Hin) as Hout. rewrite H in Hout. cbn [after] in Hout.
  destruct Hin as (_ & _ & I1 & I2 & I3). destruct Hout as (_ & _ & O1 & O2 & O3).
  apply permit_within_checked_ceilings in H as (now & earlier & Hreq & B1 & B2 & B3 & _).
  exists now, earlier. split; [exact Hreq |]. intros t Ht.
  pose proof (recent_later 1 now t (requests (lim w')) Ht) as L1.
  pose proof (recent_later 60 now t (requests (lim w')) Ht) as L2.
  pose proof (recent_later 3600 now t (requests (lim w')) Ht) as L3.
  lia.
Qed.

Lemma acquire_only_within_ceilings_witness :
  acquire (after_acquires 1 three_calls)
    = Ok true (after (acquire (after_acquires 1 three_calls))) /\
  requests (lim (after (acquire (after_acquires 1 three_calls)))) = [100; 100]%Q /\
  current_max_per_second (lim (after (acquire (after_acquires 1 three_calls)))) = 2 /\
  exists now earlier,
    requests (lim (after (acquire (after_acquires 1 three_calls)))) = earlier ++ [now] /\
    forall t, (now <= t)%Q ->
      len (recent 1 t (requests (lim (after (acquire (after_acquires 1 three_calls))))))
        <= current_max_per_second (lim (after (acquire (after_acquires 1 three_calls)))) /\
      len (recent 60 t (requests (lim (after (acquire (after_acquires 1 three_calls))))))
        <= current_max_per_minute (lim (after (acquire (after_acquires 1 three_calls)))) /\
      len (recent 3600 t (requests (lim (after (acquire (after_acquires 1 three_calls))))))
        <= current_max_per_hour (lim (after (acquire (after_acquires 1 three_calls)))).
Proof.
  split; [vm_compute; reflexivity |]. split; [vm_compute; reflexivity |].
  split; [vm_compute; reflexivity |].
  apply (acquire_only_within_ceilings default_config
           [100; 100; 100; 100; 100; 101; 101]%Q 1
           (after (acquire (after_acquires 1 three_calls)))).
  vm_compute. reflexivity.
Defined.

(** The third call of that second finds the per-second ceiling reached
    and waits for the window to pass before it is granted. *)
Example third_call_waits :
  slept (after_acquires 2 three_calls) = [] /\
  match acquire (after_acquires 2 three_calls) with
  | Ok true w' => slept w' = [1%Q] /\ requests (lim w') = [100; 100; 101]%Q
  | _ => False
  end.
Proof. vm_compute. auto. Qed.

(** *** Cooldown (C4) *)

Lemma slept_on_same w w' : slept w' = slept w -> slept_on w w'.
Proof. intros H. exists []. rewrite app_nil_r. auto. Qed.

Lemma slept_on_trans w1 w2 w3 : slept_on w1 w2 -> slept_on w2 w3 -> slept_on w1 w3.
Proof.
  intros (m1 & E1 & F1) (m2 & E2 & F2). exists (m1 ++ m2).
  rewrite E2, E1, app_assoc. split; [reflexivity | apply Forall_app; auto].
Qed.

Lemma decrease_rate_slept w : slept (after (_decrease_rate w)) = slept w.
Proof.
  unfold _decrease_rate, times. unfold_m.
  repeat (destruct (int_mul _ _); cbn; [| reflexivity]).
  match goal with |- context [note_adjustment ?o ?w'] =>
    destruct (note_adjustment_after o w') as [st ->] end. reflexivity.
Qed.

Lemma increase_rate_slept w : slept (after (_increase_rate w)) = slept w.
Proof.
  unfold _increase_rate, times. unfold_m.
  repeat (destruct (int_mul _ _); cbn; [| reflexivity]).
  match goal with |- context [note_adjustment ?o ?w'] =>
    destruct (note_adjustment_after o w') as [st ->] end. reflexivity.
Qed.

Lemma adjust_rate_slept w : slept (after (_adjust_rate w)) = slept w.
Proof.
  unfold _adjust_rate, time_time. unfold_m. destruct (clock w) as [| t rest]; [reflexivity |].
  cbn. destruct (10 <? _); [| reflexivity]. cbn.
  destruct (Qltb (3 # 10) _); [rewrite decrease_rate_slept; reflexivity |].
  destruct (_ && _); [rewrite increase_rate_slept; reflexivity | reflexivity].
Qed.

(** The wait loop only sleeps positive durations. *)
Lemma acquire_wait_slept fuel : forall now w, slept_on w (after (acquire_wait fuel now w)).
Proof.
  induction fuel as [| fuel IH]; intros now w; [apply slept_on_same; reflexivity |].
  cbn [acquire_wait]. rewrite after_bind. cbn [self].
  destruct (_can_proceed (lim w) now); [apply slept_on_same; reflexivity |].
  rewrite after_bind. pose proof (calculate_wait_time_after now w) as Hc.
  destruct (_calculate_wait_time now w) as [wt w1 | e w1 | w1]; cbn in Hc; subst w1;
    try (apply slept_on_same; reflexivity).
  destruct (Qltb 0 wt) eqn:Hpos; [| apply slept_on_same; reflexivity].
  apply Qltb_lt in Hpos.
  rewrite after_bind. cbn [sleep]. rewrite after_bind. unfold time_time. cbn [clock lim slept].
  destruct (clock w) as [| t rest].
  { exists [wt]. split; [reflexivity | repeat constructor; exact Hpos]. }
  rewrite after_bind. unfold _clean_old_records. unfold_m. cbn.
  eapply slept_on_trans; [| apply IH].
  exists [wt]. split; [reflexivity | repeat constructor; exact Hpos].
Qed.

(** An [acquire] entered while the cooldown runs sleeps the rest of it
    first, whatever comes after. *)
Lemma acquire_sleeps_cooldown w now rest :
  clock w = now :: rest ->
  (now < cooldown_until (lim w))%Q ->
  exists more,
    slept (after (acquire w)) = slept w ++ (cooldown_until (lim w) - now)%Q :: more /\
    Forall (fun d => (0 < d)%Q) more.
Proof.
  intros Hclk Hcool. apply Qltb_lt in Hcool.
  unfold acquire, time_time, _clean_old_records, record_permit. unfold_m.
  rewrite Hclk. cbn [lim clock slept]. rewrite Hcool. cbn [lim clock slept].
  match goal with |- context [acquire_wait ?f ?t ?w0] =>
    pose proof (acquire_wait_slept f t w0) as (more & E & F);
    destruct (acquire_wait f t w0) as [go w1 | e w1 | w1]
  end; cbn [after slept] in E |- *.
  2,3: exists more; rewrite E, <- app_assoc; auto.
  destruct go as [t |]; [| exists more; cbn; rewrite E, <- app_assoc; auto].
  cbn [lim clock slept].
  match goal with |- context [if ?c then _ else _] => destruct c end.
  - match goal with |- context [_adjust_rate ?w0] =>
      pose proof (adjust_rate_slept w0) as Ha; destruct (_adjust_rate w0) end;
      cbn in Ha |- *; exists more; rewrite Ha, E, <- app_assoc; auto.
  - cbn. exists more; rewrite E, <- app_assoc; auto.
Qed.




(** *** Reading the clock *)

Lemma reads_on_bind {A B} (m : M A) (k : A -> M B) :
  reads_on m -> (forall a, reads_on (k a)) -> reads_on (m ≫= k).
Proof.
  intros Hm Hk w. rewrite after_bind. specialize (Hm w).
  destruct (m w) as [a w1 | e w1 | w1]; cbn [after] in Hm; [| exact Hm ..].
  etrans; [apply Hk | exact Hm].
Qed.

Lemma reads_on_pure {A} (m : M A) :
  (forall w, clock (after (m w)) = clock w) -> reads_on m.
Proof. intros H w. rewrite H. reflexivity. Qed.

Lemma reads_on_ret {A} (a : A) : reads_on (ret a).
Proof. apply reads_on_pure. reflexivity. Qed.

Lemma reads_on_update f : reads_on (update f).
Proof. apply reads_on_pure. reflexivity. Qed.

Lemma reads_on_self : reads_on self.
Proof. apply reads_on_pure. reflexivity. Qed.

Lemma reads_on_sleep d : reads_on (sleep d).
Proof. apply reads_on_pure. reflexivity. Qed.

Lemma reads_on_readings_left : reads_on readings_left.
Proof. apply reads_on_pure. reflexivity. Qed.

Lemma reads_on_time : reads_on time_time.
Proof.
  intros w. unfold time_time. destruct (clock w) as [| t rest] eqn:E; cbn; rewrite ?E;
    [reflexivity | apply suffix_cons_r; reflexivity].
Qed.

Lemma reads_on_times n c : reads_on (times n c).
Proof. apply reads_on_pure. intros w. unfold times. destruct (int_mul n c); reflexivity. Qed.

Lemma reads_on_note old : reads_on (note_adjustment old).
Proof.
  apply reads_on_pure. intros w. destruct (note_adjustment_after old w) as [st ->]. reflexivity.
Qed.

Ltac reads_on_with leaf :=
  repeat first
    [ leaf
    | simple apply reads_on_times | simple apply reads_on_note
    | simple apply reads_on_ret | simple apply reads_on_update
    | simple apply reads_on_time | simple apply reads_on_self
    | simple apply reads_on_sleep | simple apply reads_on_readings_left
    | simple apply reads_on_bind; [| intros ?]
    | match goal with |- reads_on (if ?c then _ else _) => destruct c end ].

Lemma reads_on_decrease : reads_on _decrease_rate.
Proof. unfold _decrease_rate. reads_on_with fail. Qed.

Lemma reads_on_increase : reads_on _increase_rate.
Proof. unfold _increase_rate. reads_on_with fail. Qed.

Lemma reads_on_adjust : reads_on _adjust_rate.
Proof.
  unfold _adjust_rate.
  reads_on_with ltac:(first [apply reads_on_decrease | apply reads_on_increase]).
Qed.

Lemma reads_on_clean now : reads_on (_clean_old_records now).
Proof. unfold _clean_old_records. reads_on_with fail. Qed.

Lemma reads_on_wait_time now : reads_on (_calculate_wait_time now).
Proof. apply reads_on_pure. intros w. rewrite calculate_wait_time_after. reflexivity. Qed.

Lemma reads_on_acquire_wait fuel : forall now, reads_on (acquire_wait fuel now).
Proof.
  induction fuel as [| fuel IH]; intros now; [apply reads_on_pure; reflexivity |].
  cbn [acquire_wait].
  reads_on_with ltac:(first [apply reads_on_wait_time | apply reads_on_clean | apply IH]).
Qed.

(** [acquire] takes its readings off the front of the clock. *)
Lemma reads_on_acquire : reads_on acquire.
Proof.
  unfold acquire, record_permit.
  reads_on_with ltac:(first
    [ apply reads_on_clean | apply reads_on_acquire_wait | apply reads_on_adjust
    | match goal with |- reads_on (match ?g with Some _ => _ | None => _ end) =>
        destruct g end ]).
Qed.

End Limiter_facts.

(** ** The retry decorator *)

Module Retry_facts.
Import Base Retry.





(** *** [lower] and the substring test *)


















(** [lower] on text beyond ASCII: a capital sigma at the end of a word
    and inside one, the dotted capital I that lowers to two code points,
    a title-case digraph and the capital sharp s. *)
Example lower_beyond_ascii :
  lower "ΟΔΟΣ ΣΟΦΙΑ" = "οδος σοφια" /\
  lower "İstanbul" = "i̇stanbul" /\
  lower "ǅ Ǆ STRASSE ẞ" = "ǆ ǆ strasse ß" /\
  lower "连接超时 TIMEOUT" = "连接超时 timeout".
Proof. vm_compute. auto. Qed.

(** [lower] goes by code points, as [str.lower()] does: the Kelvin sign
    lowers to the letter k, so a 404 message that spells "network" with
    it names a retryable condition and is retried. *)
Example kelvin_sign_spells_network :
  contains "404" kelvin_message = true /\
  contains "network" kelvin_message = false /\
  lower kelvin_message = "404 network" /\
  _should_retry default_retry (failure "unit-1" kelvin_message 0) 0 = true.
Proof. vm_compute. auto. Qed.


End Retry_facts.

(** ** The durable queue *)

Module Queue_facts.
Import Base Queue.

Lemma row_order_iff a b :
  row_order a b <->
  col_priority b.2 < col_priority a.2 \/
  (col_priority a.2 = col_priority b.2 /\ (col_created_at a.2 <= col_created_at b.2)%Q).
Proof.
  unfold row_order, row_leb.
  rewrite orb_True, andb_True, !Is_true_true, Z.gtb_lt, Z.eqb_eq, Qle_bool_iff.
  reflexivity.
Qed.

#[export] Instance row_order_total : Total row_order.
Proof.
  intros a b. rewrite !row_order_iff.
  destruct (Z.lt_total (col_priority a.2) (col_priority b.2)) as [? | [E | ?]]; [auto | | auto].
  destruct (Qlt_le_dec (col_created_at b.2) (col_created_at a.2)) as [H | H].
  - right. right. split; [congruence | apply Qlt_le_weak, H].
  - left. right. split; [exact E | exact H].
Qed.

#[export] Instance row_order_trans : Transitive row_order.
Proof.
  intros a b c. rewrite !row_order_iff.
  intros [? | [E1 L1]] [? | [E2 L2]]; try (left; lia).
  right. split; [congruence | eapply Qle_trans; eassumption].
Qed.

Lemma TaskType_round_trip t : TaskType_of_value (TaskType_value t) = Some t.
Proof. destruct t; reflexivity. Qed.

Lemma unfinished_reset now id r :
  Is_true (unfinished (id, reset_row now r)) <-> recoverable r.
Proof.
  unfold unfinished, reset_row, recoverable. cbn [snd].
  destruct (String.eqb_spec (col_status r) (TaskStatus_value PROCESSING)) as [E | N].
  - cbn. split; [auto | intros _; exact I].
  - rewrite orb_True, !Is_true_true, !String.eqb_eq. tauto.
Qed.

Lemma reset_row_type now r : col_task_type (reset_row now r) = col_task_type r.
Proof. unfold reset_row. destruct (String.eqb _ _); reflexivity. Qed.

Lemma reset_row_not_processing now r :
  col_status (reset_row now r) <> TaskStatus_value PROCESSING.
Proof.
  unfold reset_row.
  destruct (String.eqb_spec (col_status r) (TaskStatus_value PROCESSING));
    [discriminate | assumption].
Qed.

Lemma reset_processing_fmap now t : reset_processing now t = reset_row now <$> t.
Proof. reflexivity. Qed.

(** The rows the [SELECT] finds after the [UPDATE] are as many as the
    rows that were in flight, waiting or up for a retry. *)
Lemma count_unfinished_reset now (l : list (string * row)) :
  length (filter (fun r => Is_true (unfinished r)) (prod_map id (reset_row now) <$> l)) =
  (length (filter (fun r : string * row => col_status r.2 = TaskStatus_value PROCESSING) l) +
   length (filter (fun r : string * row => col_status r.2 = TaskStatus_value PENDING) l) +
   length (filter (fun r : string * row => col_status r.2 = TaskStatus_value RETRYING) l))%nat.
Proof.
  induction l as [| [i r] l IH]; [reflexivity |].
  rewrite fmap_cons, !filter_cons. cbn [prod_map fst snd id].
  pose proof (unfinished_reset now i r) as Hu. unfold recoverable in Hu.
  cbn [TaskStatus_value] in *.
  repeat case_decide; cbn [length snd] in *; rewrite ?IH; try lia;
    try (exfalso; tauto); exfalso; congruence.
Qed.

Lemma restored_sorted tasks rows :
  Forall2 restored_from tasks rows ->
  StronglySorted row_order rows -> StronglySorted task_before tasks.
Proof.
  induction 1 as [| t r tasks rows Htr Hrest IH]; intros Hs; [constructor |].
  apply StronglySorted_inv in Hs as [Hs Hhd]. constructor; [apply IH, Hs |].
  clear IH Hs. induction Hrest as [| t' r' tasks rows Htr' Hrest IH]; [constructor |].
  apply Forall_cons in Hhd as [Hrr' Hhd]. constructor; [| apply IH, Hhd].
  apply row_order_iff in Hrr'. unfold task_before.
  destruct Htr as (_ & -> & -> & _), Htr' as (_ & -> & -> & _). exact Hrr'.
Qed.

Lemma restored_ids tasks rows :
  Forall2 restored_from tasks rows -> task_id <$> tasks = rows.*1.
Proof.
  induction 1 as [| t r tasks rows Htr Hrest IH]; [reflexivity |].
  cbn. rewrite IH. destruct Htr as (-> & _). reflexivity.
Qed.

Lemma restored_pending tasks rows :
  Forall2 restored_from tasks rows -> Forall (fun t => status t = PENDING) tasks.
Proof.
  induction 1 as [| t r tasks rows Htr Hrest IH]; constructor; [| exact IH].
  apply Htr.
Qed.

Section Json.
Variable json_dumps : Metadata -> string.
Variable json_loads : string -> option Metadata.

(** The loop fills the channel with the converted rows until it is full. *)
Lemma load_within_capacity max_size tick rows : forall k queue count,
  (0 < max_size -> Z.of_nat (length queue) <= max_size) ->
  (load json_loads max_size tick k rows queue count).1 =
  within_capacity max_size (queue ++ convert json_loads tick k rows).
Proof.
  induction rows as [| r rows IH]; intros k queue count Hfit; cbn [load convert].
  - rewrite app_nil_r. unfold within_capacity. cbn.
    destruct (Z.ltb_spec 0 max_size); [| reflexivity].
    symmetry. apply take_ge. lia.
  - destruct (_row_to_task json_loads (tick k) r) as [task |]; [| apply IH, Hfit].
    unfold full. destruct (Z.ltb_spec 0 max_size) as [Hpos | Hnon]; cbn [andb].
    + destruct (Z.leb_spec max_size (Z.of_nat (length queue))) as [Hfull | Hroom].
      * cbn. unfold within_capacity. specialize (Hfit Hpos).
        apply Z.ltb_lt in Hpos as ->.
        symmetry. apply take_app_length'. lia.
      * rewrite IH by (rewrite length_app; cbn; lia). rewrite <- app_assoc. reflexivity.
    + rewrite IH by lia. rewrite <- app_assoc. reflexivity.
Qed.

Lemma convert_all tick rows : forall k,
  Forall (fun r => is_Some (TaskType_of_value (col_task_type r.2))) rows ->
  Forall2 restored_from (convert json_loads tick k rows) rows.
Proof.
  induction rows as [| r rows IH]; intros k Hty; [constructor |].
  apply Forall_cons in Hty as [[ty Hr] Hty]. cbn [convert]. unfold _row_to_task.
  rewrite Hr. constructor; [repeat split | apply IH, Hty].
Qed.

(** What [add_task] writes keeps the table well typed. *)
Lemma add_task_well_typed fault task q :
  well_typed (db q) -> well_typed (db (queue_of (add_task json_dumps fault task q))).
Proof.
  intros H. unfold add_task.
  assert (well_typed (<[task_id task := row_of_task json_dumps task]> (db q))).
  { apply map_Forall_insert_2; [| exact H].
    unfold row_of_task. cbn [col_task_type]. rewrite TaskType_round_trip. eauto. }
  destruct fault; [destruct (full _ _) | |]; assumption.
Qed.

Lemma restored_rows tasks rows :
  Forall2 restored_from tasks rows ->
  Forall (fun t => exists r, (task_id t, r) ∈ rows /\ restored_from t (task_id t, r)) tasks.
Proof.
  induction 1 as [| t [id r] tasks rows Htr Hrest IH]; constructor.
  - exists r. pose proof Htr as (Hid & _). cbn [fst] in Hid. rewrite Hid.
    split; [left | exact Htr].
  - eapply Forall_impl; [exact IH |]. intros t' (r' & Hin & H'). exists r'.
    split; [right; exact Hin | exact H'].
Qed.

(** C3.  On a well-typed table, the recovery that [__init__] runs first
    rewrites every row whose status is "processing" to "pending" (with
    [now] as its update time, every other column and every other row as
    it was) and commits, and then delivers to the channel, up to its
    capacity, the tasks of all rows that were in flight, waiting or up
    for a retry: in the order of priority (descending) and creation time
    (ascending), each id once, each as a pending task that carries the
    url, priority, retry count, ceiling and creation time of its row.
    They number the in-flight, the waiting and the retrying rows
    together, and where that is within capacity (or the channel is
    unbounded) all of them are delivered. *)
Theorem recovery_delivers_unfinished stored max_size now tick :
  well_typed stored ->
  let q := init json_loads stored max_size now tick in
  (forall id r, stored !! id = Some r ->
     db q !! id = Some
       (if String.eqb (col_status r) "processing"
        then Row (col_url r) (col_task_type r) (col_priority r) "pending"
                 (col_retry_count r) (col_max_retries r) (col_metadata r)
                 (col_created_at r) now
                 (col_completed_at r) (col_error_message r) (col_result r)
        else r)) /\
  (forall id, stored !! id = None -> db q !! id = None) /\
  committed q = db q /\
  exists all,
    queue q = within_capacity max_size all /\
    (max_size <= 0 \/ Z.of_nat (length all) <= max_size -> queue q = all) /\
    StronglySorted task_before all /\
    NoDup (task_id <$> all) /\
    (forall id, id ∈ task_id <$> all <->
       exists r, stored !! id = Some r /\
         (col_status r = "processing" \/ col_status r = "pending" \/
          col_status r = "retrying")) /\
    Forall (fun t => status t = PENDING /\
              exists r, stored !! task_id t = Some r /\ url t = col_url r /\
                priority t = col_priority r /\ retry_count t = col_retry_count r /\
                max_retries t = col_max_retries r /\ created_at t = col_created_at r) all /\
    length all = (count_status PROCESSING stored + count_status PENDING stored
                  + count_status RETRYING stored)%nat.
Proof.
  intros Hty q.
  set (rows := select_unfinished (reset_processing now stored)).
  assert (Hperm : rows ≡ₚ filter (fun r => Is_true (unfinished r))
                           (map_to_list (reset_processing now stored)))
    by apply merge_sort_Permutation.
  assert (Hsorted : StronglySorted row_order rows)
    by (apply StronglySorted_merge_sort; apply _).
  assert (Hq : q = MkQueue (reset_processing now stored) (reset_processing now stored)
                 (within_capacity max_size (convert json_loads tick 0 rows)) max_size).
  { subst q. unfold init, _restore_tasks. cbn [db queue Queue.max_size].
    pose proof (load_within_capacity max_size tick rows 0 [] 0 ltac:(cbn; lia)) as Hl.
    fold rows. destruct (load json_loads max_size tick 0 rows [] 0) as [queue n].
    cbn [fst] in *. rewrite Hl. reflexivity. }
  assert (Hmem : forall id r, (id, r) ∈ rows <->
            exists r0, stored !! id = Some r0 /\ r = reset_row now r0 /\ recoverable r0).
  { intros id r. rewrite Hperm, list_elem_of_filter, elem_of_map_to_list.
    rewrite reset_processing_fmap, lookup_fmap. split.
    - intros [Hu Hl]. destruct (stored !! id) as [r0 |]; [| discriminate].
      injection Hl as <-. exists r0. rewrite unfinished_reset in Hu. auto.
    - intros (r0 & -> & -> & Hrec). split; [apply unfinished_reset, Hrec | reflexivity]. }
  assert (Hconv : Forall2 restored_from (convert json_loads tick 0 rows) rows).
  { apply convert_all. apply Forall_forall. intros [id r] Hin.
    apply Hmem in Hin as (r0 & Hr0 & -> & _). cbn [snd]. rewrite reset_row_type.
    exact (Hty id r0 Hr0). }
  rewrite Hq. cbn [db committed queue]. split.
  { intros id r Hr. rewrite reset_processing_fmap, lookup_fmap, Hr. reflexivity. }
  split.
  { intros id Hr. rewrite reset_processing_fmap, lookup_fmap, Hr. reflexivity. }
  split; [reflexivity |].
  exists (convert json_loads tick 0 rows). split; [reflexivity |]. split.
  { intros Hroom. unfold within_capacity. destruct (Z.ltb_spec 0 max_size); [| reflexivity].
    apply take_ge. lia. }
  split; [eapply restored_sorted; eassumption |].
  rewrite (restored_ids _ _ Hconv). split.
  { rewrite Hperm. apply NoDup_fmap_fst.
    - intros id r1 r2 H1 H2. apply list_elem_of_filter in H1 as [_ H1], H2 as [_ H2].
      apply elem_of_map_to_list in H1, H2. congruence.
    - apply NoDup_filter, NoDup_map_to_list. }
  split.
  { intros id. rewrite list_elem_of_fmap. split.
    - intros ([id' r] & -> & Hin). apply Hmem in Hin as (r0 & ? & _ & ?). eauto.
    - intros (r0 & H0 & Hrec). exists (id, reset_row now r0). split; [reflexivity |].
      apply Hmem. eauto. }
  split.
  { eapply Forall_impl; [exact (restored_rows _ _ Hconv) |].
    intros t (r & Hin & Hid & Hp & Hc & Hst & Hu & Hrc & Hmx). cbn [fst snd] in *.
    apply Hmem in Hin as (r0 & Hr0 & -> & _). split; [exact Hst |].
    exists r0. split; [exact Hr0 |].
    rewrite Hu, Hp, Hrc, Hmx, Hc. unfold reset_row.
    destruct (String.eqb _ _); repeat split. }
  rewrite (Forall2_length _ _ _ Hconv), Hperm.
  rewrite reset_processing_fmap, map_to_list_fmap. apply count_unfinished_reset.
Qed.

(** C7 (amended).  [add_task] ends in one of three ways.  It returns
    [True]: the channel had room, the statement and its commit went
    through, both the connection and the file hold the row of the task
    under its id (put in the place of any earlier row) and the task
    stands last in the channel.  It is held in [queue.put]: the channel
    is full, the row is written and committed all the same and the
    channel is as it was; no error is returned.  It returns [False]: the
    channel and the file are as they were; when the statement was
    refused so is the connection, but when only the commit was refused
    the connection holds the row, uncommitted.  The row written carries
    the task's url, type, priority, status, retry count and ceiling, its
    metadata as [json.dumps] writes it, its creation and update time,
    and nothing in the columns [completed_at], [error_message] and
    [result]; [_row_to_task] builds the task again from it. *)
Theorem add_task_persists_first fault task q :
  let written :=
    <[task_id task :=
        Row (url task) (TaskType_value (task_type task)) (priority task)
            (TaskStatus_value (status task)) (retry_count task) (max_retries task)
            (Some (json_dumps (metadata task))) (created_at task) (updated_at task)
            None None None]> (db q) in
  match add_task json_dumps fault task q with
  | Add_true q' =>
      fault = Works /\
      ~ (0 < max_size q /\ max_size q <= Z.of_nat (length (queue q))) /\
      db q' = written /\ committed q' = written /\
      queue q' = queue q ++ [task] /\ max_size q' = max_size q
  | Add_waiting q' =>
      fault = Works /\
      (0 < max_size q /\ max_size q <= Z.of_nat (length (queue q))) /\
      db q' = written /\ committed q' = written /\
      queue q' = queue q /\ max_size q' = max_size q
  | Add_false q' =>
      queue q' = queue q /\ committed q' = committed q /\ max_size q' = max_size q /\
      ((fault = Statement_refused /\ db q' = db q) \/
       (fault = Commit_refused /\ db q' = written))
  end /\
  (forall now, exists t,
     _row_to_task json_loads now (task_id task, row_of_task json_dumps task) = Some t /\
     task_id t = task_id task /\ url t = url task /\ task_type t = task_type task /\
     priority t = priority task /\ retry_count t = retry_count task /\
     max_retries t = max_retries task /\ created_at t = created_at task).
Proof.
  intros written. split.
  - unfold add_task. destruct fault; cbn [db committed queue max_size]; [| auto 10 ..].
    unfold full.
    destruct (Z.ltb_spec 0 (max_size q)) as [Hpos | Hnon]; cbn [andb];
      [| repeat split; lia].
    destruct (Z.leb_spec (max_size q) (Z.of_nat (length (queue q)))) as [Hfull | Hroom];
      cbn [db committed queue max_size]; repeat split; lia.
  - intros now. unfold _row_to_task, row_of_task. cbn [snd fst col_task_type].
    rewrite TaskType_round_trip. eexists. split; [reflexivity |]. repeat split.
Qed.

(** C6 (amended).  [get_task] ends in one of three ways.  It hands out a
    task: the task stood first in the channel (the one put there
    earliest) and is taken off it; if the table holds a row for it, that
    row now says "processing" with [now] as its update time, its other
    columns as they were, and if the table holds none (the cleanup may
    have deleted it) the table is as it was; no other row is touched and
    the change is committed; when the channel was in priority order, as
    recovery leaves it, the task goes before all that stay behind.  It
    returns [None]: the channel was empty, or the timeout was not
    positive and the interpreter gives up on that at once; nothing has
    changed.  It raises: the status update or its commit was refused,
    with the task already off the channel and the file as it was. *)
Theorem get_task_serves_head prompt fault timeout now q :
  match get_task json_dumps prompt fault timeout now q with
  | Got task q' =>
      ((0 < timeout)%Q \/ prompt = true) /\ fault = Works /\
      queue q = task :: queue q' /\ max_size q' = max_size q /\
      (forall r, db q !! task_id task = Some r ->
         db q' !! task_id task = Some
           (Row (col_url r) (col_task_type r) (col_priority r) "processing"
                (col_retry_count r) (col_max_retries r) (col_metadata r)
                (col_created_at r) now
                (col_completed_at r) (col_error_message r) (col_result r))) /\
      (db q !! task_id task = None -> db q' = db q) /\
      (forall id, id <> task_id task -> db q' !! id = db q !! id) /\
      committed q' = db q' /\
      (StronglySorted task_before (queue q) -> Forall (task_before task) (queue q'))
  | No_task q' =>
      q' = q /\ (queue q = [] \/ ((timeout <= 0)%Q /\ prompt = false))
  | Get_raised q' =>
      committed q' = committed q /\ max_size q' = max_size q /\
      exists task, queue q = task :: queue q' /\
        ((fault = Statement_refused /\ db q' = db q) \/
         (fault = Commit_refused /\
          forall id, id <> task_id task -> db q' !! id = db q !! id))
  end.
Proof.
  unfold get_task. destruct (Qle_bool timeout 0 && negb prompt) eqn:Ht.
  { apply andb_true_iff in Ht as [Ht Hp]. apply Qle_bool_iff in Ht.
    apply negb_true_iff in Hp. auto. }
  assert (Hgo : (0 < timeout)%Q \/ prompt = true).
  { apply andb_false_iff in Ht as [Ht | Ht].
    - left. apply Qnot_le_lt. intros Hle. apply Qle_bool_iff in Hle. congruence.
    - right. apply negb_false_iff in Ht. exact Ht. }
  destruct (queue q) as [| task rest] eqn:Hq; [auto |].
  unfold update_task_status. destruct fault; cbn [db committed queue max_size].
  - split; [exact Hgo |]. repeat split; try reflexivity.
    + intros r Hr. rewrite lookup_alter_eq, Hr. reflexivity.
    + intros Hr. apply map_eq. intros id. rewrite lookup_alter.
      case_decide as Hid; [subst id; rewrite Hr |]; reflexivity.
    + intros id Hne. apply lookup_alter_ne. congruence.
    + intros Hs. apply StronglySorted_inv in Hs. apply Hs.
  - split; [reflexivity |]. split; [reflexivity |]. exists task. split; [reflexivity |].
    left. split; reflexivity.
  - split; [reflexivity |]. split; [reflexivity |]. exists task. split; [reflexivity |].
    right. split; [reflexivity |]. intros id Hne. apply lookup_alter_ne. congruence.
Qed.

End Json.

Lemma recovery_delivers_unfinished_witness :
  well_typed interrupted_store /\
  let q := init plain_loads interrupted_store 10000 20 (fun _ => 20%Q) in
  col_status <$> interrupted_store !! "a" = Some "processing" /\
  col_status <$> db q !! "a" = Some "pending" /\
  task_id <$> queue q = ["b"; "a"] /\
  (forall id r, interrupted_store !! id = Some r ->
     db q !! id = Some
       (if String.eqb (col_status r) "processing"
        then Row (col_url r) (col_task_type r) (col_priority r) "pending"
                 (col_retry_count r) (col_max_retries r) (col_metadata r)
                 (col_created_at r) 20
                 (col_completed_at r) (col_error_message r) (col_result r)
        else r)) /\
  (forall id, interrupted_store !! id = None -> db q !! id = None) /\
  committed q = db q /\
  exists all,
    queue q = within_capacity 10000 all /\
    (10000 <= 0 \/ Z.of_nat (length all) <= 10000 -> queue q = all) /\
    StronglySorted task_before all /\
    NoDup (task_id <$> all) /\
    (forall id, id ∈ task_id <$> all <->
       exists r, interrupted_store !! id = Some r /\
         (col_status r = "processing" \/ col_status r = "pending" \/
          col_status r = "retrying")) /\
    Forall (fun t => status t = PENDING /\
              exists r, interrupted_store !! task_id t = Some r /\ url t = col_url r /\
                priority t = col_priority r /\ retry_count t = col_retry_count r /\
                max_retries t = col_max_retries r /\ created_at t = col_created_at r) all /\
    length all = (count_status PROCESSING interrupted_store
                  + count_status PENDING interrupted_store
                  + count_status RETRYING interrupted_store)%nat.
Proof.
  assert (Hty : well_typed interrupted_store).
  { unfold well_typed, interrupted_store.
    repeat (apply map_Forall_insert_2; [cbn; eauto |]). apply map_Forall_empty. }
  split; [exact Hty |]. intros q.
  split; [reflexivity |]. split; [vm_compute; reflexivity |].
  split; [vm_compute; reflexivity |].
  exact (recovery_delivers_unfinished plain_loads interrupted_store 10000 20
           (fun _ => 20%Q) Hty).
Defined.

(** C7 as stated fails where it says the state is unchanged on error.
    The commit of [urgent] is refused: [add_task] answers [False] and the
    unit is not in the channel, but its row stays on the connection.  The
    next call whose commit goes through, here the [add_task] of
    [routine], writes it to the file, and the recovery of a later start
    delivers the unit whose enqueueing had failed. *)
Lemma refused_commit_leaves_row :
  let q0 := init plain_loads ∅ 10000 0 (fun _ => 0%Q) in
  match add_task plain_dumps Commit_refused urgent q0 with
  | Add_false q1 =>
      queue q1 = [] /\ committed q1 !! "high" = None /\
      db q0 !! "high" = None /\
      col_status <$> db q1 !! "high" = Some "pending" /\
      match add_task plain_dumps Works routine q1 with
      | Add_true q2 =>
          q2 = refused_then_routine /\
          task_id <$> queue q2 = ["low"] /\
          col_status <$> committed q2 !! "high" = Some "pending" /\
          task_id <$> queue (init plain_loads (committed q2) 10000 50 (fun _ => 50%Q))
            = ["high"; "low"]
      | _ => False
      end
  | _ => False
  end.
Proof. vm_compute. repeat split; reflexivity. Qed.

(** C6 as stated fails: with a unit of priority 0 enqueued before one of
    priority 5, [get_task] hands out the unit of priority 0. *)
Lemma get_task_is_first_in_first_out :
  task_id <$> queue routine_then_urgent = ["low"; "high"] /\
  priority <$> queue routine_then_urgent = [0; 5] /\
  match get_task plain_dumps false Works 1 3 routine_then_urgent with
  | Got task q' => task_id task = "low" /\ priority task = 0 /\
                   priority <$> queue q' = [5]
  | _ => False
  end.
Proof. vm_compute. auto. Qed.

(** A unit handed out without a stored row: marked failed while still in
    the channel, its row went with the cleanup, and the [UPDATE] of
    [get_task] finds nothing to change. *)
Example unit_without_row_is_handed_out :
  task_id <$> queue swept_unit = ["low"] /\
  db swept_unit !! "low" = None /\
  match get_task plain_dumps false Works 1 1000001 swept_unit with
  | Got task q' => task_id task = "low" /\ db q' !! "low" = None /\ queue q' = []
  | _ => False
  end.
Proof. vm_compute. auto. Qed.

End Queue_facts.

(** ** The orchestrator *)

Module Orchestrator_facts.
Import Base Orchestrator.

(** *** The stable descending sort *)

Lemma insert_desc_front {A} (key : A -> Z) x l :
  Forall (fun y => key y <= key x) l -> insert_desc key x l = x :: l.
Proof.
  destruct l as [| y l]; [reflexivity |]. intros H. apply Forall_cons in H as [H _].
  cbn. destruct (Z.ltb_spec (key x) (key y)); [lia | reflexivity].
Qed.

(** Appending [x] to a descending list and sorting again puts [x] behind
    the entries that are at least as high and before the lower ones. *)
Lemma sort_desc_snoc {A} (key : A -> Z) x l :
  descending key l ->
  exists l1 l2,
    l = l1 ++ l2 /\ sort_desc key (l ++ [x]) = l1 ++ x :: l2 /\
    Forall (fun y => key x <= key y) l1 /\ Forall (fun y => key y < key x) l2.
Proof.
  unfold sort_desc, descending. rewrite fold_right_app. cbn [fold_right insert_desc].
  induction 1 as [| y l Hs IH Hy].
  - exists [], []. repeat split; constructor.
  - destruct IH as (l1 & l2 & -> & E & H1 & H2). cbn [fold_right]. rewrite E.
    destruct (Z.le_gt_cases (key x) (key y)) as [Hxy | Hxy].
    + exists (y :: l1), l2. split; [reflexivity |]. split; [| split; [constructor |]; assumption].
      apply insert_desc_front. apply Forall_app. apply Forall_app in Hy as [Hy1 Hy2].
      split; [exact Hy1 | constructor; [exact Hxy | exact Hy2]].
    + assert (l1 = []) as ->.
      { destruct l1 as [| z l1]; [reflexivity |].
        apply Forall_cons in H1 as [? _], Hy as [? _]. lia. }
      exists [], (y :: l2). split; [reflexivity |].
      split; [| split; [constructor | constructor; [lia | exact H2]]].
      cbn. destruct (Z.ltb_spec (key y) (key x)); [| lia].
      rewrite insert_desc_front by exact Hy. reflexivity.
Qed.

Lemma task_before_descending l :
  StronglySorted task_before l -> descending priority l.
Proof.
  induction 1 as [| a l Hs IH Ha]; constructor; [exact IH |].
  eapply Forall_impl; [exact Ha |]. intros b [? | [? _]]; lia.
Qed.

(** *** Submissions *)

Lemma add_task_inv url type prio o e id o' e' :
  add_task url type prio o e = Some (id, o', e') ->
  exists rest_ids created rest1 updated rest2,
    uuids e = id :: rest_ids /\ clock e = created :: rest1 /\ rest1 = updated :: rest2 /\
    e' = Env rest2 (slept e) rest_ids (draws e) (downloads e) /\
    let task := Task id url (default (_detect_task_type url) type) prio 0 3 PENDING ∅
                     created updated None in
    o' = count_task
           (if priority_queue (config o) && (0 <? prio)
            then set_queues (pending_queue o) (sort_desc priority (priority_tasks o ++ [task])) o
            else set_queues (pending_queue o ++ [task]) (priority_tasks o) o).
Proof.
  unfold add_task, uuid4, time_time. intros H.
  destruct (uuids e) as [| u rest_ids]; [discriminate |]. cbn in H.
  destruct (clock e) as [| created rest1]; [discriminate |]. cbn in H.
  destruct rest1 as [| updated rest2]; [discriminate |]. cbn in H.
  injection H as <- <- <-.
  exists rest_ids, created, (updated :: rest2), updated, rest2.
  repeat split.
Qed.

(** The lookup does not read the FIFO channel. *)
Lemma get_task_status_pending id pending o :
  get_task_status id (set_queues pending (priority_tasks o) o) = get_task_status id o.
Proof. reflexivity. Qed.

Lemma get_task_status_count id o : get_task_status id (count_task o) = get_task_status id o.
Proof. reflexivity. Qed.

(** C10.  A unit submitted with priority 0 under an id the lookup did not
    know is put last in the FIFO channel, the priority list is left
    alone, and [get_task_status] still answers [None] for its id, as for
    an id never seen, and goes on doing so whatever the FIFO channel
    comes to hold. *)
Theorem fifo_unit_has_no_status url type o e id o' e' :
  add_task url type 0 o e = Some (id, o', e') ->
  get_task_status id o = None ->
  get_task_status id o' = None /\
  priority_tasks o' = priority_tasks o /\
  (exists task, task_id task = id /\ priority task = 0 /\ status task = PENDING /\
     pending_queue o' = pending_queue o ++ [task]) /\
  (forall pending, get_task_status id (set_queues pending (priority_tasks o') o') = None).
Proof.
  intros H Hfresh. apply add_task_inv in H as (ids & c & r1 & u & r2 & _ & _ & _ & _ & Ho).
  cbn zeta in Ho. rewrite andb_false_r in Ho. subst o'.
  rewrite get_task_status_count, get_task_status_pending.
  split; [exact Hfresh |]. split; [reflexivity |]. split.
  - eexists. split; [| split; [| split]]; [| | | reflexivity]; reflexivity.
  - intros pending. exact Hfresh.
Qed.

Lemma fifo_unit_has_no_status_witness :
  get_task_status "unit-1" (init default_config) = None /\
  exists o' e',
    add_task "https://www.douyin.com/video/1" None 0 (init default_config) quiet
      = Some ("unit-1", o', e') /\
    get_task_status "unit-1" o' = None /\
    priority_tasks o' = priority_tasks (init default_config) /\
    (exists task, task_id task = "unit-1" /\ priority task = 0 /\ status task = PENDING /\
       pending_queue o' = pending_queue (init default_config) ++ [task]) /\
    (forall pending,
       get_task_status "unit-1" (set_queues pending (priority_tasks o') o') = None).
Proof.
  split; [reflexivity |].
  eexists _, _. split; [reflexivity |].
  eapply (fifo_unit_has_no_status "https://www.douyin.com/video/1" None
            (init default_config) quiet "unit-1"); reflexivity.
Defined.

(** *** What a turn of a worker leaves alone *)

Lemma calculate_delay_clock self attempt e d e' :
  Retry._calculate_delay self attempt e = Some (d, e') -> clock e' = clock e.
Proof.
  unfold Retry._calculate_delay, random_draw. destruct (draws e); [discriminate |].
  cbn. intros [= _ <-]. reflexivity.
Qed.

Lemma next_download_clock e call e' :
  next_download e = Some (call, e') -> clock e' = clock e.
Proof.
  unfold next_download. destruct (downloads e); [discriminate |].
  intros [= _ <-]. reflexivity.
Qed.

Lemma attempts_clock left : forall attempt last self task e x self' task' e',
  Retry.attempts left attempt last self task e = Some (x, self', task', e') ->
  clock e' = clock e.
Proof.
  induction left as [| left IH]; intros attempt last self task e x self' task' e' H.
  - injection H as _ _ _ <-. reflexivity.
  - cbn [Retry.attempts] in H.
    destruct (next_download e) as [[call e1] |] eqn:Hn; [| discriminate]. cbn in H.
    apply next_download_clock in Hn.
    destruct (outcome call) as [result | raised].
    + destruct (success result); [injection H as _ _ _ <-; exact Hn |].
      destruct (negb _); [injection H as _ _ _ <-; exact Hn |].
      destruct (Retry._calculate_delay self attempt e1) as [[d e2] |] eqn:Hd; [| discriminate].
      cbn in H. apply calculate_delay_clock in Hd. apply IH in H. cbn in H. congruence.
    + destruct (attempt <? _).
      * destruct (Retry._calculate_delay self attempt e1) as [[d e2] |] eqn:Hd; [| discriminate].
        cbn in H. apply calculate_delay_clock in Hd. apply IH in H. cbn in H. congruence.
      * injection H as _ _ _ <-. exact Hn.
Qed.

Lemma download_clock self task e r self' task' e' :
  Retry.download self task e = Some (r, self', task', e') -> clock e' = clock e.
Proof.
  unfold Retry.download. intros H.
  destruct (Retry.attempts _ 0 None self task e) as [[[[x s1] t1] e1] |] eqn:Ha; [| discriminate].
  apply attempts_clock in Ha. cbn in H.
  destruct x; injection H as _ _ _ <-; exact Ha.
Qed.

Lemma try_strategies_clock todo : forall last task e r chain last' task' e',
  try_strategies todo last task e = Some (r, chain, last', task', e') -> clock e' = clock e.
Proof.
  induction todo as [| s todo IH]; intros last task e r chain last' task' e' H.
  - injection H as _ _ _ _ <-. reflexivity.
  - cbn [try_strategies] in H. destruct (negb (can_handle s task)).
    + destruct (try_strategies todo last task e) as [[[[[r0 c0] l0] t0] e0] |] eqn:Hr;
        [| discriminate]. cbn in H. injection H as _ _ _ _ <-. eapply IH, Hr.
    + destruct (wrapper s) as [retry |].
      * destruct (Retry.download retry task e) as [[[[res rt] t1] e1] |] eqn:Hd; [| discriminate].
        apply download_clock in Hd. cbn in H.
        destruct (success res); [injection H as _ _ _ _ <-; exact Hd |].
        destruct (try_strategies todo _ t1 e1) as [[[[[r0 c0] l0] t0] e0] |] eqn:Hr;
          [| discriminate]. cbn in H. injection H as _ _ _ _ <-. apply IH in Hr. congruence.
      * destruct (next_download e) as [[call e1] |] eqn:Hn; [| discriminate].
        apply next_download_clock in Hn. cbn in H.
        destruct (outcome call) as [res | raised].
        -- destruct (success res); [injection H as _ _ _ _ <-; exact Hn |].
           destruct (try_strategies todo _ _ e1) as [[[[[r0 c0] l0] t0] e0] |] eqn:Hr;
             [| discriminate]. cbn in H. injection H as _ _ _ _ <-. apply IH in Hr. congruence.
        -- destruct (try_strategies todo _ _ e1) as [[[[[r0 c0] l0] t0] e0] |] eqn:Hr;
             [| discriminate]. cbn in H. injection H as _ _ _ _ <-. apply IH in Hr. congruence.
Qed.

Lemma execute_task_frame task o e r task' o' e' :
  _execute_task task o e = Some (r, task', o', e') ->
  clock e' = clock e /\ priority_tasks o' = priority_tasks o.
Proof.
  unfold _execute_task. intros H.
  destruct (try_strategies (strategies o) None task e) as [[[[[r0 c0] l0] t0] e0] |] eqn:Hr;
    [| discriminate]. apply try_strategies_clock in Hr. cbn in H.
  destruct r0; injection H as _ _ <- <-; auto.
Qed.

Lemma permit_frame o e g o' e' :
  permit o e = Some (g, o', e') ->
  clock e' `suffix_of` clock e /\ priority_tasks o' = priority_tasks o.
Proof.
  unfold permit. intros H. destruct (rate_limiter o) as [l |].
  - pose proof (Limiter_facts.reads_on_acquire (RateLimiter.World l (clock e) (slept e))) as Hc.
    destruct (RateLimiter.acquire _) as [b w | x w | w]; [| | discriminate];
      injection H as _ <- <-; auto.
  - injection H as _ <- <-. auto.
Qed.

Lemma settle_frame r task o e o' e' :
  settle r task o e = Some (o', e') ->
  clock e' `suffix_of` clock e /\ priority_tasks o' = priority_tasks o.
Proof.
  unfold settle. intros H. destruct (success r); [injection H as <- <-; auto |].
  unfold time_time in H. destruct (clock e) as [| t rest]; [discriminate |]. cbn in H.
  destruct (_ <? _) in H; injection H as <- <-; split; try reflexivity;
    apply suffix_cons_r; reflexivity.
Qed.

Lemma get_next_task_priority o :
  priority_tasks (_get_next_task o).2 `suffix_of` priority_tasks o.
Proof.
  unfold _get_next_task. destruct (priority_tasks o) as [| t rest] eqn:E.
  - destruct (pending_queue o); cbn; rewrite ?E; reflexivity.
  - cbn. apply suffix_cons_r. reflexivity.
Qed.

Lemma worker_turn_frame o e o' e' :
  worker_turn o e = Some (o', e') ->
  clock e' `suffix_of` clock e /\ priority_tasks o' `suffix_of` priority_tasks o.
Proof.
  unfold worker_turn. intros H. pose proof (get_next_task_priority o) as Hp.
  destruct (_get_next_task o) as [[task |] o1]; cbn [snd] in Hp.
  - destruct (permit _ e) as [[[g o2] e2] |] eqn:Hg; [| discriminate].
    apply permit_frame in Hg as [Hc2 Hp2]. cbn in Hp2, H.
    destruct g.
    + destruct (_execute_task task o2 e2) as [[[[r t3] o3] e3] |] eqn:Hx; [| discriminate].
      apply execute_task_frame in Hx as [Hc3 Hp3]. cbn in H.
      apply settle_frame in H as [Hc4 Hp4]. split.
      * etrans; [exact Hc4 |]. rewrite Hc3. exact Hc2.
      * rewrite Hp4, Hp3, Hp2. exact Hp.
    + injection H as <- <-. split; [exact Hc2 | rewrite Hp2; exact Hp].
  - injection H as <- <-. split; [reflexivity | exact Hp].
Qed.

(** *** The priority list along a run (C9) *)

Lemma Forall_suffix {A} (P : A -> Prop) (l k : list A) :
  l `suffix_of` k -> Forall P k -> Forall P l.
Proof. intros [pre ->] H. apply Forall_app in H. apply H. Qed.

Lemma lane_ordered_suffix o e o' e' :
  lane_ordered (o, e) ->
  priority_tasks o' `suffix_of` priority_tasks o ->
  clock e' `suffix_of` clock e ->
  lane_ordered (o', e').
Proof.
  intros (Hs & Hp & Hc & Hm) Hl Hk. unfold lane_ordered, monotone in *. cbn [fst snd] in *.
  repeat split.
  - destruct Hl as [pre E]. rewrite E in Hs. eapply StronglySorted_app_1_r, Hs.
  - eapply Forall_suffix; eassumption.
  - eapply Forall_suffix; [exact Hl |]. eapply Forall_impl; [exact Hc |].
    intros t Ht. eapply Forall_suffix; eassumption.
  - destruct Hk as [pre E]. rewrite E in Hm. eapply StronglySorted_app_1_r, Hm.
Qed.

Lemma lane_ordered_submit url type prio o e id o' e' :
  lane_ordered (o, e) ->
  add_task url type prio o e = Some (id, o', e') ->
  lane_ordered (o', e').
Proof.
  intros Hinv H. pose proof Hinv as (Hs & Hp & Hc & Hm).
  unfold monotone in Hm. cbn [fst snd] in *.
  apply add_task_inv in H as (ids & c & r1 & u & r2 & _ & Hclk & -> & -> & ->). cbn zeta.
  assert (Hsuf : r2 `suffix_of` clock e).
  { rewrite Hclk. do 2 apply suffix_cons_r. reflexivity. }
  destruct (priority_queue (config o) && (0 <? prio)) eqn:Hlane.
  2:{ eapply lane_ordered_suffix; [exact Hinv | reflexivity | exact Hsuf]. }
  apply andb_true_iff in Hlane as [_ Hpos]. apply Z.ltb_lt in Hpos.
  set (task := Task id url _ prio 0 3 PENDING ∅ c u None).
  destruct (sort_desc_snoc priority task (priority_tasks o) (task_before_descending _ Hs))
    as (l1 & l2 & El & Es & H1 & H2).
  unfold lane_ordered, monotone. cbn [fst snd priority_tasks count_task set_queues clock].
  rewrite Es. rewrite El in Hs, Hp, Hc.
  apply StronglySorted_app in Hs as (H12 & Hs1 & Hs2).
  apply Forall_app in Hp as [Hp1 Hp2]. apply Forall_app in Hc as [Hc1 Hc2].
  rewrite Hclk in Hm, Hc1, Hc2.
  apply StronglySorted_inv in Hm as [Hm Hc0].
  apply StronglySorted_inv in Hm as [Hm _].
  repeat split.
  - apply StronglySorted_app. repeat split; [| exact Hs1 |].
    + intros x1 x2 Hx1 Hx2. apply elem_of_cons in Hx2 as [-> | Hx2]; [| auto].
      rewrite Forall_forall in H1, Hc1. specialize (H1 _ Hx1). specialize (Hc1 _ Hx1).
      apply Forall_cons in Hc1 as [Hc1 _]. cbn in H1. unfold task_before. cbn [priority created_at task].
      destruct (Z.eq_dec (priority x1) prio); [right; auto | left; lia].
    + constructor; [exact Hs2 |]. eapply Forall_impl; [exact H2 |].
      intros y Hy. left. exact Hy.
  - apply Forall_app. split; [exact Hp1 | constructor; [exact Hpos | exact Hp2]].
  - apply Forall_app. split; [| constructor].
    + eapply Forall_impl; [exact Hc1 |]. intros t Ht.
      apply Forall_cons in Ht as [_ Ht]. apply Forall_cons in Ht as [_ Ht]. exact Ht.
    + cbn [created_at task]. apply Forall_cons in Hc0 as [_ Hc0]. exact Hc0.
    + eapply Forall_impl; [exact Hc2 |]. intros t Ht.
      apply Forall_cons in Ht as [_ Ht]. apply Forall_cons in Ht as [_ Ht]. exact Ht.
  - exact Hm.
Qed.

Lemma lane_ordered_step s s' : lane_ordered s -> step s s' -> lane_ordered s'.
Proof.
  intros Hinv Hstep. destruct Hstep as [url type prio o e id o' e' H | o e o' e' H | o e | o e t e' H].
  - eapply lane_ordered_submit; eassumption.
  - apply worker_turn_frame in H as [Hc Hp]. eapply lane_ordered_suffix; eassumption.
  - eapply lane_ordered_suffix; [exact Hinv | apply get_next_task_priority | reflexivity].
  - eapply lane_ordered_suffix; [exact Hinv | reflexivity |].
    unfold time_time in H. destruct (clock e) as [| t0 rest]; [discriminate |].
    injection H as _ <-. apply suffix_cons_r. reflexivity.
Qed.

Lemma lane_ordered_init cfg e : monotone e -> lane_ordered (init cfg, e).
Proof.
  intros Hm. unfold lane_ordered. cbn [fst snd]. unfold init, register_strategy.
  cbn [priority_tasks]. repeat split; [constructor .. | exact Hm].
Qed.


(** C9 (amended).  Along every run of the orchestrator from its initial
    state under a clock that does not run backwards, the priority list
    is in order of priority (descending) and, within one priority, of
    creation time, and holds units of positive priority only.  Whenever
    the list is not empty, [_get_next_task] hands out its first unit,
    leaves the FIFO channel alone, and that unit goes before all that
    stay behind.  With the priority-queue feature on, a unit submitted
    with a positive priority joins the priority list, and one with
    priority zero or below is put last in the FIFO channel. *)
Theorem priority_lane_order cfg e0 o e :
  monotone e0 ->
  rtc step (init cfg, e0) (o, e) ->
  StronglySorted task_before (priority_tasks o) /\
  Forall (fun t => 0 < priority t) (priority_tasks o) /\
  (forall task rest, priority_tasks o = task :: rest ->
     _get_next_task o = (Some task, set_queues (pending_queue o) rest o) /\
     Forall (task_before task) rest) /\
  (forall url type prio id o' e',
     priority_queue (config o) = true ->
     add_task url type prio o e = Some (id, o', e') ->
     exists task, task_id task = id /\ priority task = prio /\
       if 0 <? prio
       then pending_queue o' = pending_queue o /\ priority_tasks o' ≡ₚ task :: priority_tasks o
       else priority_tasks o' = priority_tasks o /\ pending_queue o' = pending_queue o ++ [task]).
Proof.
  intros Hm Hrun.
  assert (Hinv : lane_ordered (o, e)).
  { revert Hrun. generalize (o, e). apply rtc_ind_r; [apply lane_ordered_init, Hm |].
    intros y z _ Hstep Hy. eapply lane_ordered_step; eassumption. }
  destruct Hinv as (Hs & Hp & _ & _). cbn [fst] in *.
  split; [exact Hs |]. split; [exact Hp |]. split.
  - intros task rest E. unfold _get_next_task. rewrite E. split; [reflexivity |].
    rewrite E in Hs. apply StronglySorted_inv in Hs. apply Hs.
  - intros url type prio id o' e' Hon H.
    apply add_task_inv in H as (ids & c & r1 & u & r2 & _ & _ & _ & _ & ->). cbn zeta.
    rewrite Hon. cbn [andb].
    exists (Task id url (default (_detect_task_type url) type) prio 0 3 PENDING ∅ c u None).
    split; [reflexivity |]. split; [reflexivity |].
    destruct (0 <? prio); cbn [pending_queue priority_tasks count_task set_queues]; auto.
    split; [reflexivity |].
    match goal with |- sort_desc priority (_ ++ [?t]) ≡ₚ _ =>
      destruct (sort_desc_snoc priority t (priority_tasks o) (task_before_descending _ Hs))
        as (l1 & l2 & -> & -> & _) end.
    symmetry. apply Permutation_middle.
Qed.

Lemma priority_lane_order_witness :
  monotone four_ids /\
  exists o e,
    mixed_submissions = Some (o, e) /\
    rtc step (init default_config, four_ids) (o, e) /\
    (fun t => (task_id t, priority t, created_at t)) <$> priority_tasks o
      = [("unit-3", 7, 102%Q); ("unit-1", 5, 100%Q); ("unit-4", 5, 103%Q)] /\
    (fun t => (task_id t, priority t)) <$> pending_queue o = [("unit-2", 0)] /\
    StronglySorted task_before (priority_tasks o) /\
    Forall (fun t => 0 < priority t) (priority_tasks o) /\
    exists task rest,
      priority_tasks o = task :: rest /\ task_id task = "unit-3" /\
      _get_next_task o = (Some task, set_queues (pending_queue o) rest o) /\
      Forall (task_before task) rest.
Proof.
  assert (Hm : monotone four_ids).
  { unfold monotone, four_ids. cbn [clock].
    repeat constructor; unfold Qle; cbn; lia. }
  split; [exact Hm |].
  eexists _, _. split; [vm_compute; reflexivity |].
  match goal with |- rtc step _ (?o, ?e) /\ _ =>
    assert (Hr : rtc step (init default_config, four_ids) (o, e))
  end.
  { eapply rtc_l.
    { apply (step_submit "https://www.douyin.com/video/1" None 5 (init default_config)
               four_ids "unit-1"). vm_compute. reflexivity. }
    eapply rtc_l.
    { eapply (step_submit "https://www.douyin.com/video/2" None 0 _ _ "unit-2").
      vm_compute. reflexivity. }
    eapply rtc_l.
    { eapply (step_submit "https://www.douyin.com/video/3" None 7 _ _ "unit-3").
      vm_compute. reflexivity. }
    apply rtc_once.
    eapply (step_submit "https://www.douyin.com/video/4" None 5 _ _ "unit-4").
    vm_compute. reflexivity. }
  split; [exact Hr |]. split; [vm_compute; reflexivity |]. split; [vm_compute; reflexivity |].
  pose proof (priority_lane_order default_config four_ids _ _ Hm Hr) as (Hs & Hp & Hnext & _).
  split; [exact Hs |]. split; [exact Hp |].
  eexists _, _. split; [reflexivity |]. split; [reflexivity |].
  apply Hnext. reflexivity.
Defined.

(** C9 as stated fails: with the priority-queue feature on, a unit of
    priority -1 is put in the FIFO channel, not in the priority list. *)
Lemma negative_priority_goes_to_fifo :
  priority_queue (config (init default_config)) = true /\
  match add_task "https://www.douyin.com/video/1" None (-1) (init default_config) quiet with
  | Some (_, o, _) => priority_tasks o = [] /\ priority <$> pending_queue o = [-1]
  | None => False
  end.
Proof. vm_compute. auto. Qed.

(** *** The retry counter (C2) *)

(** The worker's own accounting: a counter brought to the ceiling sends
    the unit to the failed list, never back to the channel. *)
Lemma settle_at_ceiling result task o e now rest :
  success result = false ->
  clock e = now :: rest ->
  max_retries task <= retry_count task + 1 ->
  exists o' e' task',
    settle result task o e = Some (o', e') /\
    retry_count task' = retry_count task + 1 /\
    failed_tasks o' = failed_tasks o ++ [task'] /\
    pending_queue o' = pending_queue o.
Proof.
  intros Hfail Hclk Hceil. unfold settle, time_time, increment_retry.
  rewrite Hfail, Hclk. cbn.
  destruct (Z.ltb_spec (retry_count task + 1) (max_retries task)); [lia |].
  eexists _, _, _. split; [reflexivity |].
  cbn [failed_tasks pending_queue set_active].
  split; [| split; reflexivity]. reflexivity.
Qed.

(** C2, at the failing input.  The default orchestrator takes one unit
    with the ceiling of three retries; its first download is answered
    with a 404 and the unit is queued again with one retry counted; the
    three downloads of its second pass time out.  The retry decorator
    counts two more, the worker one more, and the unit ends in the failed
    list with a retry count of four. *)
Theorem retry_count_passes_ceiling :
  match two_passes with
  | Some (o, _) =>
      pending_queue o = [] /\
      (fun t => (task_id t, retry_count t, max_retries t)) <$> failed_tasks o
        = [("unit-1", 4, 3)]
  | None => False
  end.
Proof. vm_compute. auto. Qed.

End Orchestrator_facts.

(** * Further properties *)

(** ** The rate limiter: waiting, cleaning, the counters *)

Module Limiter_more.
Import Binary64 Binary64_facts RateLimiter Limiter_facts.

(** [min] answers with an entry of the list. *)
Lemma py_min_In l t w w' : py_min l w = Ok t w' -> In t l.
Proof.
  destruct l as [| x l]; [discriminate |]. unfold py_min, ret, mret, M_ret.
  intros [= <- _]. revert x. induction l as [| y l IH]; intros x; [left; reflexivity |].
  cbn [fold_left]. destruct (Qltb y x).
  - destruct (IH y) as [<- | H]; [right; left; reflexivity | right; right; exact H].
  - destruct (IH x) as [<- | H]; [left; reflexivity | right; right; exact H].
Qed.

Lemma recent_In h now l r : In r (recent h now l) -> In r l /\ (now - r < h)%Q.
Proof.
  unfold recent. rewrite List.filter_In. intros [H1 H2]. apply Qltb_lt in H2. auto.
Qed.

(** The wait that [_calculate_wait_time] computes is positive. *)
Lemma calculate_wait_time_positive now t w w' :
  _calculate_wait_time now w = Ok t w' -> (0 < t)%Q.
Proof.
  unfold _calculate_wait_time. intros H.
  apply bind_Ok in H as (s & w1 & Hs & H). injection Hs as <- <-.
  apply bind_Ok in H as (l1 & w1 & H1 & H).
  assert (Hl1 : Forall (fun d => (0 < d)%Q) l1 /\ w1 = w).
  { destruct (_ <=? _) in H1.
    - apply bind_Ok in H1 as (o & w2 & Ho & H1). pose proof (py_min_Ok _ _ _ _ Ho) as ->.
      apply py_min_In, recent_In in Ho as [_ Ho].
      injection H1 as <- <-. split; [| reflexivity]. repeat constructor. lra.
    - injection H1 as <- <-. split; [constructor | reflexivity]. }
  destruct Hl1 as [Hl1 ->].
  apply bind_Ok in H as (l2 & w1 & H2 & H).
  assert (Hl2 : Forall (fun d => (0 < d)%Q) l2 /\ w1 = w).
  { destruct (_ <=? _) in H2.
    - apply bind_Ok in H2 as (o & w2 & Ho & H2). pose proof (py_min_Ok _ _ _ _ Ho) as ->.
      apply py_min_In, recent_In in Ho as [_ Ho].
      injection H2 as <- <-. split; [| reflexivity]. repeat constructor. lra.
    - injection H2 as <- <-. split; [constructor | reflexivity]. }
  destruct Hl2 as [Hl2 ->].
  assert (Hall : Forall (fun d => (0 < d)%Q) (l1 ++ l2)) by (apply Forall_app; auto).
  destruct (l1 ++ l2) as [| d l] eqn:E.
  - injection H as <- _. reflexivity.
  - apply py_min_In in H. rewrite Forall_forall in Hall. apply Hall.
    apply list_elem_of_In. exact H.
Qed.

(** The loop of [acquire] is never left through its [return False]. *)
Lemma acquire_wait_grants fuel : forall now w go w',
  acquire_wait fuel now w = Ok go w' ->
  exists t, go = Some t /\ stats (lim w') = stats (lim w) /\
    cooldown_until (lim w') = cooldown_until (lim w).
Proof.
  induction fuel as [| fuel IH]; intros now w go w' H; [discriminate |].
  cbn [acquire_wait] in H.
  apply bind_Ok in H as (s & w1 & Hs & H). injection Hs as <- <-.
  destruct (_can_proceed (lim w) now).
  - injection H as <- <-. eauto.
  - apply bind_Ok in H as (wt & w1 & Hw & H).
    pose proof (calculate_wait_time_positive _ _ _ _ Hw) as Hpos.
    apply calculate_wait_time_Ok in Hw as ->.
    apply Qltb_lt in Hpos. rewrite Hpos in H.
    apply bind_Ok in H as ([] & w1 & Hsl & H). injection Hsl as <-.
    apply bind_Ok in H as (now' & w2 & Ht & H).
    unfold time_time in Ht. cbn in Ht. destruct (clock w) as [| t0 rest]; [discriminate |].
    injection Ht as <- <-.
    apply bind_Ok in H as ([] & w3 & Hc & H).
    unfold _clean_old_records in Hc. cbn in Hc. injection Hc as <-.
    apply IH in H as (t & -> & Hst & Hcd). exists t. split; [reflexivity |].
    split; [exact Hst | exact Hcd].
Qed.

(** Moving the ceilings keeps the request counters and the cooldown, and
    the reported rate follows the per-second ceiling if it was up to
    date. *)
Lemma note_adjustment_stats old w w' :
  note_adjustment old w = Ok tt w' ->
  counters_kept w w' /\
  (current_rate (stats (lim w)) = old -> rate_reported (lim w')) /\
  same_ceilings w w'.
Proof.
  unfold note_adjustment, rate_reported, counters_kept. unfold_m.
  destruct (Z.eqb_spec old (current_max_per_second (lim w))) as [E | N]; intros [= <-]; cbn.
  - repeat split. congruence.
  - repeat split.
Qed.

Lemma decrease_rate_stats w w' :
  _decrease_rate w = Ok tt w' ->
  counters_kept w w' /\ (rate_reported (lim w) -> rate_reported (lim w')).
Proof.
  unfold _decrease_rate, times. unfold_m.
  destruct (int_mul _ _); cbn; [| discriminate].
  destruct (int_mul _ _); cbn; [| discriminate].
  destruct (int_mul _ _); cbn; [| discriminate].
  intros H. apply note_adjustment_stats in H as (Hc & Hr & _). cbn in Hc, Hr.
  split; [exact Hc | exact Hr].
Qed.

Lemma increase_rate_stats w w' :
  _increase_rate w = Ok tt w' ->
  counters_kept w w' /\ (rate_reported (lim w) -> rate_reported (lim w')).
Proof.
  unfold _increase_rate, times. unfold_m.
  destruct (int_mul _ _); cbn; [| discriminate].
  destruct (int_mul _ _); cbn; [| discriminate].
  destruct (int_mul _ _); cbn; [| discriminate].
  intros H. apply note_adjustment_stats in H as (Hc & Hr & _). cbn in Hc, Hr.
  split; [exact Hc | exact Hr].
Qed.

Lemma adjust_rate_stats w w' :
  _adjust_rate w = Ok tt w' ->
  counters_kept w w' /\ (rate_reported (lim w) -> rate_reported (lim w')).
Proof.
  unfold _adjust_rate, time_time. unfold_m. destruct (clock w) as [| t rest]; [discriminate |].
  cbn. destruct (10 <? _); [| intros [= <-]; split; [repeat split |]; auto]. cbn.
  destruct (Qltb (3 # 10) _).
  { intros H. apply decrease_rate_stats in H. exact H. }
  destruct (_ && _).
  { intros H. apply increase_rate_stats in H. exact H. }
  intros [= <-]. split; [repeat split |]; auto.
Qed.

(** X1.  A call of [acquire] that returns has granted: the [return False]
    inside its loop is never reached, because the wait that
    [_calculate_wait_time] computes is always positive.  The call has
    counted one more request in [total_requests] and has left
    [blocked_requests] as it was. *)
Theorem acquire_never_refuses w b w' :
  acquire w = Ok b w' ->
  b = true /\
  total_requests (stats (lim w')) = total_requests (stats (lim w)) + 1 /\
  blocked_requests (stats (lim w')) = blocked_requests (stats (lim w)).
Proof.
  unfold acquire. intros H.
  apply bind_Ok in H as (t0 & w1 & Ht & H).
  unfold time_time in Ht. destruct (clock w) as [| t rest] eqn:Hclk; [discriminate |].
  injection Ht as <- <-.
  apply bind_Ok in H as (s & w1 & Hs & H). injection Hs as <- <-. cbn [lim] in H.
  apply bind_Ok in H as ([] & w1 & Hcool & H).
  assert (Hw1 : stats (lim w1) = stats (lim w)).
  { destruct (Qltb t (cooldown_until (lim w))); cbn in Hcool; injection Hcool as <-;
      reflexivity. }
  apply bind_Ok in H as ([] & w2 & Hclean & H).
  unfold _clean_old_records in Hclean. cbn in Hclean. injection Hclean as <-.
  apply bind_Ok in H as (fuel & w2 & Hf & H). injection Hf as <- <-.
  apply bind_Ok in H as (go & w3 & Hwait & H).
  apply acquire_wait_grants in Hwait as (now & -> & Hw3 & _). cbn in Hw3.
  apply bind_Ok in H as ([] & w4 & Hrec & H).
  unfold record_permit in Hrec. cbn in Hrec. injection Hrec as <-.
  apply bind_Ok in H as (s & w4 & Hs & H). injection Hs as <- <-.
  apply bind_Ok in H as ([] & w5 & Hadj & H). injection H as <- <-.
  split; [reflexivity |].
  cbn [lim config set_stats set_requests] in Hadj.
  destruct (is_adaptive _) in Hadj.
  - apply adjust_rate_stats in Hadj as [(H1 & H2 & _) _]. cbn in H1, H2.
    rewrite H1, H2, Hw3, Hw1. auto.
  - injection Hadj as <-. cbn. rewrite Hw3, Hw1. auto.
Qed.

Lemma acquire_never_refuses_witness :
  acquire first_call = Ok true (after (acquire first_call)) /\
  true = true /\
  total_requests (stats (lim (after (acquire first_call))))
    = total_requests (stats (lim first_call)) + 1 /\
  blocked_requests (stats (lim (after (acquire first_call))))
    = blocked_requests (stats (lim first_call)).
Proof.
  split; [vm_compute; reflexivity |].
  apply (acquire_never_refuses first_call true (after (acquire first_call))).
  vm_compute. reflexivity.
Defined.

(** With nothing on record and a per-second or per-minute ceiling of zero
    or less, the wait loop asks for the oldest entry of an empty window. *)
Lemma acquire_wait_raises s now fuel cl sl :
  requests s = [] ->
  current_max_per_second s <= 0 \/ current_max_per_minute s <= 0 ->
  acquire_wait (S fuel) now (World s cl sl) = Raised ValueError (World s cl sl).
Proof.
  intros Hreq Hzero. cbn [acquire_wait]. unfold _can_proceed, _calculate_wait_time, py_min.
  unfold_m. simpl_world. rewrite Hreq. cbn [recent List.filter]. change (len []) with 0.
  destruct (Z.leb_spec (current_max_per_second s) 0) as [H1 | H1].
  { simpl_world. rewrite Hreq. cbn [recent List.filter]. change (len []) with 0.
    apply Z.leb_le in H1. rewrite H1. reflexivity. }
  destruct (Z.leb_spec (current_max_per_minute s) 0) as [H2 | H2]; [| lia].
  simpl_world. rewrite Hreq. cbn [recent List.filter]. change (len []) with 0.
  apply Z.leb_gt in H1. apply Z.leb_le in H2. rewrite H1, H2. reflexivity.
Qed.

(** The same call under a clock that has not gone below zero: the
    limiter is left as it was made. *)
Lemma acquire_zero_ceiling cfg t rest sl :
  (0 <= t)%Q ->
  max_per_second cfg <= 0 \/ max_per_minute cfg <= 0 ->
  acquire (World (init cfg) (t :: rest) sl) = Raised ValueError (World (init cfg) rest sl).
Proof.
  intros Ht Hzero. unfold acquire, time_time, _clean_old_records, init. unfold_m. simpl_world.
  replace (Qltb t 0) with false by (symmetry; apply Qltb_ge; exact Ht).
  simpl_world. cbn [drop_older length].
  rewrite acquire_wait_raises by (simpl_world; auto). reflexivity.
Qed.

(** X2.  On a limiter fresh from [__init__] whose configured maximum per
    second or per minute is zero or less, the first [acquire] does not
    block and does not return: it raises [ValueError] (the [min] of an
    empty window), with no permit recorded and one reading taken off the
    clock. *)
Theorem acquire_raises_on_zero_ceiling cfg t rest sl :
  max_per_second cfg <= 0 \/ max_per_minute cfg <= 0 ->
  exists w',
    acquire (World (init cfg) (t :: rest) sl) = Raised ValueError w' /\
    requests (lim w') = [] /\
    total_requests (stats (lim w')) = 0 /\
    clock w' = rest.
Proof.
  intros Hzero. unfold acquire, time_time, _clean_old_records, init. unfold_m. simpl_world.
  destruct (Qltb t 0); simpl_world; cbn [drop_older length];
    rewrite acquire_wait_raises by (simpl_world; auto);
    eexists; (split; [reflexivity |]); auto.
Qed.

Lemma acquire_raises_on_zero_ceiling_witness :
  (max_per_second zero_per_second <= 0 \/ max_per_minute zero_per_second <= 0) /\
  exists w',
    acquire (World (init zero_per_second) [100%Q] []) = Raised ValueError w' /\
    requests (lim w') = [] /\
    total_requests (stats (lim w')) = 0 /\
    clock w' = [].
Proof.
  split; [left; cbn; lia |].
  apply (acquire_raises_on_zero_ceiling zero_per_second 100 [] []).
  left. cbn. lia.
Defined.

(** Cleaning drops no record that a window of its horizon or a shorter
    one still sees, now or later. *)
Lemma recent_drop_older h H now now' l :
  (h <= H)%Q -> (now <= now')%Q ->
  recent h now' (drop_older H now l) = recent h now' l.
Proof.
  intros Hh Hnow. induction l as [| r l IH]; [reflexivity |].
  cbn [drop_older]. destruct (Qltb H (now - r)) eqn:Hold; [| reflexivity].
  apply Qltb_lt in Hold. rewrite IH. unfold recent. cbn [List.filter].
  replace (Qltb (now' - r) h) with false; [reflexivity |].
  symmetry. apply Qltb_ge. lra.
Qed.

(** X3.  [_clean_old_records now] always returns, and what it drops is
    out of sight: at [now] and at any later reading, every window of at
    most 3600 seconds over the requests and of at most 600 seconds over
    the failures holds the same entries as before, so [_can_proceed]
    answers the same.  What is left of each deque is a tail of what it
    was. *)
Theorem cleaning_keeps_admission now now' w :
  (now <= now')%Q ->
  exists s',
    _clean_old_records now w = Ok tt (World s' (clock w) (slept w)) /\
    _can_proceed s' now' = _can_proceed (lim w) now' /\
    (forall h, (h <= 3600)%Q -> recent h now' (requests s') = recent h now' (requests (lim w))) /\
    (forall h, (h <= 600)%Q -> recent h now' (failures s') = recent h now' (failures (lim w))) /\
    requests s' `suffix_of` requests (lim w) /\
    failures s' `suffix_of` failures (lim w).
Proof.
  intros Hnow. eexists. split; [reflexivity |]. simpl_world.
  assert (Hten : (tenth <= 3600)%Q) by (unfold tenth, Qle; cbn; lia).
  split; [| split; [| split; [| split]]].
  - unfold _can_proceed. simpl_world.
    rewrite !recent_drop_older by first [exact Hnow | exact Hten | lra]. reflexivity.
  - intros h Hh. apply recent_drop_older; assumption.
  - intros h Hh. apply recent_drop_older; assumption.
  - generalize (requests (lim w)). intros l. induction l as [| r l IH]; [reflexivity |].
    cbn [drop_older]. destruct (Qltb _ _); [apply suffix_cons_r, IH | reflexivity].
  - generalize (failures (lim w)). intros l. induction l as [| r l IH]; [reflexivity |].
    cbn [drop_older]. destruct (Qltb _ _); [apply suffix_cons_r, IH | reflexivity].
Qed.

Lemma cleaning_keeps_admission_witness :
  (100 <= 100)%Q /\
  exists s',
    _clean_old_records 100 first_call = Ok tt (World s' (clock first_call) (slept first_call)) /\
    _can_proceed s' 100 = _can_proceed (lim first_call) 100.
Proof.
  split; [lra |].
  destruct (cleaning_keeps_admission 100 100 first_call ltac:(lra)) as (s' & H1 & H2 & _).
  exists s'. split; [exact H1 | exact H2].
Defined.

(** *** A small per-second ceiling never grows *)

Lemma grow_small c : 0 <= c <= 4 -> int_mul c lit_1_2 = Some c.
Proof.
  intros H. assert (c = 0 \/ c = 1 \/ c = 2 \/ c = 3 \/ c = 4) as [-> | [-> | [-> | [-> | ->]]]]
    by lia; reflexivity.
Qed.

Lemma same_ceilings_trans w1 w2 w3 :
  same_ceilings w1 w2 -> same_ceilings w2 w3 -> same_ceilings w1 w3.
Proof. intros (? & ? & ? & ?) (? & ? & ? & ?). repeat split; congruence. Qed.

Lemma increase_rate_small w :
  0 <= current_max_per_second (lim w) <= 4 ->
  current_max_per_second (lim w) <= max_per_second (config (lim w)) ->
  current_max_per_second (lim (after (_increase_rate w))) = current_max_per_second (lim w) /\
  config (lim (after (_increase_rate w))) = config (lim w).
Proof.
  intros Hc Hcfg. unfold _increase_rate, times. unfold_m.
  rewrite (grow_small _ Hc). cbn.
  destruct (int_mul (current_max_per_minute (lim w)) lit_1_2) as [b |]; cbn; [| split; [lia | reflexivity]].
  destruct (int_mul (current_max_per_hour (lim w)) lit_1_2) as [c |]; cbn; [| split; [lia | reflexivity]].
  match goal with |- context [note_adjustment ?o ?w'] =>
    destruct (note_adjustment_after o w') as [st ->] end.
  cbn. split; [lia | reflexivity].
Qed.

Lemma decrease_rate_small w :
  1 <= current_max_per_second (lim w) ->
  1 <= current_max_per_second (lim (after (_decrease_rate w))) <= current_max_per_second (lim w) /\
  config (lim (after (_decrease_rate w))) = config (lim w).
Proof.
  intros Hc. unfold _decrease_rate, times. unfold_m.
  destruct (int_mul (current_max_per_second (lim w)) lit_0_7) as [a |] eqn:Ea; cbn;
    [| split; [lia | reflexivity]].
  apply int_mul_0_7_between in Ea as [Ea _]. specialize (Ea ltac:(lia)).
  destruct (int_mul (current_max_per_minute (lim w)) lit_0_7) as [b |]; cbn; [| split; [lia | reflexivity]].
  destruct (int_mul (current_max_per_hour (lim w)) lit_0_7) as [c |]; cbn; [| split; [lia | reflexivity]].
  match goal with |- context [note_adjustment ?o ?w'] =>
    destruct (note_adjustment_after o w') as [st ->] end.
  cbn. split; [lia | reflexivity].
Qed.

Lemma adjust_all_small l : forall w,
  1 <= current_max_per_second (lim w) <= 4 ->
  current_max_per_second (lim w) <= max_per_second (config (lim w)) ->
  1 <= current_max_per_second (lim (adjust_all l w)) <= current_max_per_second (lim w).
Proof.
  induction l as [| a l IH]; intros w Hc Hcfg; [cbn; lia |].
  cbn [adjust_all fold_left]. change (fold_left _ l ?w0) with (adjust_all l w0).
  assert (Hstep : 1 <= current_max_per_second (lim (after (adjust a w)))
                    <= current_max_per_second (lim w) /\
                  config (lim (after (adjust a w))) = config (lim w)).
  { destruct a; cbn [adjust].
    - apply decrease_rate_small. lia.
    - destruct (increase_rate_small w ltac:(lia) Hcfg) as [-> ->]. split; [lia | reflexivity]. }
  destruct Hstep as [Hs Hk].
  specialize (IH (after (adjust a w)) ltac:(lia) ltac:(rewrite Hk; lia)). lia.
Qed.

(** X4.  A per-second ceiling between 1 and 4 (and not above the
    configured maximum) is left as it is by [_increase_rate], since
    [int(c * 1.2)] is [c] for [c] up to 4; so under any run of shrink and
    grow adjustments it stays between 1 and where it was, and never comes
    back up.  With the default maximum of 2 a ceiling once cut to 1 stays
    1. *)
Theorem small_ceiling_never_grows w :
  1 <= current_max_per_second (lim w) <= 4 ->
  current_max_per_second (lim w) <= max_per_second (config (lim w)) ->
  current_max_per_second (lim (after (_increase_rate w))) = current_max_per_second (lim w) /\
  forall l,
    1 <= current_max_per_second (lim (adjust_all l w)) <= current_max_per_second (lim w).
Proof.
  intros Hc Hcfg. split.
  - apply increase_rate_small; [lia | exact Hcfg].
  - intros l. apply adjust_all_small; assumption.
Qed.

Lemma small_ceiling_never_grows_witness :
  1 <= current_max_per_second (lim cut_to_one) <= 4 /\
  current_max_per_second (lim cut_to_one) <= max_per_second (config (lim cut_to_one)) /\
  current_max_per_second (lim cut_to_one) = 1 /\
  current_max_per_second (lim (after (_increase_rate cut_to_one)))
    = current_max_per_second (lim cut_to_one) /\
  forall l,
    1 <= current_max_per_second (lim (adjust_all l cut_to_one))
      <= current_max_per_second (lim cut_to_one).
Proof.
  split; [vm_compute; split; discriminate |].
  split; [vm_compute; discriminate |].
  split; [reflexivity |].
  apply (small_ceiling_never_grows cut_to_one).
  - vm_compute; split; discriminate.
  - vm_compute; discriminate.
Defined.

(** *** Fixed and burst mode *)

Lemma acquire_wait_same fuel : forall now w, same_ceilings w (after (acquire_wait fuel now w)).
Proof.
  induction fuel as [| fuel IH]; intros now w; [apply same_ceilings_refl |].
  cbn [acquire_wait]. rewrite after_bind. cbn [self].
  destruct (_can_proceed (lim w) now); [apply same_ceilings_refl |].
  rewrite after_bind. pose proof (calculate_wait_time_after now w) as Hc.
  destruct (_calculate_wait_time now w) as [wt w1 | e w1 | w1]; cbn in Hc; subst w1;
    try apply same_ceilings_refl.
  destruct (Qltb 0 wt); [| unfold_m; cbn; repeat split].
  rewrite after_bind. cbn [sleep]. rewrite after_bind. unfold time_time. cbn [clock lim slept].
  destruct (clock w) as [| t rest]; [repeat split |].
  rewrite after_bind. unfold _clean_old_records. unfold_m. cbn.
  eapply same_ceilings_trans; [| apply IH]. repeat split.
Qed.

(** Ceilings kept by a step and by what follows it are kept by both. *)
Lemma same_bind {A B} (m : M A) (k : A -> M B) w :
  same_ceilings w (after (m w)) ->
  (forall a w1, m w = Ok a w1 -> same_ceilings w w1 -> same_ceilings w1 (after (k a w1))) ->
  same_ceilings w (after ((m ≫= k) w)).
Proof.
  intros Hm Hk. rewrite after_bind.
  destruct (m w) as [a w1 | e w1 | w1]; cbn [after] in Hm; [| exact Hm ..].
  eapply same_ceilings_trans; [exact Hm |]. apply Hk; [reflexivity | exact Hm].
Qed.

Lemma time_same w : same_ceilings w (after (time_time w)).
Proof. unfold time_time. destruct (clock w); repeat split. Qed.

Lemma mode_same w w' :
  same_ceilings w w' -> strategy (config (lim w)) <> ADAPTIVE ->
  is_adaptive (strategy (config (lim w'))) = false.
Proof.
  intros (-> & _) H. destruct (strategy (config (lim w))); [reflexivity | | reflexivity].
  exfalso. apply H. reflexivity.
Qed.

Lemma acquire_fixed w :
  strategy (config (lim w)) <> ADAPTIVE -> same_ceilings w (after (acquire w)).
Proof.
  intros Hw. unfold acquire.
  apply same_bind; [apply time_same | intros t w1 _ H1].
  apply same_bind; [apply same_ceilings_refl | intros s w2 Hs H2]. injection Hs as <- <-.
  apply same_bind; [destruct (Qltb _ _); repeat split | intros [] w3 _ H3].
  apply same_bind; [repeat split | intros [] w4 _ H4].
  apply same_bind; [apply same_ceilings_refl | intros fuel w5 _ H5].
  apply same_bind; [apply acquire_wait_same | intros go w6 _ H6].
  destruct go as [now |]; [| apply same_ceilings_refl].
  apply same_bind; [repeat split | intros [] w7 _ H7].
  apply same_bind; [apply same_ceilings_refl | intros s w8 Hs H8]. injection Hs as <- <-.
  assert (Hall : same_ceilings w w7).
  { do 5 (eapply same_ceilings_trans; [eassumption |]). exact H7. }
  rewrite (mode_same _ _ Hall Hw).
  apply same_bind; [apply same_ceilings_refl | intros [] w9 _ _; apply same_ceilings_refl].
Qed.

Lemma record_failure_fixed w :
  strategy (config (lim w)) <> ADAPTIVE -> same_ceilings w (after (record_failure w)).
Proof.
  intros Hw. unfold record_failure.
  apply same_bind; [apply time_same | intros t w1 _ H1].
  apply same_bind; [repeat split | intros [] w2 _ H2].
  apply same_bind; [apply same_ceilings_refl | intros s w3 Hs H3]. injection Hs as <- <-.
  assert (Hall : same_ceilings w w2).
  { eapply same_ceilings_trans; eassumption. }
  rewrite (mode_same _ _ Hall Hw). apply same_ceilings_refl.
Qed.

Lemma perform_fixed c w :
  strategy (config (lim w)) <> ADAPTIVE -> same_ceilings w (after (perform c w)).
Proof.
  intros Hw. destruct c as [| | seconds | | raised]; cbn [perform].
  - apply same_bind; [apply acquire_fixed, Hw | intros; apply same_ceilings_refl].
  - apply record_failure_fixed, Hw.
  - unfold set_cooldown.
    apply same_bind; [apply time_same | intros t w1 _ _; repeat split].
  - repeat split.
  - unfold __aenter__, __aexit__.
    apply same_bind.
    + apply same_bind; [apply acquire_fixed, Hw | intros; apply same_ceilings_refl].
    + intros [] w1 _ H1. destruct raised; [| apply same_ceilings_refl].
      apply record_failure_fixed. destruct H1 as (-> & _). exact Hw.
Qed.

(** X5.  Outside adaptive mode no sequence of calls of [acquire],
    [record_failure], [set_cooldown], [reset_stats] and [async with]
    blocks moves a ceiling or the configuration, however the sequence
    ends. *)
Theorem fixed_mode_never_moves_ceilings l : forall w,
  strategy (config (lim w)) <> ADAPTIVE ->
  same_ceilings w (after (perform_all l w)).
Proof.
  induction l as [| c l IH]; intros w Hw; [apply same_ceilings_refl |].
  cbn [perform_all].
  apply same_bind; [apply perform_fixed, Hw | intros [] w1 _ H1].
  apply IH. destruct H1 as (-> & _). exact Hw.
Qed.

Lemma fixed_mode_never_moves_ceilings_witness :
  strategy (config (lim five_failures_fixed)) <> ADAPTIVE /\
  same_ceilings five_failures_fixed
    (after (perform_all [Acquire; Report_failure; Within_block true] five_failures_fixed)).
Proof.
  split; [discriminate |].
  apply (fixed_mode_never_moves_ceilings [Acquire; Report_failure; Within_block true]
           five_failures_fixed).
  discriminate.
Defined.

(** *** Burst mode *)

Lemma can_proceed_burst s t :
  _can_proceed s t = true -> strategy (config s) = BURST ->
  len (recent tenth t (requests s)) < burst_size (config s).
Proof.
  unfold _can_proceed. intros H Hb. rewrite Hb in H. cbn [is_burst andb] in H.
  repeat (destruct (_ <=? _) eqn:? in H; [discriminate |]).
  apply Z.leb_gt. assumption.
Qed.

(** X6.  In burst mode a granted permit is the last of [requests], and
    the recorded permits within a tenth of a second of it, itself
    included, are no more than [burst_size]. *)
Theorem burst_window_is_kept (w w' : world) :
  strategy (config (lim w)) = BURST ->
  acquire w = Ok true w' ->
  exists now earlier,
    requests (lim w') = earlier ++ [now] /\
    len (recent tenth now (requests (lim w'))) <= burst_size (config (lim w)).
Proof.
  intros Hmode H. unfold acquire in H.
  apply bind_Ok in H as (t0 & w1 & Ht & H).
  unfold time_time in Ht. destruct (clock w) as [| t rest] eqn:Hclk; [discriminate |].
  injection Ht as <- <-.
  apply bind_Ok in H as (s & w1 & Hs & H). injection Hs as <- <-. cbn [lim] in H.
  apply bind_Ok in H as ([] & w1 & Hcool & H).
  assert (Hw1 : config (lim w1) = config (lim w)).
  { destruct (Qltb t (cooldown_until (lim w))); cbn in Hcool; injection Hcool as <-;
      reflexivity. }
  apply bind_Ok in H as ([] & w2 & Hclean & H).
  unfold _clean_old_records in Hclean. cbn in Hclean. injection Hclean as <-.
  apply bind_Ok in H as (fuel & w2 & Hf & H). injection Hf as <- <-.
  apply bind_Ok in H as (go & w3 & Hwait & H).
  destruct go as [now |]; [| discriminate].
  apply acquire_wait_Ok in Hwait as [Hgo (D0 & _)]. cbn in D0.
  apply bind_Ok in H as ([] & w4 & Hrec & H).
  unfold record_permit in Hrec. cbn in Hrec. injection Hrec as <-.
  apply bind_Ok in H as (s & w4 & Hs & H). injection Hs as <- <-.
  apply bind_Ok in H as ([] & w5 & Hadj & H). injection H as <-.
  cbn [lim config set_stats set_requests] in Hadj.
  rewrite D0, Hw1, Hmode in Hadj. cbn in Hadj. injection Hadj as <-.
  apply can_proceed_burst in Hgo; [| congruence].
  exists now, (requests (lim w3)). simpl_world. split; [reflexivity |].
  assert (Hpos : (0 < tenth)%Q) by reflexivity.
  rewrite len_recent_snoc by exact Hpos. rewrite D0, Hw1 in Hgo. lia.
Qed.

Lemma burst_window_is_kept_witness :
  strategy (config (init burst_config)) = BURST /\
  acquire (World (init burst_config) [100%Q] [])
    = Ok true (after (acquire (World (init burst_config) [100%Q] []))) /\
  exists now earlier,
    requests (lim (after (acquire (World (init burst_config) [100%Q] [])))) = earlier ++ [now] /\
    len (recent tenth now (requests (lim (after (acquire (World (init burst_config) [100%Q] []))))))
      <= burst_size (config (init burst_config)).
Proof.
  split; [reflexivity |]. split; [vm_compute; reflexivity |].
  apply (burst_window_is_kept (World (init burst_config) [100%Q] [])
           (after (acquire (World (init burst_config) [100%Q] [])))).
  - reflexivity.
  - vm_compute. reflexivity.
Defined.

(** *** The reported rate *)

(** What [acquire] leaves once it has got past its cooldown. *)
Lemma acquire_Ok_inv w b w' :
  acquire w = Ok b w' ->
  exists t rest w1 w3 now,
    clock w = t :: rest /\
    w1 = (if Qltb t (cooldown_until (lim w))
          then World (set_cooldown_until 0 (lim w)) rest
                     (slept w ++ [(cooldown_until (lim w) - t)%Q])
          else World (lim w) rest (slept w)) /\
    stats (lim w3) = stats (lim w1) /\
    cooldown_until (lim w3) = cooldown_until (lim w1) /\
    same_ceilings w1 w3 /\
    (if is_adaptive (strategy (config (lim w3))) then _adjust_rate else ret tt)
      (World (set_stats
                (MkStats (total_requests (stats (lim w3)) + 1) (blocked_requests (stats (lim w3)))
                         (rate_adjustments (stats (lim w3))) (current_rate (stats (lim w3)))
                         (failure_rate (stats (lim w3))))
                (set_requests (requests (lim w3) ++ [now]) (lim w3)))
             (clock w3) (slept w3)) = Ok tt w'.
Proof.
  unfold acquire. intros H.
  apply bind_Ok in H as (t0 & w1 & Ht & H).
  unfold time_time in Ht. destruct (clock w) as [| t rest] eqn:Hclk; [discriminate |].
  injection Ht as <- <-.
  apply bind_Ok in H as (s & w1 & Hs & H). injection Hs as <- <-. cbn [lim] in H.
  apply bind_Ok in H as ([] & w1 & Hcool & H).
  apply bind_Ok in H as ([] & w2 & Hclean & H).
  unfold _clean_old_records in Hclean. cbn in Hclean. injection Hclean as <-.
  apply bind_Ok in H as (fuel & w2 & Hf & H). injection Hf as <- <-.
  apply bind_Ok in H as (go & w3 & Hwait & H).
  pose proof Hwait as Hwait'.
  apply acquire_wait_grants in Hwait as (now & -> & Hst & Hcd). cbn in Hst, Hcd.
  apply acquire_wait_Ok in Hwait' as [_ Hsame].
  apply bind_Ok in H as ([] & w4 & Hrec & H).
  unfold record_permit in Hrec. cbn in Hrec. injection Hrec as <-.
  apply bind_Ok in H as (s & w4 & Hs & H). injection Hs as <- <-.
  apply bind_Ok in H as ([] & w5 & Hadj & H). injection H as _ <-.
  cbn [lim config set_stats set_requests] in Hadj.
  exists t, rest, w1, w3, now. split; [reflexivity |].
  split.
  { destruct (Qltb t (cooldown_until (lim w))); cbn in Hcool; injection Hcool as <-;
      reflexivity. }
  split; [exact Hst |]. split; [exact Hcd |]. split; [| exact Hadj].
  destruct Hsame as (? & ? & ? & ?). repeat split; assumption.
Qed.

Lemma acquire_reported w b w' :
  acquire w = Ok b w' -> rate_reported (lim w) -> rate_reported (lim w').
Proof.
  intros H Hr. apply acquire_Ok_inv in H as (t & rest & w1 & w3 & now & _ & Hw1 & Hst & _ & Hsame & H).
  assert (Hr1 : rate_reported (lim w1)).
  { subst w1. destruct (Qltb _ _); exact Hr. }
  assert (Hr3 : rate_reported (lim w3)).
  { unfold rate_reported in *. destruct Hsame as (_ & -> & _). rewrite Hst. exact Hr1. }
  destruct (is_adaptive _) in H.
  - apply adjust_rate_stats in H as [_ H]. apply H. exact Hr3.
  - injection H as <-. exact Hr3.
Qed.

Lemma record_failure_reported w w' :
  record_failure w = Ok tt w' -> rate_reported (lim w) -> rate_reported (lim w').
Proof.
  unfold record_failure, _handle_failure. intros H Hr.
  apply bind_Ok in H as (t & w1 & Ht & H).
  unfold time_time in Ht. destruct (clock w) as [| t0 rest]; [discriminate |].
  injection Ht as <- <-.
  apply bind_Ok in H as ([] & w1 & Hu & H). injection Hu as <-.
  apply bind_Ok in H as (s & w1 & Hs & H). injection Hs as <- <-. simpl_world.
  destruct (is_adaptive _); [| injection H as <-; exact Hr].
  apply bind_Ok in H as (t1 & w1 & Ht & H).
  unfold time_time in Ht. cbn in Ht. destruct rest as [| t2 rest]; [discriminate |].
  injection Ht as <- <-.
  apply bind_Ok in H as (s & w1 & Hs & H). injection Hs as <- <-. simpl_world.
  destruct (5 <=? _); [| injection H as <-; exact Hr].
  apply bind_Ok in H as ([] & w1 & Hu & H). injection Hu as <-.
  apply decrease_rate_stats in H as [_ H]. apply H. exact Hr.
Qed.

Lemma perform_reported c w w' :
  perform c w = Ok tt w' -> rate_reported (lim w) -> rate_reported (lim w').
Proof.
  destruct c as [| | seconds | | raised]; cbn [perform]; intros H Hr.
  - apply bind_Ok in H as (b & w1 & Ha & H). injection H as <-.
    eapply acquire_reported; eassumption.
  - eapply record_failure_reported; eassumption.
  - unfold set_cooldown in H. apply bind_Ok in H as (t & w1 & Ht & H).
    unfold time_time in Ht. destruct (clock w); [discriminate |].
    injection Ht as <- <-. injection H as <-. exact Hr.
  - injection H as <-. reflexivity.
  - unfold __aenter__, __aexit__ in H.
    apply bind_Ok in H as ([] & w1 & Ha & H).
    apply bind_Ok in Ha as (b & w2 & Ha & Hret). injection Hret as <-.
    pose proof (acquire_reported _ _ _ Ha Hr) as Hr2.
    destruct raised; [eapply record_failure_reported; eassumption |].
    injection H as <-. exact Hr2.
Qed.

(** X7.  If [stats['current_rate']] is the per-second ceiling, as
    [__init__] and [reset_stats] make it, it is so again after any
    sequence of calls that all return. *)
Theorem reported_rate_is_the_ceiling l : forall w w',
  rate_reported (lim w) ->
  perform_all l w = Ok tt w' ->
  rate_reported (lim w').
Proof.
  induction l as [| c l IH]; intros w w' Hr H.
  - injection H as <-. exact Hr.
  - cbn [perform_all] in H. apply bind_Ok in H as ([] & w1 & Hc & H).
    eapply IH; [| exact H]. eapply perform_reported; eassumption.
Qed.

Lemma reported_rate_is_the_ceiling_witness :
  rate_reported (lim four_failures) /\
  perform_all [Report_failure; Acquire; Clear_stats] four_failures
    = Ok tt (after (perform_all [Report_failure; Acquire; Clear_stats] four_failures)) /\
  current_max_per_second
    (lim (after (perform_all [Report_failure; Acquire; Clear_stats] four_failures))) = 1 /\
  rate_reported (lim (after (perform_all [Report_failure; Acquire; Clear_stats] four_failures))).
Proof.
  split; [reflexivity |]. split; [vm_compute; reflexivity |]. split; [vm_compute; reflexivity |].
  apply (reported_rate_is_the_ceiling [Report_failure; Acquire; Clear_stats] four_failures).
  - reflexivity.
  - vm_compute. reflexivity.
Defined.

(** *** A cooldown set by hand *)

(** X8.  [set_cooldown(seconds)] at reading [t] sets [cooldown_until] to
    [t + seconds] and nothing else.  An [acquire] entered at [now] before
    that first sleeps [t + seconds - now], any further sleep is positive,
    and when it returns [cooldown_until] is back at zero. *)
Theorem manual_cooldown_is_served s t now rest sl seconds :
  (now < t + inject_Z seconds)%Q ->
  let w1 := World (set_cooldown_until (t + inject_Z seconds)%Q s) (now :: rest) sl in
  set_cooldown seconds (World s (t :: now :: rest) sl) = Ok tt w1 /\
  (exists more,
     slept (after (acquire w1)) = sl ++ (t + inject_Z seconds - now)%Q :: more /\
     Forall (fun d => (0 < d)%Q) more) /\
  (forall b w2, acquire w1 = Ok b w2 -> cooldown_until (lim w2) = 0%Q).
Proof.
  intros Hcool w1. split; [reflexivity |]. split.
  - apply (acquire_sleeps_cooldown w1 now rest); [reflexivity | exact Hcool].
  - intros b w2 H.
    apply acquire_Ok_inv in H as (t' & rest' & w1' & w3 & now' & Hclk & Hw1 & _ & Hcd & _ & H).
    injection Hclk as <- <-.
    cbn [lim cooldown_until set_cooldown_until w1] in Hw1.
    apply Qltb_lt in Hcool. rewrite Hcool in Hw1. subst w1'. cbn in Hcd.
    destruct (is_adaptive _) in H.
    + apply adjust_rate_stats in H as [(_ & _ & Hc) _]. cbn in Hc. congruence.
    + injection H as <-. exact Hcd.
Qed.

Lemma manual_cooldown_is_served_witness :
  (101 < 100 + inject_Z 30)%Q /\
  set_cooldown 30 (World (init default_config) [100; 101; 131]%Q [])
    = Ok tt (World (set_cooldown_until (100 + inject_Z 30)%Q (init default_config))
                   [101; 131]%Q []) /\
  (exists more,
     slept (after (acquire (World (set_cooldown_until (100 + inject_Z 30)%Q (init default_config))
                                  [101; 131]%Q [])))
       = [] ++ (100 + inject_Z 30 - 101)%Q :: more /\
     Forall (fun d => (0 < d)%Q) more) /\
  (forall b w2,
     acquire (World (set_cooldown_until (100 + inject_Z 30)%Q (init default_config))
                    [101; 131]%Q []) = Ok b w2 ->
     cooldown_until (lim w2) = 0%Q).
Proof.
  split; [reflexivity |].
  apply (manual_cooldown_is_served (init default_config) 100 101 [131%Q] [] 30).
  reflexivity.
Defined.

End Limiter_more.

(** ** The retry decorator: what a call of [download] costs and returns *)

Module Retry_more.
Import Base Retry.

Lemma calculate_delay_inv self attempt e d e' :
  _calculate_delay self attempt e = Some (d, e') ->
  exists jitter,
    draws e = jitter :: draws e' /\ d = (base_delay self attempt + jitter)%Q /\
    clock e' = clock e /\ slept e' = slept e /\ uuids e' = uuids e /\
    downloads e' = downloads e.
Proof.
  unfold _calculate_delay, random_draw. destruct (draws e) as [| j rest]; [discriminate |].
  cbn. intros [= <- <-]. exists j. repeat split.
Qed.

Lemma next_download_inv e call e' :
  next_download e = Some (call, e') ->
  downloads e = call :: downloads e' /\ clock e' = clock e /\ slept e' = slept e /\
  uuids e' = uuids e /\ draws e' = draws e.
Proof.
  unfold next_download. destruct (downloads e) as [| d rest]; [discriminate |].
  intros [= <- <-]. repeat split.
Qed.

Lemma attempts_trace left : forall attempt last self task e exit self' task' e',
  attempts left attempt last self task e = Some (exit, self', task', e') ->
  (left = O \/ Z.of_nat left + attempt = retry_max_retries self) ->
  trace left self task e self' task' e'.
Proof.
  induction left as [| left IH]; intros attempt last self task e exit self' task' e' H Hrel.
  - injection H as _ <- <- <-. exists [], [], []. rewrite app_nil_r.
    repeat split; try reflexivity; try lia; try intros _; cbn; lia.
  - destruct Hrel as [Hrel | Hrel]; [discriminate |].
    cbn [attempts] in H.
    destruct (next_download e) as [[call e1] |] eqn:Hn; [| discriminate]. cbn in H.
    apply next_download_inv in Hn as (Hd & Hc & Hs & Hu & Hdr).
    set (task0 := if 0 <? attempt then set_status RETRYING task else task) in *.
    assert (Hrc0 : retry_count task0 = retry_count task)
      by (unfold task0; destruct (0 <? attempt); reflexivity).
    assert (Hstop : forall st,
      trace (S left) self task e (set_retry_stats st self) (mutate call task0) e1 \/
      total_retries st <> total_retries (retry_stats self)).
    { intros st.
      destruct (Z.eq_dec (total_retries st) (total_retries (retry_stats self))) as [E | N];
        [left | right; exact N].
      exists [call], [], []. rewrite Hd, Hs, Hdr, app_nil_r. cbn [length app].
      repeat split; try reflexivity; try assumption; try lia.
      - cbn. lia.
      - intros Hk. apply Forall_cons in Hk as [Hk _]. rewrite Hk, Hrc0. cbn. lia. }
    assert (Hgo : forall lastmsg d e2,
      attempt < retry_max_retries self - 1 ->
      _calculate_delay self attempt e1 = Some (d, e2) ->
      attempts left (attempt + 1) lastmsg (count_retry self)
        (set_retry_count (retry_count (mutate call task0) + 1) (mutate call task0))
        (sleep d e2) = Some (exit, self', task', e') ->
      trace (S left) self task e self' task' e').
    { intros lastmsg d e2 Hleft Hdel Hrec.
      apply calculate_delay_inv in Hdel as (j & Hj & _ & Hc2 & Hs2 & Hu2 & Hd2).
      apply IH in Hrec; [| right; cbn; lia].
      destruct Hrec as (used & delays & jitters & U1 & U2 & U3 & U4 & U5 & U6 & U7 & U8
                        & U9 & U10 & U11 & U12 & U13).
      cbn in U1, U2, U3, U7, U8, U9, U10, U11, U12, U13.
      exists (call :: used), (d :: delays), (j :: jitters).
      rewrite Hd, <- Hd2, U1, U2, Hs2, Hs, <- Hdr, Hj, U3, <- app_assoc.
      cbn [length app].
      assert (left <> O) by lia.
      repeat split; try reflexivity; try congruence; try lia.
      intros Hk. apply Forall_cons in Hk as [Hk Hks]. rewrite (U13 Hks), Hk, Hrc0. lia. }
    destruct (outcome call) as [result | raised].
    + destruct (success result).
      { injection H as _ <- <- <-.
        destruct (0 <? attempt);
          [destruct (Hstop (retry_stats (count_recovery self))) as [T | N]
          | destruct (Hstop (retry_stats self)) as [T | N]];
          try (exfalso; apply N; reflexivity).
        - exact T.
        - destruct self. exact T. }
      destruct (_should_retry self result attempt) eqn:Hsr; cbn [negb] in H.
      * destruct (_calculate_delay self attempt e1) as [[d e2] |] eqn:Hdel; [| discriminate].
        cbn in H. eapply Hgo; [| reflexivity | exact H].
        unfold _should_retry in Hsr.
        destruct (Z.leb_spec (retry_max_retries self - 1) attempt); [discriminate | lia].
      * injection H as _ <- <- <-.
        destruct (Hstop (retry_stats self)) as [T | N]; [| exfalso; apply N; reflexivity].
        destruct self. exact T.
    + destruct (Z.ltb_spec attempt (retry_max_retries self - 1)) as [Hlt | Hge].
      * destruct (_calculate_delay self attempt e1) as [[d e2] |] eqn:Hdel; [| discriminate].
        cbn in H. eapply Hgo; [exact Hlt | reflexivity | exact H].
      * injection H as _ <- <- <-.
        destruct (Hstop (retry_stats (count_failure self))) as [T | N];
          [exact T | exfalso; apply N; reflexivity].
Qed.

(** X9.  A call of [RetryStrategy.download] that returns has called the
    wrapped strategy at most [max_retries] times (not at all when
    [max_retries] is zero or less), has slept once between two calls, each
    time for a delay with one random draw, and has raised [total_retries]
    by the number of these sleeps; it has not read the clock.  If the
    wrapped downloads leave the task's retry counter alone, the counter
    has gone up by the number of sleeps, whatever [task.max_retries]. *)
Theorem download_cost self task e result self' task' e' :
  download self task e = Some (result, self', task', e') ->
  exists used delays jitters,
    downloads e = used ++ downloads e' /\
    slept e' = slept e ++ delays /\
    draws e = jitters ++ draws e' /\
    length jitters = length delays /\
    Z.of_nat (length used) <= Z.max 0 (retry_max_retries self) /\
    (0 < retry_max_retries self -> length used = S (length delays)) /\
    total_retries (retry_stats self') =
      total_retries (retry_stats self) + Z.of_nat (length delays) /\
    (Forall keeps_retry_count used ->
       retry_count task' = retry_count task + Z.of_nat (length delays)) /\
    clock e' = clock e /\ uuids e' = uuids e.
Proof.
  unfold download. intros H.
  destruct (attempts _ 0 None self task e) as [[[[exit s1] t1] e1] |] eqn:Ha; [| discriminate].
  apply attempts_trace in Ha.
  2:{ destruct (Z.le_gt_cases (retry_max_retries self) 0).
      - left. destruct (retry_max_retries self); [reflexivity | lia | reflexivity].
      - right. lia. }
  destruct Ha as (used & delays & jitters & U1 & U2 & U3 & U4 & U5 & U6 & U7 & U8
                  & U9 & U10 & U11 & U12 & U13).
  assert (Hend : e' = e1 /\ retry_count task' = retry_count t1 /\
                 total_retries (retry_stats self') = total_retries (retry_stats s1)).
  { cbn in H. destruct exit; injection H as _ <- <- <-; repeat split. }
  destruct Hend as (-> & Ht & Hs).
  exists used, delays, jitters. rewrite Ht, Hs.
  repeat split; try assumption; try lia.
Qed.

Lemma download_cost_witness :
  download default_retry sample_task three_raises
    = Some (failure "unit-1" (exhausted_message default_retry (Some "reset by peer")) 2,
            set_retry_stats (MkRetryStats 2 0 2) default_retry,
            set_status FAILED (set_retry_count 2 (set_status RETRYING sample_task)),
            Env [] [1; 2]%Q [] [] []) /\
  exists used delays jitters,
    downloads three_raises = used ++ [] /\
    [1; 2]%Q = slept three_raises ++ delays /\
    draws three_raises = jitters ++ [] /\
    length jitters = length delays /\
    Z.of_nat (length used) <= Z.max 0 (retry_max_retries default_retry) /\
    (0 < retry_max_retries default_retry -> length used = S (length delays)) /\
    2 = total_retries (retry_stats default_retry) + Z.of_nat (length delays) /\
    (Forall keeps_retry_count used ->
       2 = retry_count sample_task + Z.of_nat (length delays)) /\
    [] = clock three_raises /\ [] = uuids three_raises.
Proof.
  split; [vm_compute; reflexivity |].
  apply (download_cost default_retry sample_task three_raises
           (failure "unit-1" (exhausted_message default_retry (Some "reset by peer")) 2)
           (set_retry_stats (MkRetryStats 2 0 2) default_retry)
           (set_status FAILED (set_retry_count 2 (set_status RETRYING sample_task)))
           (Env [] [1; 2]%Q [] [] [])).
  vm_compute. reflexivity.
Defined.

(** With [max_retries] zero or less the loop is not entered: no call is
    made and the failure made up after the loop is returned. *)
Lemma download_without_attempts self task e :
  retry_max_retries self <= 0 ->
  download self task e =
    Some (failure (task_id task) (exhausted_message self None) (retry_count task),
          count_failure self, set_status FAILED task, e).
Proof.
  intros H. unfold download.
  replace (Z.to_nat (retry_max_retries self)) with O
    by (destruct (retry_max_retries self); [reflexivity | lia | reflexivity]).
  reflexivity.
Qed.

(** One turn of the loop: it ends the loop, or goes on to the next
    attempt. *)
Lemma attempts_step left attempt last self task e exit self' task' e' :
  attempts (S left) attempt last self task e = Some (exit, self', task', e') ->
  Z.of_nat (S left) + attempt = retry_max_retries self ->
  exists call e1 task0,
    next_download e = Some (call, e1) /\
    ((e' = e1 /\ task' = mutate call task0 /\ settled attempt self [] call exit self') \/
     (unsuccessful call /\ attempt < retry_max_retries self - 1 /\
      exists d e2 lastmsg task1,
        _calculate_delay self attempt e1 = Some (d, e2) /\
        attempts left (attempt + 1) lastmsg (count_retry self) task1 (sleep d e2)
          = Some (exit, self', task', e'))).
Proof.
  cbn [attempts]. intros H Hrel.
  destruct (next_download e) as [[call e1] |] eqn:Hn; [| discriminate]. cbn in H.
  set (task0 := if 0 <? attempt then set_status RETRYING task else task) in *.
  exists call, e1, task0. split; [reflexivity |].
  unfold settled, unsuccessful. cbn [length Z.of_nat]. rewrite Z.add_0_r.
  destruct (outcome call) as [result | raised].
  - destruct (success result) eqn:Hsucc.
    { left. injection H as <- <- <- <-. split; [reflexivity |]. split; [reflexivity |].
      split; [reflexivity |]. cbn [andb].
      destruct (0 <? attempt); [split; reflexivity |]. split; [reflexivity | lia]. }
    destruct (_should_retry self result attempt) eqn:Hsr; cbn [negb] in H.
    + right. split; [reflexivity |]. split.
      { unfold _should_retry in Hsr.
        destruct (Z.leb_spec (retry_max_retries self - 1) attempt); [discriminate | lia]. }
      destruct (_calculate_delay self attempt e1) as [[d e2] |] eqn:Hdel; [| discriminate].
      cbn in H. eexists d, e2, _, _. split; [reflexivity | exact H].
    + left. injection H as <- <- <- <-. split; [reflexivity |]. split; [reflexivity |].
      split; [reflexivity |]. cbn [andb]. split; [reflexivity | lia].
  - destruct (Z.ltb_spec attempt (retry_max_retries self - 1)) as [Hlt | Hge].
    + right. split; [exact I |]. split; [exact Hlt |].
      destruct (_calculate_delay self attempt e1) as [[d e2] |] eqn:Hdel; [| discriminate].
      cbn in H. eexists d, e2, _, _. split; [reflexivity | exact H].
    + left. injection H as <- <- <- <-. split; [reflexivity |]. split; [reflexivity |].
      split; [reflexivity |]. cbn. repeat split. lia.
Qed.

(** How the loop is left, told by the last call it made. *)
Lemma attempts_last left : forall attempt last self task e exit self' task' e',
  attempts (S left) attempt last self task e = Some (exit, self', task', e') ->
  Z.of_nat (S left) + attempt = retry_max_retries self ->
  exists earlier call task0,
    downloads e = earlier ++ call :: downloads e' /\
    Forall unsuccessful earlier /\
    task' = mutate call task0 /\
    settled attempt self earlier call exit self'.
Proof.
  induction left as [| left IH]; intros attempt last self task e exit self' task' e' H Hrel.
  all: apply attempts_step in H as (call & e1 & task0 & Hn & [(-> & -> & Hs) | (Hbad & Hlt & Hrec)]);
    [| | exact Hrel].
  all: apply next_download_inv in Hn as (Hd & _).
  all: try (exists [], call, task0; rewrite Hd; repeat split; [constructor | exact Hs]).
  - exfalso. lia.
  - destruct Hrec as (d & e2 & lastmsg & task1 & Hdel & Hrec).
    apply calculate_delay_inv in Hdel as (j & _ & _ & _ & _ & _ & Hd2).
    apply IH in Hrec; [| cbn [retry_max_retries count_retry set_retry_stats]; lia].
    destruct Hrec as (earlier & call' & task2 & E1 & E2 & E3 & E4).
    cbn [downloads sleep] in E1. rewrite Hd2 in E1.
    exists (call :: earlier), call', task2. rewrite Hd, E1.
    split; [reflexivity |]. split; [constructor; assumption |]. split; [exact E3 |].
    unfold settled in *.
    cbn [retry_stats count_retry set_retry_stats failed_retries successful_retries
         retry_max_retries length] in *.
    replace (attempt + Z.of_nat (S (length earlier)))
      with (attempt + 1 + Z.of_nat (length earlier)) by lia.
    exact E4.
Qed.

(** X10.  With [max_retries] positive, what [download] returns is settled
    by its last call of the wrapped strategy, all calls before it having
    failed or raised.  If the last call returned a result, that result is
    handed on as it is, a failure too: the task is as the call left it,
    [failed_retries] is not touched, and [successful_retries] goes up by
    one if the result is a success after an earlier attempt.  If the last
    call raised, it was attempt [max_retries]: the task is set to
    [FAILED], the result is the failure made up after the loop with the
    text of the exception, and [failed_retries] has gone up by two. *)
Theorem download_is_settled_by_last_call self task e result self' task' e' :
  0 < retry_max_retries self ->
  download self task e = Some (result, self', task', e') ->
  exists earlier call task0,
    downloads e = earlier ++ call :: downloads e' /\
    Forall unsuccessful earlier /\
    match outcome call with
    | inl r =>
        result = r /\ task' = mutate call task0 /\
        failed_retries (retry_stats self') = failed_retries (retry_stats self) /\
        successful_retries (retry_stats self') =
          successful_retries (retry_stats self) +
          (if success r && (0 <? Z.of_nat (length earlier)) then 1 else 0)
    | inr text =>
        Z.of_nat (length earlier) = retry_max_retries self - 1 /\
        result = failure (task_id task') (exhausted_message self (Some text))
                         (retry_count task') /\
        task' = set_status FAILED (mutate call task0) /\
        failed_retries (retry_stats self') = failed_retries (retry_stats self) + 2 /\
        successful_retries (retry_stats self') = successful_retries (retry_stats self)
    end.
Proof.
  intros Hpos. unfold download. intros H.
  destruct (Z.to_nat (retry_max_retries self)) as [| left] eqn:Hleft; [lia |].
  destruct (attempts _ 0 None self task e) as [[[[exit s1] t1] e1] |] eqn:Ha; [| discriminate].
  pose proof (attempts_trace _ _ _ _ _ _ _ _ _ _ Ha ltac:(right; lia))
    as (_ & _ & _ & _ & _ & _ & _ & _ & _ & _ & Hmax & _).
  apply attempts_last in Ha; [| lia].
  destruct Ha as (earlier & call & task0 & E1 & E2 & E3 & E4).
  exists earlier, call, task0. cbn in H. unfold settled in E4. rewrite Z.add_0_l in E4.
  destruct (outcome call) as [r | text].
  - destruct E4 as (-> & F & S0). injection H as <- <- <- <-. auto 10.
  - destruct E4 as (-> & L & F & S0). injection H as <- <- <- <-.
    split; [exact E1 |]. split; [exact E2 |]. split; [exact L |].
    unfold exhausted_message. cbn [retry_max_retries count_failure set_retry_stats
      retry_stats failed_retries successful_retries task_id retry_count set_status].
    rewrite Hmax, E3, F, S0. repeat split. lia.
Qed.

Lemma download_is_settled_by_last_call_witness :
  0 < retry_max_retries default_retry /\
  download default_retry sample_task three_raises
    = Some (failure "unit-1" (exhausted_message default_retry (Some "reset by peer")) 2,
            set_retry_stats (MkRetryStats 2 0 2) default_retry,
            set_status FAILED (set_retry_count 2 (set_status RETRYING sample_task)),
            Env [] [1; 2]%Q [] [] []) /\
  exists earlier call task0,
    downloads three_raises = earlier ++ call :: [] /\
    Forall unsuccessful earlier /\
    match outcome call with
    | inl r =>
        failure "unit-1" (exhausted_message default_retry (Some "reset by peer")) 2 = r /\
        set_status FAILED (set_retry_count 2 (set_status RETRYING sample_task))
          = mutate call task0 /\
        2 = failed_retries (retry_stats default_retry) /\
        0 = successful_retries (retry_stats default_retry) +
            (if success r && (0 <? Z.of_nat (length earlier)) then 1 else 0)
    | inr text =>
        Z.of_nat (length earlier) = retry_max_retries default_retry - 1 /\
        failure "unit-1" (exhausted_message default_retry (Some "reset by peer")) 2
          = failure "unit-1" (exhausted_message default_retry (Some text)) 2 /\
        set_status FAILED (set_retry_count 2 (set_status RETRYING sample_task))
          = set_status FAILED (mutate call task0) /\
        2 = failed_retries (retry_stats default_retry) + 2 /\
        0 = successful_retries (retry_stats default_retry)
    end.
Proof.
  split; [cbn; lia |]. split; [vm_compute; reflexivity |].
  apply (download_is_settled_by_last_call default_retry sample_task three_raises
           (failure "unit-1" (exhausted_message default_retry (Some "reset by peer")) 2)
           (set_retry_stats (MkRetryStats 2 0 2) default_retry)
           (set_status FAILED (set_retry_count 2 (set_status RETRYING sample_task)))
           (Env [] [1; 2]%Q [] [] [])).
  - cbn; lia.
  - vm_compute. reflexivity.
Defined.

(** *** The delays *)

(** X11.  The delay before jitter for attempt [attempt >= 0].  With
    exponential backoff it is [2 ^ attempt] up to attempt 4 and 30 from
    attempt 5 on, so between 1 and 30 and never less than for the attempt
    before.  Without, and with a list of delays that is not empty, it is
    an entry of the list, the last one for an attempt beyond the list.
    [_calculate_delay] adds to it one draw of the random source. *)
Theorem backoff_delay_bounds self attempt :
  0 <= attempt ->
  (exponential_backoff self = true ->
     (1 <= base_delay self attempt <= 30)%Q /\
     (base_delay self attempt <= base_delay self (attempt + 1))%Q /\
     (attempt <= 4 -> base_delay self attempt = inject_Z (2 ^ attempt)) /\
     (5 <= attempt -> base_delay self attempt = 30%Q)) /\
  (exponential_backoff self = false -> retry_delays self <> [] ->
     In (base_delay self attempt) (retry_delays self) /\
     (Z.of_nat (length (retry_delays self)) <= attempt ->
        Some (base_delay self attempt) = last (retry_delays self))) /\
  (forall e d e', _calculate_delay self attempt e = Some (d, e') ->
     exists jitter,
       draws e = jitter :: draws e' /\ d = (base_delay self attempt + jitter)%Q).
Proof.
  intros Hat. unfold base_delay. split; [| split].
  - intros ->.
    assert (H1 : 1 <= 2 ^ attempt) by (pose proof (Z.pow_pos_nonneg 2 attempt); lia).
    assert (Hm : 2 ^ attempt <= 2 ^ (attempt + 1)) by (apply Z.pow_le_mono_r; lia).
    split; [| split; [| split]].
    + split.
      * change 1%Q with (inject_Z 1). rewrite <- Zle_Qle. lia.
      * change 30%Q with (inject_Z 30). rewrite <- Zle_Qle. lia.
    + rewrite <- Zle_Qle. lia.
    + intros Hle. f_equal.
      assert (2 ^ attempt <= 2 ^ 4) by (apply Z.pow_le_mono_r; lia).
      change (2 ^ 4) with 16 in *. lia.
    + intros Hge. change 30%Q with (inject_Z 30). f_equal.
      assert (2 ^ 5 <= 2 ^ attempt) by (apply Z.pow_le_mono_r; lia).
      change (2 ^ 5) with 32 in *. lia.
  - intros -> Hne.
    destruct (Z.ltb_spec attempt (Z.of_nat (length (retry_delays self)))) as [Hlt | Hge].
    + split; [| lia]. apply nth_In. lia.
    + assert (Hlast : forall l : list Q, l <> [] ->
                In (List.last l 0%Q) l /\ Some (List.last l 0%Q) = last l).
      { clear. induction l as [| x [| y l] IH]; intros Hne; [congruence | |].
        - split; [left |]; reflexivity.
        - destruct IH as [I1 I2]; [discriminate |]. split; [right; exact I1 | exact I2]. }
      destruct (Hlast _ Hne) as [I1 I2]. split; [exact I1 | intros _; exact I2].
  - intros e d e' H. apply calculate_delay_inv in H as (j & ? & ? & _). eauto.
Qed.

Lemma backoff_delay_bounds_witness :
  0 <= 6 /\
  (1 <= base_delay default_retry 6 <= 30)%Q /\
  base_delay default_retry 6 = 30%Q.
Proof.
  split; [lia |].
  destruct (backoff_delay_bounds default_retry 6 ltac:(lia)) as [H _].
  destruct (H eq_refl) as (H1 & _ & _ & H4).
  split; [exact H1 | apply H4; lia].
Defined.

(** *** The decorator *)

Lemma with_retry_loop_success {A} max rd eb (a : A) rest : forall (fails : list string)
    left attempt last slept,
  (length fails < left)%nat -> Z.of_nat left + attempt = max ->
  with_retry_loop max rd eb left attempt last ((inr <$> fails) ++ inl a :: rest) slept
    = Some (inl a, rest, slept ++ delays_from rd eb attempt (length fails)).
Proof.
  induction fails as [| f fails IH]; intros left attempt last slept Hlen Hrel;
    (destruct left as [| left]; [cbn in Hlen; lia |]).
  - cbn. rewrite app_nil_r. reflexivity.
  - cbn [fmap list_fmap app with_retry_loop length delays_from].
    change (list_fmap _ _ inr fails) with (inr (A := A) <$> fails).
    destruct (Z.ltb_spec attempt (max - 1)) as [_ | Hge]; [| cbn in Hlen; lia].
    rewrite IH by (cbn in Hlen; lia). rewrite <- app_assoc. reflexivity.
Qed.

Lemma with_retry_loop_exhaust {A} max rd eb (rest : list (A + string)) :
  forall (fails : list string) left attempt lastexc slept,
  length fails = left -> Z.of_nat left + attempt = max ->
  with_retry_loop max rd eb left attempt lastexc ((inr <$> fails) ++ rest) slept
    = Some (inr (match last fails with Some x => Some x | None => lastexc end), rest,
            slept ++ delays_from rd eb attempt (pred (length fails))).
Proof.
  induction fails as [| f fails IH]; intros left attempt lastexc slept Hlen Hrel; subst left.
  - cbn. rewrite app_nil_r. reflexivity.
  - cbn [fmap list_fmap app with_retry_loop length].
    change (list_fmap _ _ inr fails) with (inr (A := A) <$> fails).
    rewrite IH by (cbn [length] in Hrel; lia). rewrite (last_cons f fails).
    destruct fails as [| g fails].
    + cbn [length] in *. destruct (Z.ltb_spec attempt (max - 1)) as [Hlt | _]; [lia |].
      reflexivity.
    + destruct (last (g :: fails)) eqn:El; [| apply last_None in El; discriminate].
      cbn [length] in *. destruct (Z.ltb_spec attempt (max - 1)) as [_ | Hge]; [| lia].
      cbn [pred delays_from]. rewrite <- app_assoc. reflexivity.
Qed.

(** X12.  A function decorated with [with_retry] whose calls raise
    [length fails] times, fewer than [max_retries], and then return [a]:
    the wrapper returns [a], has made no further call, and has slept
    before each retry the delay of that attempt. *)
Theorem with_retry_returns_first_success {A} max_retries retry_delays exponential_backoff
    (fails : list string) (a : A) rest slept :
  Z.of_nat (length fails) < max_retries ->
  with_retry max_retries retry_delays exponential_backoff
             ((inr <$> fails) ++ inl a :: rest) slept
    = Some (inl a, rest,
            slept ++ delays_from retry_delays exponential_backoff 0 (length fails)).
Proof.
  intros H. unfold with_retry. apply with_retry_loop_success; lia.
Qed.

Lemma with_retry_returns_first_success_witness :
  Z.of_nat (length ["reset"; "reset"]) < 3 /\
  with_retry 3 None true ((inr <$> ["reset"; "reset"]) ++ inl 7 :: [inl 8]) []
    = Some (inl 7, [inl 8], [] ++ [1; 2]%Q).
Proof.
  split; [cbn; lia |].
  apply (with_retry_returns_first_success 3 None true ["reset"; "reset"] 7 [inl 8] []).
  cbn. lia.
Defined.

(** X13.  A function decorated with [with_retry] whose first
    [max_retries] calls all raise: the wrapper raises the last of these
    exceptions, having slept between the attempts but not after the last.
    With [max_retries] zero or less no call is made and the wrapper's
    [raise last_exception] is [raise None], a [TypeError] ([inr None]). *)
Theorem with_retry_raises_last {A} max_retries retry_delays exponential_backoff
    (fails : list string) (rest : list (A + string)) slept :
  Z.of_nat (length fails) = Z.max 0 max_retries ->
  with_retry max_retries retry_delays exponential_backoff ((inr <$> fails) ++ rest) slept
    = Some (inr (last fails), rest,
            slept ++ delays_from retry_delays exponential_backoff 0 (pred (length fails))).
Proof.
  intros H. unfold with_retry.
  destruct (Z.le_gt_cases max_retries 0) as [Hle | Hgt].
  - destruct fails as [| f fails]; [| cbn [length] in H; lia].
    replace (Z.to_nat max_retries) with O by lia. cbn. rewrite app_nil_r. reflexivity.
  - rewrite (with_retry_loop_exhaust max_retries) by lia.
    destruct (last fails); reflexivity.
Qed.

Lemma with_retry_raises_last_witness :
  Z.of_nat (length ["reset"; "refused"]) = Z.max 0 2 /\
  with_retry 2 (Some [3; 4]%Q) false ((inr <$> ["reset"; "refused"]) ++ [inl 8]) []
    = Some (inr (Some "refused"), [inl 8], [] ++ [3%Q]).
Proof.
  split; [reflexivity |].
  apply (with_retry_raises_last 2 (Some [3; 4]%Q) false ["reset"; "refused"] [inl 8] []).
  reflexivity.
Defined.

End Retry_more.

(** ** The durable queue: restarts, housekeeping, order of service *)

Module Queue_more.
Import Base Queue Queue_facts.

Section Json.
Variable json_dumps : Metadata -> string.
Variable json_loads : string -> option Metadata.

(** *** What a restart delivers *)

Lemma convert_elem tick rows : forall k t,
  t ∈ convert json_loads tick k rows ->
  exists r reading, r ∈ rows /\ _row_to_task json_loads reading r = Some t.
Proof.
  induction rows as [| r rows IH]; intros k t Hin; [inversion Hin |].
  cbn [convert] in Hin.
  destruct (_row_to_task json_loads (tick k) r) as [t0 |] eqn:Hr.
  - apply elem_of_cons in Hin as [-> | Hin].
    + exists r, (tick k). split; [left | exact Hr].
    + destruct (IH _ _ Hin) as (r' & k' & ? & ?). exists r', k'. split; [right |]; assumption.
  - destruct (IH _ _ Hin) as (r' & k' & ? & ?). exists r', k'. split; [right |]; assumption.
Qed.

Lemma elem_convert tick rows : forall k r,
  r ∈ rows -> is_Some (TaskType_of_value (col_task_type r.2)) ->
  exists t reading, t ∈ convert json_loads tick k rows /\
    _row_to_task json_loads reading r = Some t.
Proof.
  induction rows as [| r0 rows IH]; intros k r Hin Hty; [inversion Hin |].
  cbn [convert]. apply elem_of_cons in Hin as [<- | Hin].
  - destruct Hty as [ty Hty].
    assert (exists t, _row_to_task json_loads (tick k) r = Some t) as [t Ht]
      by (unfold _row_to_task; rewrite Hty; eauto).
    rewrite Ht. exists t, (tick k). split; [left | exact Ht].
  - destruct (IH (S k) r Hin Hty) as (t & k' & Ht & Hr). exists t, k'.
    split; [| exact Hr].
    destruct (_row_to_task json_loads (tick k) r0); [right |]; exact Ht.
Qed.

Lemma convert_length tick rows : forall k,
  (length (convert json_loads tick k rows) <= length rows)%nat.
Proof.
  induction rows as [| r rows IH]; intros k; [reflexivity |]. cbn [convert length].
  specialize (IH (S k)). destruct (_row_to_task _ _ _); cbn [length]; lia.
Qed.

(** The rows the recovery selects. *)
Lemma selected_rows stored now id r :
  (id, r) ∈ select_unfinished (reset_processing now stored) <->
  exists r0, stored !! id = Some r0 /\ r = reset_row now r0 /\ recoverable r0.
Proof.
  unfold select_unfinished. rewrite merge_sort_Permutation.
  rewrite list_elem_of_filter, elem_of_map_to_list, reset_processing_fmap, lookup_fmap.
  split.
  - intros [Hu Hl]. destruct (stored !! id) as [r0 |]; [| discriminate].
    injection Hl as <-. exists r0. rewrite unfinished_reset in Hu. auto.
  - intros (r0 & -> & -> & Hrec). split; [apply unfinished_reset, Hrec | reflexivity].
Qed.

Lemma selected_length stored now :
  (length (select_unfinished (reset_processing now stored)) <= size stored)%nat.
Proof.
  unfold select_unfinished. rewrite merge_sort_Permutation.
  etrans; [apply length_filter |].
  rewrite length_map_to_list, reset_processing_fmap, map_size_fmap. reflexivity.
Qed.

(** With room for every row, the channel after a restart is the
    conversion of the selected rows. *)
Lemma init_queue stored max_size now tick :
  max_size <= 0 \/ Z.of_nat (size stored) <= max_size ->
  queue (init json_loads stored max_size now tick) =
  convert json_loads tick 0 (select_unfinished (reset_processing now stored)).
Proof.
  intros Hroom. unfold init, _restore_tasks. cbn [db queue Queue.max_size].
  set (rows := select_unfinished (reset_processing now stored)).
  pose proof (load_within_capacity json_loads max_size tick rows 0 [] 0 ltac:(cbn; lia)) as Hl.
  destruct (load json_loads max_size tick 0 rows [] 0) as [queue n].
  cbn [fst] in *. rewrite Hl. cbn [app]. unfold within_capacity.
  destruct (Z.ltb_spec 0 max_size); [| reflexivity].
  apply take_ge. pose proof (convert_length tick rows 0). pose proof (selected_length stored now).
  fold rows in H1. lia.
Qed.

(** A restart delivers a task for an id exactly when the table holds an
    open row under it, and the task is what [_row_to_task] makes of that
    row once it is reset. *)
Lemma restart_delivers stored max_size now tick :
  well_typed stored ->
  max_size <= 0 \/ Z.of_nat (size stored) <= max_size ->
  (forall t, t ∈ queue (init json_loads stored max_size now tick) ->
     exists r reading, stored !! task_id t = Some r /\ recoverable r /\
       _row_to_task json_loads reading (task_id t, reset_row now r) = Some t) /\
  (forall id r, stored !! id = Some r -> recoverable r ->
     exists t reading, t ∈ queue (init json_loads stored max_size now tick) /\
       _row_to_task json_loads reading (id, reset_row now r) = Some t).
Proof.
  intros Hty Hroom. rewrite (init_queue _ _ _ _ Hroom). split.
  - intros t Hin. apply convert_elem in Hin as ([id r] & reading & Hin & Ht).
    apply selected_rows in Hin as (r0 & Hr0 & -> & Hrec).
    assert (task_id t = id) as ->.
    { unfold _row_to_task in Ht. destruct (TaskType_of_value _); [| discriminate].
      injection Ht as <-. reflexivity. }
    eauto.
  - intros id r Hr Hrec.
    assert (Hin : (id, reset_row now r) ∈ select_unfinished (reset_processing now stored))
      by (apply selected_rows; eauto).
    eapply elem_convert in Hin as (t & reading & Ht & Hconv).
    + exists t, reading. split; [exact Ht | exact Hconv].
    + cbn [snd]. rewrite reset_row_type. exact (Hty id r Hr).
Qed.

Lemma row_to_task_of_task reading now task t :
  open_status (status task) = true ->
  _row_to_task json_loads reading (task_id task, reset_row now (row_of_task json_dumps task))
    = Some t ->
  task_id t = task_id task /\ url t = url task /\ task_type t = task_type task /\
  priority t = priority task /\ retry_count t = retry_count task /\
  max_retries t = max_retries task /\ created_at t = created_at task /\
  status t = PENDING /\ error_message t = None.
Proof.
  intros _. unfold _row_to_task, reset_row, row_of_task. cbn [snd fst col_status].
  destruct (String.eqb _ _); cbn [col_task_type set_status_column];
    rewrite TaskType_round_trip; intros [= <-]; repeat split.
Qed.

Lemma open_row_recoverable task :
  open_status (status task) = true -> recoverable (row_of_task json_dumps task).
Proof.
  unfold recoverable, row_of_task. cbn [col_status].
  destruct (status task); intros H; try discriminate; auto.
Qed.

Lemma add_task_db task q :
  committed (queue_of (add_task json_dumps Works task q))
    = <[task_id task := row_of_task json_dumps task]> (db q) /\
  db (queue_of (add_task json_dumps Works task q))
    = <[task_id task := row_of_task json_dumps task]> (db q).
Proof. unfold add_task. destruct (full _ _); split; reflexivity. Qed.

(** X14.  A task given to [add_task] while the storage works, whether the
    call returned [True] or is held by a full channel, is delivered again
    by the recovery of a later start (one with room for every row of the
    table), if its status was pending, processing or retrying: with its
    id, url, type, priority, retry count and ceiling and creation time,
    as a pending task without error message. *)
Theorem enqueued_unit_survives_restart task q max_size' now tick :
  well_typed (db q) ->
  open_status (status task) = true ->
  let q' := queue_of (add_task json_dumps Works task q) in
  max_size' <= 0 \/ Z.of_nat (size (committed q')) <= max_size' ->
  exists t,
    t ∈ queue (init json_loads (committed q') max_size' now tick) /\
    task_id t = task_id task /\ url t = url task /\ task_type t = task_type task /\
    priority t = priority task /\ retry_count t = retry_count task /\
    max_retries t = max_retries task /\ created_at t = created_at task /\
    status t = PENDING /\ error_message t = None.
Proof.
  intros Hty Hopen q' Hroom.
  destruct (add_task_db task q) as [Hc Hd]. fold q' in Hc, Hd.
  assert (Hty' : well_typed (committed q')).
  { rewrite Hc, <- Hd. apply (add_task_well_typed json_dumps), Hty. }
  destruct (restart_delivers (committed q') max_size' now tick Hty' Hroom) as [_ Hall].
  destruct (Hall (task_id task) (row_of_task json_dumps task)) as (t & reading & Hin & Ht).
  - rewrite Hc. apply lookup_insert_eq.
  - apply open_row_recoverable, Hopen.
  - exists t. split; [exact Hin |]. eapply row_to_task_of_task; eassumption.
Qed.

(** X15.  A task that [get_task] has handed out, and that has a row in the
    table, is delivered again as pending by the recovery of a later
    start; once [update_task_status] has set it to completed or failed,
    no later start delivers a task of that id. *)
Theorem handed_out_unit_comes_back_unless_settled prompt timeout now1 q task q1 :
  well_typed (db q) ->
  is_Some (db q !! task_id task) ->
  get_task json_dumps prompt Works timeout now1 q = Got task q1 ->
  forall max_size' now tick,
    max_size' <= 0 \/ Z.of_nat (size (db q)) <= max_size' ->
    (exists t,
       t ∈ queue (init json_loads (committed q1) max_size' now tick) /\
       task_id t = task_id task /\ status t = PENDING) /\
    (forall outcome error result now2 done q2,
       open_status outcome = false ->
       update_task_status json_dumps Works (task_id task) outcome error result now2 done q1
         = Updated q2 ->
       forall t, t ∈ queue (init json_loads (committed q2) max_size' now tick) ->
                 task_id t <> task_id task).
Proof.
  intros Hty [r0 Hr0] Hget max_size' now tick Hroom.
  unfold get_task in Hget. destruct (_ && _); [discriminate |].
  destruct (queue q) as [| task0 rest]; [discriminate |].
  cbn in Hget. injection Hget as <- <-. cbn [db committed].
  set (f := update_row json_dumps PROCESSING None None now1 now1).
  assert (Hsize : forall g id (m : table), size (alter g id m) = size m).
  { intros g id m. rewrite <- !size_dom, dom_alter_L. reflexivity. }
  assert (Htyf : forall st e res n d id (m : table),
            well_typed m -> well_typed (alter (update_row json_dumps st e res n d) id m)).
  { intros st e res n d id m Hm i r. rewrite lookup_alter.
    case_decide as Hi; [| apply Hm].
    destruct (m !! id) as [r1 |] eqn:E; [| discriminate].
    intros [= <-]. exact (Hm _ _ E). }
  split.
  - destruct (restart_delivers (alter f (task_id task0) (db q)) max_size' now tick)
      as [_ Hall]; [apply Htyf, Hty | rewrite Hsize; exact Hroom |].
    destruct (Hall (task_id task0) (f r0)) as (t & reading & Hin & Ht).
    + rewrite lookup_alter_eq, Hr0. reflexivity.
    + left. reflexivity.
    + exists t. split; [exact Hin |]. unfold _row_to_task in Ht.
      destruct (TaskType_of_value _); [| discriminate]. injection Ht as <-. split; reflexivity.
  - intros outcome error result now2 done q2 Hover Hupd t Hin Hid.
    unfold update_task_status in Hupd. injection Hupd as <-. cbn [db committed] in Hin.
    set (g := update_row json_dumps outcome error result now2 done) in *.
    destruct (restart_delivers (alter g (task_id task0) (alter f (task_id task0) (db q)))
                max_size' now tick) as [Hfrom _];
      [apply Htyf, Htyf, Hty | rewrite !Hsize; exact Hroom |].
    destruct (Hfrom t Hin) as (r & reading & Hr & Hrec & _).
    rewrite Hid, !lookup_alter_eq, Hr0 in Hr. injection Hr as <-.
    unfold recoverable, g, update_row in Hrec. cbn [col_status] in Hrec.
    destruct outcome; try discriminate; destruct Hrec as [? | [? | ?]]; discriminate.
Qed.

(** *** Housekeeping *)

(** X16.  [cleanup_old_tasks(days)] leaves the channel alone, commits,
    and deletes a row exactly when its status is "completed" or "failed"
    and its update time lies before [now - days * 86400]: every other
    row stays as it is and no row appears.  So a row that is pending,
    processing or retrying stays, as does any row updated at the cutoff
    or later, and the recovery of a later start delivers tasks for the
    same ids as it would have from the table before the cleanup. *)
Theorem cleanup_spares_open_rows now days q id r :
  db q !! id = Some r ->
  let q' := cleanup_old_tasks now days q in
  queue q' = queue q /\ max_size q' = max_size q /\ committed q' = db q' /\
  db q' !! id =
    (if (String.eqb (col_status r) "completed" || String.eqb (col_status r) "failed")
        && Qltb (col_updated_at r) (now - inject_Z (days * 86400))
     then None else Some r) /\
  (col_status r = "pending" \/ col_status r = "processing" \/ col_status r = "retrying" ->
     db q' !! id = Some r) /\
  ((now - inject_Z (days * 86400) <= col_updated_at r)%Q -> db q' !! id = Some r) /\
  (forall id', db q !! id' = None -> db q' !! id' = None) /\
  (forall max_size' now' tick id',
     well_typed (db q) ->
     max_size' <= 0 \/ Z.of_nat (size (db q)) <= max_size' ->
     id' ∈ task_id <$> queue (init json_loads (committed q') max_size' now' tick) <->
     id' ∈ task_id <$> queue (init json_loads (db q) max_size' now' tick)).
Proof.
  intros Hrow q'. set (cutoff := (now - inject_Z (days * 86400))%Q).
  assert (Hlook : forall id, db q' !! id =
     match db q !! id with
     | Some r => if old_and_done cutoff r then None else Some r
     | None => None
     end).
  { intros i. unfold q', cleanup_old_tasks. cbn [db]. fold cutoff.
    rewrite map_lookup_filter. destruct (db q !! i) as [r0 |]; [| reflexivity].
    cbn. destruct (old_and_done cutoff r0); cbn; [| reflexivity].
    unfold guard. case_decide as H; [destruct H | reflexivity]. }
  assert (Hopen : forall id r, db q !! id = Some r -> recoverable r -> db q' !! id = Some r).
  { intros i r0 Hr Hrec. rewrite Hlook, Hr. unfold old_and_done.
    destruct Hrec as [E | [E | E]]; rewrite E; reflexivity. }
  split; [reflexivity |]. split; [reflexivity |]. split; [reflexivity |].
  split; [rewrite Hlook, Hrow; reflexivity |]. split.
  { intros Hst. apply Hopen; [exact Hrow |]. unfold recoverable. cbn [TaskStatus_value]. tauto. }
  split.
  { intros Hnew. rewrite Hlook, Hrow. unfold old_and_done.
    replace (Qltb (col_updated_at r) cutoff) with false; [rewrite andb_false_r; reflexivity |].
    symmetry. apply Qltb_ge. exact Hnew. }
  split; [intros i Hi; rewrite Hlook, Hi; reflexivity |].
  intros max_size' now' tick i Hty Hroom.
  change (committed q') with (db q').
  assert (Hsub : db q' ⊆ db q) by apply map_filter_subseteq.
  assert (Hty' : well_typed (db q')).
  { intros j r0 Hr. eapply Hty. eapply lookup_weaken; eassumption. }
  assert (Hroom' : max_size' <= 0 \/ Z.of_nat (size (db q')) <= max_size').
  { destruct Hroom as [? | ?]; [left; assumption | right].
    apply map_subseteq_size in Hsub. lia. }
  destruct (restart_delivers (db q') max_size' now' tick Hty' Hroom') as [F1 T1].
  destruct (restart_delivers (db q) max_size' now' tick Hty Hroom) as [F2 T2].
  assert (Hid : forall reading j r0 t,
            _row_to_task json_loads reading (j, r0) = Some t -> task_id t = j).
  { intros reading j r0 t Ht. unfold _row_to_task in Ht.
    destruct (TaskType_of_value _); [| discriminate]. injection Ht as <-. reflexivity. }
  rewrite !list_elem_of_fmap. split; intros (t & -> & Hin).
  + destruct (F1 t Hin) as (r0 & reading & Hr & Hrec & _).
    destruct (T2 (task_id t) r0) as (t' & reading' & Hin' & Ht'); [| exact Hrec |].
    { eapply lookup_weaken; eassumption. }
    exists t'. split; [| exact Hin']. symmetry. eapply Hid, Ht'.
  + destruct (F2 t Hin) as (r0 & reading & Hr & Hrec & _).
    destruct (T1 (task_id t) r0) as (t' & reading' & Hin' & Ht'); [| exact Hrec |].
    { apply Hopen; assumption. }
    exists t'. split; [| exact Hin']. symmetry. eapply Hid, Ht'.
Qed.

(** *** Order of service *)

Lemma add_tasks_channel tasks : forall q,
  max_size q <= 0 \/ Z.of_nat (length (queue q) + length tasks) <= max_size q ->
  queue (add_tasks json_dumps tasks q) = queue q ++ tasks /\
  max_size (add_tasks json_dumps tasks q) = max_size q /\
  (forall id, is_Some (db q !! id) \/ id ∈ task_id <$> tasks ->
              is_Some (db (add_tasks json_dumps tasks q) !! id)).
Proof.
  induction tasks as [| task tasks IH]; intros q Hroom.
  - cbn. rewrite app_nil_r. repeat split. intros id [H | H]; [exact H | inversion H].
  - cbn [add_tasks fold_left]. change (fold_left _ tasks ?q0) with (add_tasks json_dumps tasks q0).
    assert (Hfull : full (max_size q) (queue q) = false).
    { unfold full. cbn [length] in Hroom.
      destruct (Z.ltb_spec 0 (max_size q)); [| reflexivity].
      destruct (Z.leb_spec (max_size q) (Z.of_nat (length (queue q)))); [lia | reflexivity]. }
    assert (Hadd : queue_of (add_task json_dumps Works task q) =
              MkQueue (<[task_id task := row_of_task json_dumps task]> (db q))
                      (<[task_id task := row_of_task json_dumps task]> (db q))
                      (queue q ++ [task]) (max_size q))
      by (unfold add_task; rewrite Hfull; reflexivity).
    rewrite Hadd.
    match goal with |- context [add_tasks _ tasks ?q0] => destruct (IH q0) as (I1 & I2 & I3) end.
    { cbn [queue Queue.max_size]. rewrite length_app. cbn [length] in *. lia. }
    cbn [queue Queue.max_size db] in I1, I2, I3.
    rewrite I1, I2, <- app_assoc. split; [reflexivity |]. split; [reflexivity |].
    intros id H. apply I3. rewrite fmap_cons in H.
    destruct (decide (id = task_id task)) as [-> | Hne].
    + left. rewrite lookup_insert_eq. eauto.
    + destruct H as [H | H]; [left; rewrite lookup_insert_ne by congruence; exact H |].
      apply elem_of_cons in H as [? | H]; [congruence | right; exact H].
Qed.

Lemma get_tasks_channel prompt timeout now : forall tasks q rest,
  (0 < timeout)%Q \/ prompt = true ->
  queue q = tasks ++ rest ->
  exists q2,
    get_tasks json_dumps (length tasks) prompt timeout now q = (tasks, q2) /\
    queue q2 = rest /\ max_size q2 = max_size q /\
    (forall id r, db q !! id = Some r ->
       exists r', db q2 !! id = Some r' /\
         (id ∈ task_id <$> tasks \/ col_status r = TaskStatus_value PROCESSING ->
          col_status r' = TaskStatus_value PROCESSING)).
Proof.
  intros tasks. induction tasks as [| task tasks IH]; intros q rest Hgo Hq.
  - exists q. cbn. split; [reflexivity |]. split; [exact Hq |]. split; [reflexivity |].
    intros id r Hr. exists r. split; [exact Hr |]. intros [H | H]; [inversion H | exact H].
  - cbn [length get_tasks]. unfold get_task.
    replace (Qle_bool timeout 0 && negb prompt) with false.
    2:{ symmetry. apply andb_false_iff. destruct Hgo as [Hpos | ->]; [left | right; reflexivity].
        apply not_true_iff_false. rewrite Qle_bool_iff. apply Qlt_not_le, Hpos. }
    rewrite Hq. cbn [app update_task_status].
    match goal with |- context [get_tasks _ _ _ _ _ ?q0] =>
      destruct (IH q0 rest Hgo eq_refl) as (q2 & I1 & I2 & I3 & I4) end.
    rewrite I1. exists q2. split; [reflexivity |]. split; [exact I2 |]. split; [exact I3 |].
    cbn [db] in I4. intros id r Hr.
    destruct (decide (id = task_id task)) as [-> | Hne].
    + destruct (I4 (task_id task)
                  (update_row json_dumps PROCESSING None None now now r)) as (r' & Hr' & Hst).
      { rewrite lookup_alter_eq, Hr. reflexivity. }
      exists r'. split; [exact Hr' |]. intros _. apply Hst. right. reflexivity.
    + destruct (I4 id r) as (r' & Hr' & Hst).
      { rewrite lookup_alter_ne by congruence. exact Hr. }
      exists r'. split; [exact Hr' |]. intros [H | H]; apply Hst; [left | right; exact H].
      rewrite fmap_cons in H. apply elem_of_cons in H as [? | H]; [congruence | exact H].
Qed.

(** X17.  Tasks given to [add_task] one after the other, the channel
    empty before and large enough, come out of as many calls of
    [get_task] in the order they were put in, whatever their priorities;
    the channel is then empty, a further [get_task] answers [None], and
    the row of each of the tasks says "processing". *)
Theorem channel_is_first_in_first_out tasks q prompt timeout now :
  queue q = [] ->
  max_size q <= 0 \/ Z.of_nat (length tasks) <= max_size q ->
  (0 < timeout)%Q ->
  let q1 := add_tasks json_dumps tasks q in
  exists q2,
    get_tasks json_dumps (length tasks) prompt timeout now q1 = (tasks, q2) /\
    queue q2 = [] /\
    get_task json_dumps prompt Works timeout now q2 = No_task q2 /\
    (forall task, task ∈ tasks ->
       exists r, db q2 !! task_id task = Some r /\
                 col_status r = TaskStatus_value PROCESSING).
Proof.
  intros Hempty Hroom Hpos q1.
  destruct (add_tasks_channel tasks q) as (A1 & A2 & A3).
  { rewrite Hempty. cbn [length]. lia. }
  rewrite Hempty in A1. cbn [app] in A1.
  destruct (get_tasks_channel prompt timeout now tasks q1 [])
    as (q2 & G1 & G2 & G3 & G4); [left; exact Hpos | rewrite app_nil_r; exact A1 |].
  exists q2. split; [exact G1 |]. split; [exact G2 |]. split.
  - unfold get_task. rewrite G2. destruct (_ && _); reflexivity.
  - intros task Hin.
    destruct (A3 (task_id task)) as [r Hr].
    { right. apply list_elem_of_fmap. eauto. }
    destruct (G4 _ _ Hr) as (r' & Hr' & Hst). exists r'. split; [exact Hr' |].
    apply Hst. left. apply list_elem_of_fmap. eauto.
Qed.

End Json.

Lemma enqueued_unit_survives_restart_witness :
  well_typed (db routine_then_urgent) /\
  open_status (status urgent) = true /\
  (10 <= 0 \/
   Z.of_nat (size (committed (queue_of (add_task plain_dumps Works urgent
                                           routine_then_urgent)))) <= 10) /\
  exists t,
    t ∈ queue (init plain_loads
                 (committed (queue_of (add_task plain_dumps Works urgent routine_then_urgent)))
                 10 50 (fun _ => 50%Q)) /\
    task_id t = task_id urgent /\ url t = url urgent /\ task_type t = task_type urgent /\
    priority t = priority urgent /\ retry_count t = retry_count urgent /\
    max_retries t = max_retries urgent /\ created_at t = created_at urgent /\
    status t = PENDING /\ error_message t = None.
Proof.
  assert (Hty : well_typed (db routine_then_urgent)).
  { unfold well_typed. apply (bool_decide_unpack _). vm_compute. reflexivity. }
  assert (Hroom : 10 <= 0 \/
    Z.of_nat (size (committed (queue_of (add_task plain_dumps Works urgent
                                            routine_then_urgent)))) <= 10).
  { right. vm_compute. discriminate. }
  split; [exact Hty |]. split; [reflexivity |]. split; [exact Hroom |].
  apply (enqueued_unit_survives_restart plain_dumps plain_loads urgent routine_then_urgent
           10 50 (fun _ => 50%Q) Hty eq_refl Hroom).
Defined.

Lemma handed_out_unit_comes_back_unless_settled_witness :
  well_typed (db routine_then_urgent) /\
  is_Some (db routine_then_urgent !! task_id routine) /\
  exists q1,
    get_task plain_dumps false Works 1 3 routine_then_urgent = Got routine q1 /\
    exists t,
      t ∈ queue (init plain_loads (committed q1) 0 50 (fun _ => 50%Q)) /\
      task_id t = task_id routine /\ status t = PENDING.
Proof.
  assert (Hty : well_typed (db routine_then_urgent)).
  { unfold well_typed. apply (bool_decide_unpack _). vm_compute. reflexivity. }
  assert (Hrow : is_Some (db routine_then_urgent !! task_id routine)).
  { vm_compute. eauto. }
  split; [exact Hty |]. split; [exact Hrow |].
  eexists. split; [reflexivity |].
  eapply (handed_out_unit_comes_back_unless_settled plain_dumps plain_loads false 1 3
            routine_then_urgent routine _ Hty Hrow eq_refl 0 50 (fun _ => 50%Q)).
  left. lia.
Defined.

(** With a cutoff seven days before second 1000000, the finished row of
    long ago goes and the two others stay. *)
Lemma cleanup_spares_open_rows_witness :
  let q := MkQueue mixed_store mixed_store [] 10000 in
  let q' := cleanup_old_tasks 1000000 7 q in
  col_status <$> db q !! "old" = Some "completed" /\
  db q' !! "old" = None /\
  col_status <$> db q !! "new" = Some "failed" /\
  db q' !! "new" = db q !! "new" /\
  col_status <$> db q !! "b" = Some "pending" /\
  db q' !! "b" = db q !! "b" /\
  dom (db q') = ({["new"; "b"]} : gset string).
Proof.
  intros q q'.
  destruct (db q !! "old") as [r1 |] eqn:H1; [| vm_compute in H1; discriminate].
  destruct (db q !! "new") as [r2 |] eqn:H2; [| vm_compute in H2; discriminate].
  destruct (db q !! "b") as [r3 |] eqn:H3; [| vm_compute in H3; discriminate].
  pose proof (cleanup_spares_open_rows plain_loads 1000000 7 q "old" r1 H1)
    as (_ & _ & _ & Hold & _).
  pose proof (cleanup_spares_open_rows plain_loads 1000000 7 q "new" r2 H2)
    as (_ & _ & _ & _ & _ & Hnew & _).
  pose proof (cleanup_spares_open_rows plain_loads 1000000 7 q "b" r3 H3)
    as (_ & _ & _ & _ & Hb & _).
  vm_compute in H1, H2, H3.
  injection H1 as <-. injection H2 as <-. injection H3 as <-.
  split; [reflexivity |]. split; [exact Hold |]. split; [reflexivity |].
  split; [apply Hnew; vm_compute; discriminate |]. split; [reflexivity |].
  split; [apply Hb; left; reflexivity |].
  vm_compute. reflexivity.
Defined.

Lemma channel_is_first_in_first_out_witness :
  queue (init plain_loads ∅ 10000 0 (fun _ => 0%Q)) = [] /\
  (0 < 1)%Q /\
  exists q2,
    get_tasks plain_dumps 2 false 1 3
      (add_tasks plain_dumps [routine; urgent] (init plain_loads ∅ 10000 0 (fun _ => 0%Q)))
      = ([routine; urgent], q2) /\
    queue q2 = [] /\
    get_task plain_dumps false Works 1 3 q2 = No_task q2 /\
    (forall task, task ∈ [routine; urgent] ->
       exists r, db q2 !! task_id task = Some r /\
                 col_status r = TaskStatus_value PROCESSING).
Proof.
  split; [reflexivity |]. split; [reflexivity |].
  apply (channel_is_first_in_first_out plain_dumps [routine; urgent]
           (init plain_loads ∅ 10000 0 (fun _ => 0%Q)) false 1 3).
  - reflexivity.
  - right. vm_compute. discriminate.
  - reflexivity.
Defined.

End Queue_more.

(** ** The orchestrator: the chain, batches, the ledger, the ceiling *)

Module Orchestrator_more.
Import Base Orchestrator Orchestrator_facts.

(** *** The strategy chain *)

Lemma insert_desc_perm {A} (key : A -> Z) x l : insert_desc key x l ≡ₚ x :: l.
Proof.
  induction l as [| y l IH]; [reflexivity |]. cbn.
  destruct (key x <? key y); [| reflexivity].
  rewrite IH. apply Permutation_swap.
Qed.

Lemma sort_desc_perm {A} (key : A -> Z) l : sort_desc key l ≡ₚ l.
Proof.
  induction l as [| x l IH]; [reflexivity |]. cbn [sort_desc fold_right].
  rewrite insert_desc_perm. constructor. exact IH.
Qed.

Lemma insert_desc_descending {A} (key : A -> Z) x l :
  descending key l -> descending key (insert_desc key x l).
Proof.
  unfold descending. induction 1 as [| y l Hs IH Hy]; [repeat constructor |].
  cbn. destruct (Z.ltb_spec (key x) (key y)) as [Hlt | Hge].
  - constructor; [exact IH |]. rewrite insert_desc_perm. constructor; [lia | exact Hy].
  - constructor; [constructor; assumption |].
    constructor; [lia |]. eapply Forall_impl; [exact Hy |]. cbn. intros; lia.
Qed.

Lemma sort_desc_descending {A} (key : A -> Z) l : descending key (sort_desc key l).
Proof.
  induction l as [| x l IH]; [constructor |]. cbn [sort_desc fold_right].
  apply insert_desc_descending, IH.
Qed.

(** Entries of one key keep their order. *)
Lemma insert_desc_stable {A} (key : A -> Z) k x l :
  descending key l ->
  filter (fun y => key y = k) (insert_desc key x l) =
  filter (fun y => key y = k) (x :: l).
Proof.
  unfold descending. induction 1 as [| y l Hs IH Hy]; [reflexivity |].
  cbn [insert_desc]. destruct (Z.ltb_spec (key x) (key y)) as [Hlt | Hge]; [| reflexivity].
  rewrite filter_cons, IH, !filter_cons.
  destruct (decide (key y = k)) as [Ey | Ny]; destruct (decide (key x = k)) as [Ex | Nx];
    try reflexivity.
  lia.
Qed.

Lemma sort_desc_stable {A} (key : A -> Z) k l :
  filter (fun y => key y = k) (sort_desc key l) = filter (fun y => key y = k) l.
Proof.
  induction l as [| x l IH]; [reflexivity |]. cbn [sort_desc fold_right].
  rewrite insert_desc_stable by apply sort_desc_descending.
  rewrite !filter_cons. fold (sort_desc key l). rewrite IH. reflexivity.
Qed.

(** X18.  After [register_strategy] the chain holds the strategies it held
    and the new one, in descending order of priority, and strategies of
    one priority stand in the order they were registered; the two lanes
    of tasks are not touched. *)
Theorem register_strategy_keeps_chain_ordered s o :
  descending get_priority (strategies (register_strategy s o)) /\
  strategies (register_strategy s o) ≡ₚ strategies o ++ [s] /\
  (forall k,
     filter (fun y => get_priority y = k) (strategies (register_strategy s o)) =
     filter (fun y => get_priority y = k) (strategies o ++ [s])) /\
  pending_queue (register_strategy s o) = pending_queue o /\
  priority_tasks (register_strategy s o) = priority_tasks o.
Proof.
  unfold register_strategy. cbn [strategies pending_queue priority_tasks].
  split; [apply sort_desc_descending |]. split; [apply sort_desc_perm |].
  split; [intros k; apply sort_desc_stable |]. split; reflexivity.
Qed.

(** *** A task no strategy takes *)

Lemma try_strategies_none todo last task e :
  Forall (fun s => can_handle s task = false) todo ->
  try_strategies todo last task e = Some (None, todo, last, task, e).
Proof.
  induction 1 as [| s todo Hs _ IH]; [reflexivity |].
  cbn [try_strategies]. rewrite Hs. cbn [negb]. rewrite IH. reflexivity.
Qed.

(** X19.  If no strategy of the chain can handle the task (or the chain is
    empty), [_execute_task] makes no download and returns a failure with
    the text "所有策略都失败: None" and the task's retry count; task,
    orchestrator and environment are as they were. *)
Theorem task_without_strategy_fails_at_once task o e :
  Forall (fun s => can_handle s task = false) (strategies o) ->
  _execute_task task o e =
    Some (failure (task_id task) "所有策略都失败: None" (retry_count task), task, o, e).
Proof.
  intros H. unfold _execute_task. rewrite (try_strategies_none _ _ _ _ H).
  destruct o. reflexivity.
Qed.

Lemma task_without_strategy_fails_at_once_witness :
  Forall (fun s => can_handle s Retry.sample_task = false)
         (strategies (Orch default_config [] None [] [] ∅ [] [] (MkStats 0 0 0 0))) /\
  _execute_task Retry.sample_task (Orch default_config [] None [] [] ∅ [] [] (MkStats 0 0 0 0))
                quiet =
    Some (failure "unit-1" "所有策略都失败: None" 0, Retry.sample_task,
          Orch default_config [] None [] [] ∅ [] [] (MkStats 0 0 0 0), quiet).
Proof.
  split; [constructor |].
  apply (task_without_strategy_fails_at_once Retry.sample_task
           (Orch default_config [] None [] [] ∅ [] [] (MkStats 0 0 0 0)) quiet).
  constructor.
Defined.

(** *** Batches *)

Lemma sort_desc_append {A} (key : A -> Z) x l :
  descending key l -> Forall (fun y => key x <= key y) l ->
  sort_desc key (l ++ [x]) = l ++ [x].
Proof.
  intros Hd Hall. destruct (sort_desc_snoc key x l Hd) as (l1 & l2 & -> & -> & _ & H2).
  destruct l2 as [| y l2]; [rewrite app_nil_r; reflexivity |].
  apply Forall_app in Hall as [_ Hall].
  apply Forall_cons in Hall as [? _], H2 as [? _]. lia.
Qed.

Lemma add_batch_from_lanes total : forall urls i type o e ids o' e',
  add_batch_from total i urls type o e = Some (ids, o', e') ->
  Z.of_nat (i + length urls) = total ->
  descending priority (priority_tasks o) ->
  Forall (fun t => total - Z.of_nat i <= priority t) (priority_tasks o) ->
  exists new,
    (if priority_queue (config o)
     then priority_tasks o' = priority_tasks o ++ new /\ pending_queue o' = pending_queue o
     else pending_queue o' = pending_queue o ++ new /\ priority_tasks o' = priority_tasks o) /\
    url <$> new = urls /\ task_id <$> new = ids /\
    priority <$> new = (fun k => total - Z.of_nat k) <$> seq i (length urls) /\
    Forall (fun t => status t = PENDING /\ retry_count t = 0) new /\
    total_tasks (stats o') = total_tasks (stats o) + Z.of_nat (length urls) /\
    config o' = config o.
Proof.
  induction urls as [| u urls IH]; intros i type o e ids o' e' H Hlen Hd Hall.
  - injection H as <- <- <-. exists []. rewrite !app_nil_r. cbn.
    destruct (priority_queue _); repeat split; try constructor; lia.
  - cbn [add_batch_from] in H.
    destruct (add_task u type (total - Z.of_nat i) o e) as [[[id o1] e1] |] eqn:Ha;
      [| discriminate]. cbn in H.
    destruct (add_batch_from total (S i) urls type o1 e1) as [[[ids1 o2] e2] |] eqn:Hb;
      [| discriminate]. cbn in H. injection H as <- <- <-.
    apply add_task_inv in Ha as (rids & c & r1 & upd & r2 & _ & _ & _ & _ & Ho1).
    cbn zeta in Ho1. cbn [length] in Hlen.
    set (task := Task id u (default (_detect_task_type u) type) (total - Z.of_nat i) 0 3
                      PENDING ∅ c upd None) in *.
    assert (Hpos : (0 <? total - Z.of_nat i) = true) by (apply Z.ltb_lt; lia).
    rewrite Hpos, andb_true_r in Ho1.
    assert (Hcfg : config o1 = config o) by (subst o1; destruct (priority_queue _); reflexivity).
    assert (Hd1 : descending priority (priority_tasks o1) /\
                  Forall (fun t => total - Z.of_nat (S i) <= priority t) (priority_tasks o1)).
    { subst o1. destruct (priority_queue (config o));
        cbn [priority_tasks count_task set_queues].
      - rewrite sort_desc_append by assumption. split.
        + unfold descending. apply StronglySorted_app. repeat split; [| exact Hd | repeat constructor].
          intros x1 x2 Hx1 Hx2. apply list_elem_of_singleton in Hx2 as ->.
          rewrite Forall_forall in Hall. apply Hall, Hx1.
        + apply Forall_app. split.
          * eapply Forall_impl; [exact Hall |]. cbn. intros; lia.
          * repeat constructor. cbn. lia.
      - split; [exact Hd |]. eapply Forall_impl; [exact Hall |]. cbn. intros; lia. }
    destruct Hd1 as [Hd1 Hall1].
    destruct (IH (S i) type o1 e1 ids1 o2 e2 Hb ltac:(lia) Hd1 Hall1)
      as (new & Hl & Hu & Hi & Hp & Hs & Ht & Hc).
    exists (task :: new). rewrite Hcfg in Hl.
    split.
    { subst o1. destruct (priority_queue (config o)); destruct Hl as [L1 L2];
        cbn [priority_tasks pending_queue count_task set_queues] in L1, L2; rewrite L1, L2.
      - rewrite sort_desc_append by assumption. rewrite <- app_assoc. split; reflexivity.
      - rewrite <- app_assoc. split; reflexivity. }
    rewrite !fmap_cons, Hu, Hi, Hp. cbn [seq fmap list_fmap length].
    split; [reflexivity |]. split; [reflexivity |]. split; [reflexivity |].
    split; [constructor; [split; reflexivity | exact Hs] |].
    split; [| congruence].
    rewrite Ht. subst o1. destruct (priority_queue (config o)); cbn; lia.
Qed.

(** X20.  [add_batch] on an orchestrator whose priority list is empty
    gives the urls the priorities [len(urls)], ..., 1, all positive, and
    returns the ids in the order of the urls.  With the priority-queue
    feature on, the priority list then holds exactly the new tasks in the
    order of the urls; with it off they stand in that order at the end of
    the FIFO channel.  [total_tasks] has gone up by the number of urls. *)
Theorem batch_is_queued_in_order urls type o e ids o' e' :
  add_batch urls type o e = Some (ids, o', e') ->
  priority_tasks o = [] ->
  exists new,
    (if priority_queue (config o)
     then priority_tasks o' = new /\ pending_queue o' = pending_queue o
     else pending_queue o' = pending_queue o ++ new /\ priority_tasks o' = []) /\
    url <$> new = urls /\ task_id <$> new = ids /\
    priority <$> new = (fun k => Z.of_nat (length urls) - Z.of_nat k) <$> seq 0 (length urls) /\
    Forall (fun t => 0 < priority t) new /\
    total_tasks (stats o') = total_tasks (stats o) + Z.of_nat (length urls).
Proof.
  unfold add_batch. intros H Hempty.
  apply add_batch_from_lanes in H; [| lia | rewrite Hempty; constructor
                                     | rewrite Hempty; constructor].
  destruct H as (new & Hl & Hu & Hi & Hp & _ & Ht & _).
  exists new. rewrite Hempty in Hl. cbn [app] in Hl.
  split; [exact Hl |]. split; [exact Hu |]. split; [exact Hi |]. split; [exact Hp |].
  split; [| exact Ht].
  apply Forall_fmap with (f := priority) (P := fun p => 0 < p). rewrite Hp.
  apply Forall_fmap, Forall_forall. intros k Hk. apply elem_of_seq in Hk. cbn. lia.
Qed.

Lemma batch_is_queued_in_order_witness :
  priority_tasks (init default_config) = [] /\
  exists o' e',
    add_batch ["https://www.douyin.com/video/1"; "https://www.douyin.com/user/2"] None
              (init default_config) two_ids = Some (["unit-1"; "unit-2"], o', e') /\
    exists new,
      (if priority_queue (config (init default_config))
       then priority_tasks o' = new /\ pending_queue o' = pending_queue (init default_config)
       else pending_queue o' = pending_queue (init default_config) ++ new /\
            priority_tasks o' = []) /\
      url <$> new = ["https://www.douyin.com/video/1"; "https://www.douyin.com/user/2"] /\
      task_id <$> new = ["unit-1"; "unit-2"] /\
      priority <$> new = (fun k => Z.of_nat 2 - Z.of_nat k) <$> seq 0 2 /\
      Forall (fun t => 0 < priority t) new /\
      total_tasks (stats o') = total_tasks (stats (init default_config)) + Z.of_nat 2.
Proof.
  split; [reflexivity |]. eexists _, _. split; [vm_compute; reflexivity |].
  eapply (batch_is_queued_in_order
            ["https://www.douyin.com/video/1"; "https://www.douyin.com/user/2"] None
            (init default_config) two_ids ["unit-1"; "unit-2"]).
  - vm_compute. reflexivity.
  - reflexivity.
Defined.

(** *** What a turn of a worker does to the books *)

Lemma get_next_task_books o :
  match _get_next_task o with
  | (Some task, o1) =>
      ((pending_queue o = task :: pending_queue o1 /\ priority_tasks o1 = priority_tasks o) \/
       (priority_tasks o = task :: priority_tasks o1 /\ pending_queue o1 = pending_queue o)) /\
      completed_tasks o1 = completed_tasks o /\ failed_tasks o1 = failed_tasks o /\
      stats o1 = stats o /\ strategies o1 = strategies o /\ rate_limiter o1 = rate_limiter o /\
      config o1 = config o
  | (None, o1) => o1 = o
  end.
Proof.
  unfold _get_next_task. destruct (priority_tasks o) as [| t rest] eqn:Ep.
  - destruct (pending_queue o) as [| t rest] eqn:Eq; [reflexivity |].
    cbn. rewrite ?Ep. repeat split. left. split; reflexivity.
  - cbn. repeat split. right. split; reflexivity.
Qed.

Lemma permit_books o e g o' e' :
  permit o e = Some (g, o', e') ->
  pending_queue o' = pending_queue o /\ priority_tasks o' = priority_tasks o /\
  completed_tasks o' = completed_tasks o /\ failed_tasks o' = failed_tasks o /\
  stats o' = stats o /\ strategies o' = strategies o /\ active_tasks o' = active_tasks o /\
  downloads e' = downloads e.
Proof.
  unfold permit. intros H. destruct (rate_limiter o) as [l |].
  - destruct (RateLimiter.acquire _) as [b w | x w | w]; [| | discriminate];
      injection H as _ <- <-; repeat split.
  - injection H as _ <- <-. repeat split.
Qed.

Lemma execute_task_books task o e r task' o' e' :
  _execute_task task o e = Some (r, task', o', e') ->
  pending_queue o' = pending_queue o /\ priority_tasks o' = priority_tasks o /\
  completed_tasks o' = completed_tasks o /\ failed_tasks o' = failed_tasks o /\
  stats o' = stats o /\ active_tasks o' = active_tasks o.
Proof.
  unfold _execute_task. intros H.
  destruct (try_strategies (strategies o) None task e) as [[[[[r0 c0] l0] t0] e0] |];
    [| discriminate]. cbn in H.
  destruct r0; injection H as _ _ <- _; repeat split.
Qed.

(** How [settle] books a result. *)
Lemma settle_books result task o e o' e' :
  settle result task o e = Some (o', e') ->
  priority_tasks o' = priority_tasks o /\ downloads e' = downloads e /\
  strategies o' = strategies o /\
  total_tasks (stats o') = total_tasks (stats o) /\
  ((success result = true /\
    pending_queue o' = pending_queue o /\ completed_tasks o' = completed_tasks o ++ [task] /\
    failed_tasks o' = failed_tasks o /\
    completed_count (stats o') = completed_count (stats o) + 1 /\
    failed_count (stats o') = failed_count (stats o)) \/
   (success result = false /\ exists task1,
      retry_count task1 = retry_count task + 1 /\ max_retries task1 = max_retries task /\
      completed_tasks o' = completed_tasks o /\
      completed_count (stats o') = completed_count (stats o) /\
      ((retry_count task1 < max_retries task1 /\
        pending_queue o' = pending_queue o ++ [task1] /\ failed_tasks o' = failed_tasks o /\
        failed_count (stats o') = failed_count (stats o)) \/
       (max_retries task1 <= retry_count task1 /\
        pending_queue o' = pending_queue o /\ failed_tasks o' = failed_tasks o ++ [task1] /\
        failed_count (stats o') = failed_count (stats o) + 1)))).
Proof.
  unfold settle. intros H. destruct (success result).
  - injection H as <- <-. repeat split. left. repeat split.
  - unfold time_time in H. destruct (clock e) as [| t rest]; [discriminate |].
    cbv [mbind option_bind increment_retry] in H.
    cbn [retry_count max_retries set_updated_at set_retry_count] in H.
    destruct (Z.ltb_spec (retry_count task + 1) (max_retries task)) as [Hlt | Hge];
      injection H as <- <-; repeat split; right; (split; [reflexivity |]);
      exists (set_updated_at t (set_retry_count (retry_count task + 1) task));
      (split; [reflexivity |]); (split; [reflexivity |]);
      (split; [reflexivity |]); (split; [reflexivity |]).
    + left. repeat split. exact Hlt.
    + right. repeat split. exact Hge.
Qed.

Lemma worker_turn_balanced o e o' e' :
  worker_turn o e = Some (o', e') -> ledger_balanced o -> ledger_balanced o'.
Proof.
  unfold worker_turn, ledger_balanced. intros H (B1 & B2 & B3).
  pose proof (get_next_task_books o) as Hn.
  destruct (_get_next_task o) as [[task |] o1]; [| injection H as <- <-; subst o1; auto].
  destruct Hn as (Hlane & N1 & N2 & N3 & _).
  assert (Hlen : (length (pending_queue o) + length (priority_tasks o) =
                  S (length (pending_queue o1) + length (priority_tasks o1)))%nat).
  { destruct Hlane as [[-> ->] | [-> ->]]; cbn [length]; lia. }
  destruct (permit _ e) as [[[g o2] e2] |] eqn:Hg; [| discriminate].
  apply permit_books in Hg as (P1 & P2 & P3 & P4 & P5 & _).
  cbn [pending_queue priority_tasks completed_tasks failed_tasks stats set_active] in *.
  cbn in H. destruct g.
  - destruct (_execute_task task o2 e2) as [[[[r t3] o3] e3] |] eqn:Hx; [| discriminate].
    apply execute_task_books in Hx as (X1 & X2 & X3 & X4 & X5 & _). cbn in H.
    apply settle_books in H as (S1 & _ & _ & S2 & Hcase).
    rewrite S1, S2, X2, X5, P2, P5, N3.
    destruct Hcase as [(_ & C1 & C2 & C3 & C4 & C5)
                      | (_ & t1 & _ & _ & C2 & C4 & [(_ & C1 & C3 & C5) | (_ & C1 & C3 & C5)])];
      rewrite C1, C2, C3, C4, C5, X1, X3, X4, X5, P1, P3, P4, P5, N1, N2, N3;
      rewrite ?length_app; cbn [length]; lia.
  - injection H as <- <-. rewrite P1, P2, P3, P4, P5, N1, N2, N3. lia.
Qed.

Lemma step_balanced s s' : step s s' -> ledger_balanced s.1 -> ledger_balanced s'.1.
Proof.
  intros Hstep. destruct Hstep as [url type prio o e id o' e' H | o e o' e' H | o e | o e t e' H];
    cbn [fst]; intros Hb.
  - apply add_task_inv in H as (ids & c & r1 & u & r2 & _ & _ & _ & _ & ->). cbn zeta.
    destruct Hb as (B1 & B2 & B3). unfold ledger_balanced.
    destruct (_ && _); cbn [pending_queue priority_tasks completed_tasks failed_tasks stats
                            count_task set_queues completed_count failed_count total_tasks];
      rewrite ?sort_desc_perm, ?length_app; cbn [length]; repeat split; try assumption; lia.
  - eapply worker_turn_balanced; eassumption.
  - pose proof (get_next_task_books o) as Hn. destruct Hb as (B1 & B2 & B3).
    destruct (_get_next_task o) as [[task |] o1]; cbn [snd]; [| subst o1; repeat split; auto].
    destruct Hn as (Hlane & N1 & N2 & N3 & _). unfold ledger_balanced.
    rewrite N1, N2, N3. repeat split; try assumption.
    destruct Hlane as [[E ->] | [E ->]]; rewrite E in B3; cbn [length] in B3; lia.
  - exact Hb.
Qed.

(** X21.  Along every run from the initial state, the counters
    [completed_tasks] and [failed_tasks] of the statistics are the lengths
    of the two lists, and the units waiting in the two lanes together with
    those completed and failed are no more than [total_tasks]. *)
Theorem ledger_stays_balanced cfg e0 o e :
  rtc step (init cfg, e0) (o, e) -> ledger_balanced o.
Proof.
  intros Hrun.
  change (ledger_balanced (o, e).1). revert Hrun. generalize (o, e).
  apply rtc_ind_r.
  - unfold ledger_balanced, init, register_strategy. cbn. lia.
  - intros y z _ Hstep Hy. eapply step_balanced; eassumption.
Qed.

Lemma ledger_stays_balanced_witness :
  exists o1 e1,
    add_task "https://www.douyin.com/video/1" None 0 (init default_config) quiet
      = Some ("unit-1", o1, e1) /\
    rtc step (init default_config, quiet) (o1, e1) /\
    ledger_balanced o1.
Proof.
  eexists _, _. split; [vm_compute; reflexivity |].
  match goal with |- rtc step _ (?o1, ?e1) /\ _ =>
    assert (Hr : rtc step (init default_config, quiet) (o1, e1))
  end.
  { apply rtc_once.
    apply (step_submit "https://www.douyin.com/video/1" None 0 (init default_config) quiet
             "unit-1"). vm_compute. reflexivity. }
  split; [exact Hr |].
  exact (ledger_stays_balanced default_config quiet _ _ Hr).
Defined.

(** *** How far the retry counter can pass its ceiling *)

Lemma next_download_suffix e call e' :
  next_download e = Some (call, e') -> downloads e = call :: downloads e'.
Proof.
  unfold next_download. destruct (downloads e); [discriminate |].
  intros [= <- <-]. reflexivity.
Qed.

Lemma calculate_delay_downloads self attempt e d e' :
  Retry._calculate_delay self attempt e = Some (d, e') -> downloads e' = downloads e.
Proof.
  unfold Retry._calculate_delay, random_draw. destruct (draws e); [discriminate |].
  cbn. intros [= _ <-]. reflexivity.
Qed.

(** The loop of the retry decorator leaves the ceiling of the task alone. *)
Lemma attempts_ceiling left : forall attempt last self task e exit self' task' e',
  Retry.attempts left attempt last self task e = Some (exit, self', task', e') ->
  Forall keeps_counters (downloads e) ->
  max_retries task' = max_retries task /\ downloads e' `suffix_of` downloads e.
Proof.
  induction left as [| left IH]; intros attempt last self task e exit self' task' e' H Hk.
  - injection H as _ _ <- <-. split; reflexivity.
  - cbn [Retry.attempts] in H.
    destruct (next_download e) as [[call e1] |] eqn:Hn; [| discriminate].
    cbv [mbind option_bind] in H. apply next_download_suffix in Hn.
    rewrite Hn in Hk |- *. apply Forall_cons in Hk as [Hcall Hk].
    set (task0 := if 0 <? attempt then set_status RETRYING task else task) in *.
    destruct (Hcall task0) as [_ K2].
    assert (Hmx0 : max_retries (mutate call task0) = max_retries task)
      by (rewrite K2; unfold task0; destruct (0 <? attempt); reflexivity).
    assert (Hstop : max_retries (mutate call task0) = max_retries task /\
                    downloads e1 `suffix_of` call :: downloads e1)
      by (split; [exact Hmx0 | apply suffix_cons_r; reflexivity]).
    assert (Hgo : forall lastmsg d e2,
      Retry._calculate_delay self attempt e1 = Some (d, e2) ->
      Retry.attempts left (attempt + 1) lastmsg (Retry.count_retry self)
        (set_retry_count (retry_count (mutate call task0) + 1) (mutate call task0))
        (sleep d e2) = Some (exit, self', task', e') ->
      max_retries task' = max_retries task /\
      downloads e' `suffix_of` call :: downloads e1).
    { intros lastmsg d e2 Hdel Hrec. apply calculate_delay_downloads in Hdel.
      apply IH in Hrec; [| cbn [downloads sleep]; rewrite Hdel; exact Hk].
      destruct Hrec as [R1 R2]. cbn [max_retries set_retry_count downloads sleep] in R1, R2.
      rewrite Hdel in R2. split; [congruence |].
      etrans; [exact R2 | apply suffix_cons_r; reflexivity]. }
    destruct (outcome call) as [result | raised].
    + destruct (success result); [injection H as _ _ <- <-; exact Hstop |].
      destruct (negb _); [injection H as _ _ <- <-; exact Hstop |].
      destruct (Retry._calculate_delay self attempt e1) as [[d e2] |] eqn:Hdel; [| discriminate].
      eapply Hgo; [reflexivity | exact H].
    + destruct (attempt <? _).
      * destruct (Retry._calculate_delay self attempt e1) as [[d e2] |] eqn:Hdel;
          [| discriminate].
        eapply Hgo; [reflexivity | exact H].
      * injection H as _ _ <- <-. exact Hstop.
Qed.

Lemma keeps_counters_retry_count l :
  Forall keeps_counters l -> Forall Retry.keeps_retry_count l.
Proof.
  intros H. eapply Forall_impl; [exact H |]. intros d Hd t. apply Hd.
Qed.

(** One call of the decorator's [download]. *)
Lemma download_counters self task e r self' task' e' :
  Retry.download self task e = Some (r, self', task', e') ->
  Forall keeps_counters (downloads e) ->
  retry_count task <= retry_count task'
    <= retry_count task + Z.max 0 (Retry.retry_max_retries self - 1) /\
  max_retries task' = max_retries task /\
  Retry.retry_max_retries self' = Retry.retry_max_retries self /\
  downloads e' `suffix_of` downloads e.
Proof.
  unfold Retry.download. intros H Hk.
  destruct (Retry.attempts _ 0 None self task e) as [[[[exit s1] t1] e1] |] eqn:Ha;
    [| discriminate].
  pose proof (attempts_ceiling _ _ _ _ _ _ _ _ _ _ Ha Hk) as [Hmx Hsuf].
  assert (Hrc : retry_count task <= retry_count t1
                  <= retry_count task + Z.max 0 (Retry.retry_max_retries self - 1) /\
                Retry.retry_max_retries s1 = Retry.retry_max_retries self).
  { destruct (Z.to_nat (Retry.retry_max_retries self)) as [| left] eqn:Hleft.
    - injection Ha as _ <- <- _. split; [lia | reflexivity].
    - apply Retry_more.attempts_trace in Ha; [| right; lia].
      destruct Ha as (used & delays & jitters & U1 & _ & _ & _ & U5 & U6 & _ & U8 & _ & _
                      & _ & _ & U13).
      rewrite U13.
      2:{ apply keeps_counters_retry_count. rewrite U1 in Hk. apply Forall_app in Hk. apply Hk. }
      specialize (U6 ltac:(discriminate)). split; [lia | exact U8]. }
  destruct Hrc as [Hrc Hw].
  cbv [mbind option_bind] in H.
  destruct exit; injection H as _ <- <- <-; cbn [retry_count max_retries set_status
    Retry.retry_max_retries Retry.count_failure Retry.set_retry_stats]; auto.
Qed.

Lemma retry_budget_nonneg st : 0 <= retry_budget st.
Proof. unfold retry_budget. destruct (wrapper st); lia. Qed.

Lemma chain_budget_nonneg chain : 0 <= chain_budget chain.
Proof.
  induction chain as [| st chain IH]; [reflexivity |]. cbn [chain_budget fold_right].
  fold (chain_budget chain). pose proof (retry_budget_nonneg st). lia.
Qed.

Lemma try_strategies_budget todo : forall last task e r chain last' task' e',
  try_strategies todo last task e = Some (r, chain, last', task', e') ->
  Forall keeps_counters (downloads e) ->
  chain_budget chain = chain_budget todo /\
  retry_count task <= retry_count task' <= retry_count task + chain_budget todo /\
  max_retries task' = max_retries task /\
  downloads e' `suffix_of` downloads e.
Proof.
  induction todo as [| s todo IH]; intros last task e r chain last' task' e' H Hk.
  - injection H as _ <- _ <- <-. cbn. repeat split; [lia | lia | reflexivity].
  - cbn [try_strategies] in H. cbn [chain_budget fold_right]. fold (chain_budget todo).
    pose proof (chain_budget_nonneg todo) as Hnn.
    pose proof (retry_budget_nonneg s) as Hns.
    assert (Hrest : forall msg task1 e1 r0 c0 l0 t0 e0 s1,
      try_strategies todo msg task1 e1 = Some (r0, c0, l0, t0, e0) ->
      retry_budget s1 = retry_budget s ->
      retry_count task <= retry_count task1 <= retry_count task + retry_budget s ->
      max_retries task1 = max_retries task ->
      downloads e1 `suffix_of` downloads e ->
      chain_budget (s1 :: c0) = retry_budget s + chain_budget todo /\
      retry_count task <= retry_count t0
        <= retry_count task + (retry_budget s + chain_budget todo) /\
      max_retries t0 = max_retries task /\
      downloads e0 `suffix_of` downloads e).
    { intros msg task1 e1 r0 c0 l0 t0 e0 s1 Hr Hb Hrc Hmx Hsuf.
      apply IH in Hr; [| eapply Forall_suffix; eassumption].
      destruct Hr as (I1 & I2 & I3 & I4).
      cbn [chain_budget fold_right]. fold (chain_budget c0).
      repeat split; try lia; try congruence; etrans; eassumption. }
    assert (Hdone : forall task1 e1 s1,
      retry_budget s1 = retry_budget s ->
      retry_count task <= retry_count task1 <= retry_count task + retry_budget s ->
      max_retries task1 = max_retries task ->
      downloads e1 `suffix_of` downloads e ->
      chain_budget (s1 :: todo) = retry_budget s + chain_budget todo /\
      retry_count task <= retry_count task1
        <= retry_count task + (retry_budget s + chain_budget todo) /\
      max_retries task1 = max_retries task /\
      downloads e1 `suffix_of` downloads e).
    { intros task1 e1 s1 Hb Hrc Hmx Hsuf. cbn [chain_budget fold_right].
      fold (chain_budget todo). repeat split; try lia; assumption. }
    destruct (negb (can_handle s task)).
    + destruct (try_strategies todo last task e) as [[[[[r0 c0] l0] t0] e0] |] eqn:Hr;
        [| discriminate]. cbv [mbind option_bind] in H. injection H as _ <- _ <- <-.
      eapply Hrest; [exact Hr | reflexivity | lia | reflexivity | reflexivity].
    + destruct (wrapper s) as [retry |] eqn:Hw.
      * destruct (Retry.download retry task e) as [[[[res rt] t1] e1] |] eqn:Hd;
          [| discriminate].
        apply download_counters in Hd as (D1 & D2 & D3 & D4); [| exact Hk].
        cbv [mbind option_bind] in H.
        assert (Hb : retry_budget (Strategy (inner_name s) (get_priority s) (can_handle s)
                                            (Some rt)) = retry_budget s)
          by (unfold retry_budget; cbn [wrapper]; rewrite Hw, D3; reflexivity).
        assert (Hrc : retry_count task <= retry_count t1 <= retry_count task + retry_budget s)
          by (unfold retry_budget; rewrite Hw; exact D1).
        destruct (success res).
        { injection H as _ <- _ <- <-. apply Hdone; assumption. }
        destruct (try_strategies todo _ t1 e1) as [[[[[r0 c0] l0] t0] e0] |] eqn:Hr;
          [| discriminate]. injection H as _ <- _ <- <-.
        eapply Hrest; eassumption.
      * destruct (next_download e) as [[call e1] |] eqn:Hn; [| discriminate].
        apply next_download_suffix in Hn. cbv [mbind option_bind] in H.
        pose proof Hk as Hk'. rewrite Hn in Hk'. apply Forall_cons in Hk' as [Hcall _].
        destruct (Hcall task) as [K1 K2].
        assert (Hsuf : downloads e1 `suffix_of` downloads e)
          by (rewrite Hn; apply suffix_cons_r; reflexivity).
        assert (Hrc : retry_count task <= retry_count (mutate call task)
                        <= retry_count task + retry_budget s) by lia.
        destruct (outcome call) as [res | raised].
        -- destruct (success res).
           { injection H as _ <- _ <- <-. apply Hdone; [reflexivity | assumption ..]. }
           destruct (try_strategies todo _ _ e1) as [[[[[r0 c0] l0] t0] e0] |] eqn:Hr;
             [| discriminate]. injection H as _ <- _ <- <-.
           eapply Hrest; [exact Hr | reflexivity | assumption ..].
        -- destruct (try_strategies todo _ _ e1) as [[[[[r0 c0] l0] t0] e0] |] eqn:Hr;
             [| discriminate]. injection H as _ <- _ <- <-.
           eapply Hrest; [exact Hr | reflexivity | assumption ..].
Qed.

Lemma execute_task_budget task o e r task' o' e' :
  _execute_task task o e = Some (r, task', o', e') ->
  Forall keeps_counters (downloads e) ->
  chain_budget (strategies o') = chain_budget (strategies o) /\
  retry_count task <= retry_count task' <= retry_count task + chain_budget (strategies o) /\
  max_retries task' = max_retries task /\
  downloads e' `suffix_of` downloads e.
Proof.
  unfold _execute_task. intros H Hk.
  destruct (try_strategies (strategies o) None task e) as [[[[[r0 c0] l0] t0] e0] |] eqn:Hr;
    [| discriminate]. cbv [mbind option_bind] in H.
  apply (try_strategies_budget _ _ _ _ _ _ _ _ _ Hr) in Hk.
  destruct r0; injection H as _ <- <- <-; exact Hk.
Qed.

Lemma worker_turn_near budget o e o' e' :
  worker_turn o e = Some (o', e') -> near_ceiling budget (o, e) -> near_ceiling budget (o', e').
Proof.
  unfold worker_turn, near_ceiling. cbn [fst snd]. intros H (U1 & U2 & U3 & U4 & U5 & U6).
  pose proof (get_next_task_books o) as Hn.
  destruct (_get_next_task o) as [[task |] o1].
  2:{ injection H as <- <-. subst o1. repeat split; assumption. }
  destruct Hn as (Hlane & N1 & N2 & N3 & N4 & _).
  assert (Hl : retry_count task < max_retries task /\
               Forall (fun t => retry_count t < max_retries t) (pending_queue o1) /\
               Forall (fun t => retry_count t < max_retries t) (priority_tasks o1)).
  { destruct Hlane as [[E ->] | [E ->]].
    - rewrite E in U1. apply Forall_cons in U1 as [? ?]. auto.
    - rewrite E in U2. apply Forall_cons in U2 as [? ?]. auto. }
  destruct Hl as (Ht & L1 & L2).
  destruct (permit _ e) as [[[g o2] e2] |] eqn:Hg; [| discriminate].
  apply permit_books in Hg as (P1 & P2 & P3 & P4 & P5 & P6 & _ & P8).
  cbn [pending_queue priority_tasks completed_tasks failed_tasks stats strategies set_active] in *.
  cbv [mbind option_bind] in H. destruct g.
  - destruct (_execute_task task o2 e2) as [[[[r t3] o3] e3] |] eqn:Hx; [| discriminate].
    pose proof (execute_task_books _ _ _ _ _ _ _ Hx) as (X1 & X2 & X3 & X4 & _).
    apply execute_task_budget in Hx as (Y1 & Y2 & Y3 & Y4); [| rewrite P8; exact U6].
    rewrite P6, N4, U5 in Y1, Y2.
    apply settle_books in H as (S1 & S2 & S3 & _ & Hcase).
    assert (Hd : Forall keeps_counters (downloads e')).
    { rewrite S2. eapply Forall_suffix; [exact Y4 |]. rewrite P8. exact U6. }
    rewrite S1, S3, X2, P2, Y1.
    destruct Hcase as [(_ & C1 & C2 & C3 & _)
                      | (_ & t1 & R1 & R2 & C2 & _ & [(R3 & C1 & C3 & _) | (R3 & C1 & C3 & _)])];
      rewrite C1, C2, C3, X1, X3, X4, P1, P3, P4, N1, N2.
    + repeat split; try assumption. apply Forall_app. split; [exact U3 |].
      repeat constructor. lia.
    + repeat split; try assumption. apply Forall_app. split; [exact L1 |].
      repeat constructor. exact R3.
    + repeat split; try assumption. apply Forall_app. split; [exact U4 |].
      repeat constructor; lia.
  - injection H as <- <-. cbn [downloads sleep]. rewrite P1, P2, P3, P4, P6, P8, N1, N2, N4.
    repeat split; assumption.
Qed.

Lemma step_near budget s s' : step s s' -> near_ceiling budget s -> near_ceiling budget s'.
Proof.
  intros Hstep. destruct Hstep as [url type prio o e id o' e' H | o e o' e' H | o e | o e t e' H];
    intros Hu.
  - destruct Hu as (U1 & U2 & U3 & U4 & U5 & U6). cbn [fst snd] in *.
    apply add_task_inv in H as (ids & c & r1 & u & r2 & _ & _ & _ & -> & ->). cbn zeta.
    unfold near_ceiling. cbn [fst snd downloads].
    destruct (_ && _); cbn [pending_queue priority_tasks completed_tasks failed_tasks
                            strategies count_task set_queues];
      repeat split; try assumption.
    + rewrite sort_desc_perm. apply Forall_app. split; [exact U2 |].
      repeat constructor; cbn; lia.
    + apply Forall_app. split; [exact U1 |]. repeat constructor; cbn; lia.
  - eapply worker_turn_near; eassumption.
  - destruct Hu as (U1 & U2 & U3 & U4 & U5 & U6). cbn [fst snd] in *.
    pose proof (get_next_task_books o) as Hn.
    destruct (_get_next_task o) as [[task |] o1]; cbn [snd];
      [| subst o1; repeat split; assumption].
    destruct Hn as (Hlane & N1 & N2 & _ & N4 & _). unfold near_ceiling. cbn [fst snd].
    rewrite N1, N2, N4. repeat split; try assumption.
    + destruct Hlane as [[E _] | [_ ->]]; [| exact U1].
      rewrite E in U1. apply Forall_cons in U1 as [_ ?]. assumption.
    + destruct Hlane as [[_ ->] | [E _]]; [exact U2 |].
      rewrite E in U2. apply Forall_cons in U2 as [_ ?]. assumption.
  - destruct Hu as (U1 & U2 & U3 & U4 & U5 & U6). cbn [fst snd] in *.
    unfold time_time in H. destruct (clock e); [discriminate |]. injection H as _ <-.
    repeat split; assumption.
Qed.

(** X22.  Along every run from the initial state, with downloads that
    leave [retry_count] and [max_retries] alone: a unit that waits has
    [retry_count < max_retries]; a unit in [failed_tasks] has
    [retry_count] at its ceiling or past it by no more than what the
    strategy chain may add in one pass, which is 2 when [enable_retry]
    is on (the three attempts of [RetryStrategy.download] count two
    retries) and 0 when it is off; a completed unit stays below the
    ceiling plus that amount.  The worker counts through
    [increment_retry], the decorator adds to the same counter. *)
Theorem retry_count_stays_near_ceiling cfg e0 o e :
  Forall keeps_counters (downloads e0) ->
  rtc step (init cfg, e0) (o, e) ->
  Forall (fun t => retry_count t < max_retries t) (pending_queue o ++ priority_tasks o) /\
  Forall (fun t => retry_count t < max_retries t + initial_budget cfg) (completed_tasks o) /\
  Forall (fun t => max_retries t <= retry_count t <= max_retries t + initial_budget cfg)
         (failed_tasks o).
Proof.
  intros Hk Hrun.
  assert (Hinv : near_ceiling (initial_budget cfg) (o, e)).
  { revert Hrun. generalize (o, e). apply rtc_ind_r.
    - unfold near_ceiling, init, register_strategy, initial_budget.
      cbn [fst snd pending_queue priority_tasks completed_tasks failed_tasks strategies].
      repeat split; try constructor; [| exact Hk].
      destruct (enable_retry cfg); reflexivity.
    - intros y z _ Hstep Hy. eapply step_near; eassumption. }
  destruct Hinv as (U1 & U2 & U3 & U4 & _). cbn [fst] in *.
  rewrite Forall_app. auto.
Qed.

Lemma retry_count_stays_near_ceiling_witness :
  Forall keeps_counters (downloads five_failures) /\
  exists o e,
    default_run = Some (o, e) /\
    rtc step (init default_config, five_failures) (o, e) /\
    (fun t => (task_id t, retry_count t, max_retries t)) <$> failed_tasks o
      = [("unit-1", 5, 3)] /\
    Forall (fun t => retry_count t < max_retries t) (pending_queue o ++ priority_tasks o) /\
    Forall (fun t => retry_count t < max_retries t + initial_budget default_config)
           (completed_tasks o) /\
    Forall (fun t => max_retries t <= retry_count t
                       <= max_retries t + initial_budget default_config)
           (failed_tasks o).
Proof.
  assert (Hk : Forall keeps_counters (downloads five_failures)).
  { repeat constructor. }
  split; [exact Hk |].
  eexists _, _. split; [vm_compute; reflexivity |].
  match goal with |- rtc step _ (?o, ?e) /\ _ =>
    assert (Hr : rtc step (init default_config, five_failures) (o, e))
  end.
  { eapply rtc_l.
    { apply (step_submit "https://www.douyin.com/video/1" None 0 (init default_config)
               five_failures "unit-1"). vm_compute. reflexivity. }
    eapply rtc_l; [apply step_worker; vm_compute; reflexivity |].
    eapply rtc_l; [apply step_worker; vm_compute; reflexivity |].
    apply rtc_once. apply step_worker. vm_compute. reflexivity. }
  split; [exact Hr |]. split; [vm_compute; reflexivity |].
  exact (retry_count_stays_near_ceiling default_config five_failures _ _ Hk Hr).
Defined.

(** Without the decorator the same worker stops the unit at its ceiling. *)
Example plain_run_fails_at_ceiling :
  match plain_run with
  | Some (o, _) =>
      (fun t => (task_id t, retry_count t, max_retries t)) <$> failed_tasks o
        = [("unit-1", 3, 3)]
  | None => False
  end.
Proof. vm_compute. reflexivity. Qed.

(** *** A limiter that cannot grant *)

(** X23.  With rate limiting on and a configured maximum per second or per
    minute of zero or less, the turn of a worker that takes a newly
    submitted unit ends in the [except Exception] branch: [acquire] has
    raised, the worker sleeps one second, no download is made, and the
    unit is left in [active_tasks], in neither lane and in neither list,
    reported as pending, with the limiter as it was made. *)
Theorem zero_ceiling_strands_unit cfg url type prio e id o1 e1 t rest :
  enable_rate_limit cfg = true ->
  RateLimiter.max_per_second (rate_limit_config cfg) <= 0 \/
  RateLimiter.max_per_minute (rate_limit_config cfg) <= 0 ->
  add_task url type prio (init cfg) e = Some (id, o1, e1) ->
  clock e1 = t :: rest -> (0 <= t)%Q ->
  exists task o2,
    worker_turn o1 e1 =
      Some (o2, Env rest (slept e1 ++ [1%Q]) (uuids e1) (draws e1) (downloads e1)) /\
    task_id task = id /\
    active_tasks o2 = {[id := task]} /\
    pending_queue o2 = [] /\ priority_tasks o2 = [] /\
    completed_tasks o2 = [] /\ failed_tasks o2 = [] /\
    get_task_status id o2 = Some PENDING /\
    rate_limiter o2 = Some (RateLimiter.init (rate_limit_config cfg)).
Proof.
  intros Hlim Hzero Hadd Hclk Ht.
  apply add_task_inv in Hadd as (ids & c & r1 & u & r2 & _ & _ & _ & He1 & ->). cbn zeta.
  set (task := Task id url (default (_detect_task_type url) type) prio 0 3 PENDING ∅ c u None).
  assert (Hnext : exists o1',
    _get_next_task
      (count_task
         (if priority_queue (config (init cfg)) && (0 <? prio)
          then set_queues (pending_queue (init cfg))
                 (sort_desc priority (priority_tasks (init cfg) ++ [task])) (init cfg)
          else set_queues (pending_queue (init cfg) ++ [task]) (priority_tasks (init cfg))
                 (init cfg))) = (Some task, o1') /\
    pending_queue o1' = [] /\ priority_tasks o1' = [] /\ completed_tasks o1' = [] /\
    failed_tasks o1' = [] /\ active_tasks o1' = ∅ /\
    rate_limiter o1' = Some (RateLimiter.init (rate_limit_config cfg))).
  { unfold init, register_strategy. cbn [config priority_tasks pending_queue].
    rewrite Hlim. destruct (_ && _); eexists; (split; [reflexivity |]); repeat split. }
  destruct Hnext as (o1' & Hn & N1 & N2 & N3 & N4 & N5 & N6).
  unfold worker_turn. rewrite Hn. unfold permit. cbn [rate_limiter set_active]. rewrite N6.
  rewrite Hclk, (Limiter_more.acquire_zero_ceiling _ _ _ _ Ht Hzero).
  cbn [mbind option_bind RateLimiter.lim RateLimiter.clock RateLimiter.slept].
  exists task. eexists. split.
  { cbn [sleep clock slept uuids draws downloads]. reflexivity. }
  cbn [active_tasks pending_queue priority_tasks completed_tasks failed_tasks rate_limiter
       set_rate_limiter set_active task_id task].
  rewrite N1, N2, N3, N4, N5.
  repeat split.
  unfold get_task_status.
  cbn [active_tasks set_rate_limiter set_active task_id task].
  rewrite lookup_insert_eq. reflexivity.
Qed.

Lemma zero_ceiling_strands_unit_witness :
  enable_rate_limit zero_rate_config = true /\
  (RateLimiter.max_per_second (rate_limit_config zero_rate_config) <= 0 \/
   RateLimiter.max_per_minute (rate_limit_config zero_rate_config) <= 0) /\
  (0 <= 101)%Q /\
  exists o1 task o2,
    add_task "https://www.douyin.com/video/1" None 0 (init zero_rate_config) quiet
      = Some ("unit-1", o1, Env [101; 102]%Q [] [] [] []) /\
    worker_turn o1 (Env [101; 102]%Q [] [] [] []) = Some (o2, Env [102%Q] [1%Q] [] [] []) /\
    task_id task = "unit-1" /\
    active_tasks o2 = {["unit-1" := task]} /\
    pending_queue o2 = [] /\ priority_tasks o2 = [] /\
    completed_tasks o2 = [] /\ failed_tasks o2 = [] /\
    get_task_status "unit-1" o2 = Some PENDING /\
    rate_limiter o2 = Some (RateLimiter.init (rate_limit_config zero_rate_config)).
Proof.
  split; [reflexivity |]. split; [left; cbn; lia |]. split; [unfold Qle; cbn; lia |].
  eexists. 
  assert (Hadd : add_task "https://www.douyin.com/video/1" None 0 (init zero_rate_config) quiet
                 = Some ("unit-1", ?[o1], Env [101; 102]%Q [] [] [] []))
    by (vm_compute; reflexivity).
  destruct (zero_ceiling_strands_unit zero_rate_config "https://www.douyin.com/video/1" None 0
              quiet "unit-1" _ _ 101 [102%Q] eq_refl ltac:(left; cbn; lia) Hadd eq_refl
              ltac:(unfold Qle; cbn; lia)) as (task & o2 & H).
  exists task, o2. split; [exact Hadd | exact H].
Defined.

End Orchestrator_more.

(** ** The fixed-rate limiter *)

Module SimpleLimiter_facts.
Import Base SimpleLimiter.

(** X24.  [SimpleRateLimiter.acquire] reads the clock twice and keeps the
    second reading as [last_request_time].  If less than [min_interval]
    has passed since the last request it sleeps the rest, once, and
    otherwise not at all; if the clock has moved on by at least what was
    slept, the new [last_request_time] is at least [min_interval] after
    the old one. *)
Theorem simple_limiter_spaces_requests s e s' e' :
  acquire s e = Some (s', e') ->
  exists now t rest,
    clock e = now :: t :: rest /\ clock e' = rest /\
    s' = Simple (requests_per_second s) (min_interval s) t /\
    ((now - last_request_time s < min_interval s)%Q ->
       slept e' = slept e ++ [(min_interval s - (now - last_request_time s))%Q] /\
       ((now + (min_interval s - (now - last_request_time s)) <= t)%Q ->
        (last_request_time s + min_interval s <= last_request_time s')%Q)) /\
    ((min_interval s <= now - last_request_time s)%Q ->
       slept e' = slept e /\
       ((now <= t)%Q -> (last_request_time s + min_interval s <= last_request_time s')%Q)).
Proof.
  unfold acquire, time_time. intros H.
  destruct (clock e) as [| now rest0] eqn:Hclk; [discriminate |].
  cbv [mbind option_bind] in H.
  destruct (Qltb (now - last_request_time s) (min_interval s)) eqn:Hlt;
    cbn [clock sleep slept uuids draws downloads] in H;
    (destruct rest0 as [| t rest]; [discriminate |]);
    injection H as <- <-; exists now, t, rest;
    (split; [reflexivity |]); (split; [reflexivity |]); (split; [reflexivity |]);
    cbn [last_request_time slept].
  - apply Qltb_lt in Hlt. split.
    + intros _. split; [reflexivity |]. intros Hslept. lra.
    + intros Hge. lra.
  - apply Qltb_ge in Hlt. split.
    + intros Hlt'. lra.
    + intros _. split; [reflexivity |]. intros Hmono. lra.
Qed.

Lemma simple_limiter_spaces_requests_witness :
  exists s' e',
    acquire once_a_second (Env [100.25; 101]%Q [] [] [] []) = Some (s', e') /\
    exists now t rest,
      [100.25; 101]%Q = now :: t :: rest /\ clock e' = rest /\
      s' = Simple (requests_per_second once_a_second) (min_interval once_a_second) t /\
      ((now - last_request_time once_a_second < min_interval once_a_second)%Q ->
         slept e' = [] ++ [(min_interval once_a_second
                              - (now - last_request_time once_a_second))%Q] /\
         ((now + (min_interval once_a_second - (now - last_request_time once_a_second)) <= t)%Q ->
          (last_request_time once_a_second + min_interval once_a_second
             <= last_request_time s')%Q)) /\
      ((min_interval once_a_second <= now - last_request_time once_a_second)%Q ->
         slept e' = [] /\
         ((now <= t)%Q ->
          (last_request_time once_a_second + min_interval once_a_second
             <= last_request_time s')%Q)).
Proof.
  eexists _, _. split; [vm_compute; reflexivity |].
  apply (simple_limiter_spaces_requests once_a_second (Env [100.25; 101]%Q [] [] [] [])).
  vm_compute. reflexivity.
Defined.

End SimpleLimiter_facts.
